(** * Verification of the maubot ChatGPT plugin (src/chatgpt)

    A shallow embedding of [src/chatgpt/bot.py] and of the services it
    calls, together with the properties of the reply cache, the
    conversation resolver, the tool-call accumulator and the orchestrator
    [chat_gpt_request].

    A Python [str] is embedded as the [string] of its bytes in UTF-8 (a
    lone surrogate, which a [str] can hold, as the three bytes of its code
    point).  Where the code looks at characters ([str.strip], [\w], [repr],
    [json.dumps]) the embedding decodes the bytes; the tables of the
    Unicode database these operations consult, and the printing of floats,
    belong to the interpreter and are parameters ([Python.Runtime]).
    Python dictionaries keep insertion order, so they are embedded as
    association lists with unique keys.  The interpreter's resource limits
    (recursion depth, the digit limit of [int], memory) are outside the
    embedding. *)

From Stdlib Require Import String Ascii Bool Arith NArith Lia QArith List.
From Stdlib Require DecimalString.
Import ListNotations.
Close Scope Q_scope.
Open Scope string_scope.
Open Scope list_scope.
Open Scope nat_scope.

(** ** Python dictionaries with string keys (insertion ordered) *)

Module PyDict.

Section Dict.
Context {V : Type}.

Definition dict := list (string * V).

Definition keys (d : dict) : list string := map fst d.

(** [d.get(k)] *)
Fixpoint get (d : dict) (k : string) : option V :=
  match d with
  | [] => None
  | (k', v) :: d' => if String.eqb k' k then Some v else get d' k
  end.

(** [d[k] = v]: an existing key keeps its position, a new key goes last. *)
Fixpoint set (d : dict) (k : string) (v : V) : dict :=
  match d with
  | [] => [(k, v)]
  | (k', v') :: d' =>
      if String.eqb k' k then (k', v) :: d' else (k', v') :: set d' k v
  end.

(** [del d[k]] for a key that is present. *)
Fixpoint del (d : dict) (k : string) : dict :=
  match d with
  | [] => []
  | (k', v') :: d' =>
      if String.eqb k' k then d' else (k', v') :: del d' k
  end.

Definition mem (d : dict) (k : string) : bool :=
  match get d k with Some _ => true | None => false end.

End Dict.

Arguments dict : clear implicits.

End PyDict.

(** ** The reply cache: [self.assistant_replies] and [self.max_messages] *)

Module ReplyCache.

Definition EventID := string.

(** [self.assistant_replies: Dict[str, str] = {}] *)
Definition t := PyDict.dict string.

Definition empty : t := [].

(** [self.max_messages = 100] *)
Definition max_messages : nat := 100.

(** The last three statements of [_edit]:
<<
    self.assistant_replies[event_id] = text
    if len(self.assistant_replies) > self.max_messages:
        oldest_event_id = next(iter(self.assistant_replies))
        del self.assistant_replies[oldest_event_id]
>> *)
Definition store (c : t) (event_id : EventID) (text : string) : t :=
  let c' := PyDict.set c event_id text in
  if max_messages <? length c' then
    match c' with
    | [] => c'
    | (oldest_event_id, _) :: _ => PyDict.del c' oldest_event_id
    end
  else c'.

(** A run of edits, oldest first. *)
Definition store_all (c : t) (edits : list (EventID * string)) : t :=
  fold_left (fun c e => store c (fst e) (snd e)) edits c.

(** The states the cache of a running bot can be in. *)
Inductive reachable : t -> Prop :=
| reach_empty : reachable empty
| reach_store c event_id text :
    reachable c -> reachable (store c event_id text).

(** The last [n] elements of a list. *)
Definition lastn {A} (n : nat) (l : list A) : list A :=
  skipn (length l - n) l.

(** The identifiers a run of edits inserts, in order: the identifiers that
    are not in the cache when they are written. *)
Fixpoint insertions (c : t) (edits : list (EventID * string))
  : list EventID :=
  match edits with
  | [] => []
  | (event_id, text) :: rest =>
      (if PyDict.mem c event_id then [] else [event_id])
      ++ insertions (store c event_id text) rest
  end.

(** Decidable pairwise distinctness of identifiers. *)
Fixpoint distinctb (l : list string) : bool :=
  match l with
  | [] => true
  | x :: r => negb (existsb (String.eqb x) r) && distinctb r
  end.

(** Sample identifiers [$0], [$1], ... (one byte after the sigil). *)
Definition sample_id (n : nat) : EventID :=
  String "$" (String (ascii_of_nat n) EmptyString).

Definition sample_edits (n : nat) : list (EventID * string) :=
  map (fun i => (sample_id i, "reply")) (seq 0 n).

(** The edits of [n] replies that are each written twice, as a streamed
    reply is. *)
Definition sample_streamed_edits (n : nat) : list (EventID * string) :=
  flat_map (fun i => [(sample_id i, "…"); (sample_id i, "reply")]) (seq 0 n).

End ReplyCache.

(** ** Characters: UTF-8 and the interpreter's tables *)

Module Utf8.

Local Open Scope string_scope.
Local Open Scope nat_scope.

Definition byte (c : ascii) : N := N_of_ascii c.

(** A continuation byte, [10xxxxxx]. *)
Definition is_cont (c : ascii) : bool :=
  ((128 <=? byte c) && (byte c <? 192))%N.

(** The payload of [n] continuation bytes at the head of [s], added to
    [acc], and what follows them. *)
Fixpoint tail (n : nat) (acc : N) (s : string) : option (N * string) :=
  match n with
  | O => Some (acc, s)
  | S n' =>
      match s with
      | String c s' =>
          if is_cont c then tail n' (acc * 64 + (byte c - 128))%N s' else None
      | EmptyString => None
      end
  end.

(** A character: its code point and the bytes that stand for it. *)
Record Char : Type := {
  code : N;
  bytes : string
}.

(** A byte that starts no well-formed sequence is a character of its own,
    U+DC00 plus the byte (what the error handler [surrogateescape] makes
    of it).  The bytes of a [str] hold no such byte. *)
Definition lone (c : ascii) : Char :=
  {| code := (56320 + byte c)%N; bytes := String c "" |}.

(** A lead byte [c] with payload [lead] that asks for [n] continuation
    bytes; the code point must lie between [low] and [high] (shortest
    form, at most U+10FFFF). *)
Definition sequence (n : nat) (lead low high : N) (c : ascii) (s' : string)
  : Char * string :=
  match tail n lead s' with
  | Some (cp, rest) =>
      if ((low <=? cp) && (cp <=? high))%N
      then ({| code := cp; bytes := String c (substring 0 n s') |}, rest)
      else (lone c, s')
  | None => (lone c, s')
  end.

(** The first character of [s] and what follows it. *)
Definition next (s : string) : option (Char * string) :=
  match s with
  | EmptyString => None
  | String c s' =>
      let b := byte c in
      Some (if (b <? 128)%N then ({| code := b; bytes := String c "" |}, s')
            else if (b <? 192)%N then (lone c, s')
            else if (b <? 224)%N then sequence 1 (b - 192) 128 2047 c s'
            else if (b <? 240)%N then sequence 2 (b - 224) 2048 65535 c s'
            else if (b <? 248)%N then sequence 3 (b - 240) 65536 1114111 c s'
            else (lone c, s'))
  end.

(** The characters of [s]; every character takes at least one byte, so
    the length of [s] bounds their number. *)
Fixpoint chars_upto (fuel : nat) (s : string) : list Char :=
  match fuel with
  | O => []
  | S fuel' =>
      match next s with
      | Some (ch, rest) => ch :: chars_upto fuel' rest
      | None => []
      end
  end.

Definition chars (s : string) : list Char := chars_upto (String.length s) s.

Definition text (cs : list Char) : string :=
  fold_right (fun ch acc => bytes ch ++ acc) "" cs.

(** [len(s)]: the number of characters. *)
Definition count (s : string) : nat := List.length (chars s).

(** The longest run of characters whose code points satisfy [p], and the
    characters after it. *)
Fixpoint take_while (p : N -> bool) (cs : list Char)
  : list Char * list Char :=
  match cs with
  | ch :: cs' =>
      if p (code ch) then let (a, b) := take_while p cs' in (ch :: a, b)
      else ([], cs)
  | [] => ([], [])
  end.

Definition span (p : N -> bool) (s : string) : string * string :=
  let (a, b) := take_while p (chars s) in (text a, text b).

(** Every character of [s] satisfies [p]. *)
Definition all (p : N -> bool) (s : string) : bool :=
  forallb (fun ch => p (code ch)) (chars s).

(** The bytes of a code point. *)
Definition encode (cp : N) : string :=
  let b (n : N) := ascii_of_N n in
  if (cp <? 128)%N then String (b cp) ""
  else if (cp <? 2048)%N then
    String (b (192 + cp / 64)%N) (String (b (128 + cp mod 64)%N) "")
  else if (cp <? 65536)%N then
    String (b (224 + cp / 4096)%N)
      (String (b (128 + (cp / 64) mod 64)%N)
         (String (b (128 + cp mod 64)%N) ""))
  else
    String (b (240 + cp / 262144)%N)
      (String (b (128 + (cp / 4096) mod 64)%N)
         (String (b (128 + (cp / 64) mod 64)%N)
            (String (b (128 + cp mod 64)%N) ""))).

End Utf8.

Module Python.

(** What the bot's string operations take from the interpreter:
    [str.isalnum] and [str.isprintable] of a character outside ASCII, by
    code point, and [repr(float(lexeme))] for the lexeme of a JSON number
    that has a fraction or an exponent. *)
Record Runtime : Type := {
  isalnum : N -> bool;
  isprintable : N -> bool;
  float_repr : string -> string
}.

(** U+D800 to U+DFFF, which no version of the tables makes alphanumeric
    or printable. *)
Definition is_surrogate (cp : N) : bool :=
  ((55296 <=? cp) && (cp <=? 57343))%N.

End Python.

(** ** Strings: the pieces of [str] and [re] the bot uses *)

Module PyStr.

Local Open Scope string_scope.
Local Open Scope nat_scope.

Definition in_range (lo hi : nat) (c : ascii) : bool :=
  let n := nat_of_ascii c in (lo <=? n) && (n <=? hi).

(** [[a-zA-Z0-9]] *)
Definition is_alnum (c : ascii) : bool :=
  in_range 97 122 c || in_range 65 90 c || in_range 48 57 c.

(** [\w] on a [str]: a letter or a digit of ASCII, the underscore, or a
    character outside ASCII that [str.isalnum] accepts. *)
Definition is_word (rt : Python.Runtime) (cp : N) : bool :=
  if (cp <? 128)%N then is_alnum (ascii_of_N cp) || (cp =? 95)%N
  else negb (Python.is_surrogate cp) && Python.isalnum rt cp.

(** [[\w-]] *)
Definition is_word_or_hyphen (rt : Python.Runtime) (cp : N) : bool :=
  is_word rt cp || (cp =? 45)%N.

(** The characters [str.strip()] removes: TAB to CR, FS to US, space,
    U+0085, U+00A0, U+1680, U+2000 to U+200A, U+2028, U+2029, U+202F,
    U+205F and U+3000. *)
Definition is_space (cp : N) : bool :=
  (((9 <=? cp) && (cp <=? 13)) || ((28 <=? cp) && (cp <=? 32))
   || (cp =? 133) || (cp =? 160) || (cp =? 5760)
   || ((8192 <=? cp) && (cp <=? 8202))
   || (cp =? 8232) || (cp =? 8233) || (cp =? 8239) || (cp =? 8287)
   || (cp =? 12288))%N.

(** Longest prefix whose bytes satisfy [p], and what follows it. *)
Fixpoint span (p : ascii -> bool) (s : string) : string * string :=
  match s with
  | String c s' =>
      if p c then let (a, b) := span p s' in (String c a, b)
      else (EmptyString, s)
  | EmptyString => (EmptyString, EmptyString)
  end.

Fixpoint drop_space (cs : list Utf8.Char) : list Utf8.Char :=
  match cs with
  | ch :: cs' => if is_space (Utf8.code ch) then drop_space cs' else cs
  | [] => []
  end.

(** [s.strip()] *)
Definition strip (s : string) : string :=
  Utf8.text (rev (drop_space (rev (drop_space (Utf8.chars s))))).

(** [Some rest] when [s = p ++ rest]. *)
Fixpoint drop_prefix (p s : string) : option string :=
  match p, s with
  | EmptyString, _ => Some s
  | String a p', String b s' =>
      if Ascii.eqb a b then drop_prefix p' s' else None
  | String _ _, EmptyString => None
  end.

(** [s.endswith(p)] *)
Definition ends_with (p s : string) : bool :=
  let n := String.length s in
  let m := String.length p in
  (m <=? n) && String.eqb (substring (n - m) m s) p.

(** [''.join(parts)] *)
Definition join (parts : list string) : string :=
  fold_right String.append "" parts.

(** Truthiness of a [str]. *)
Definition nonempty (s : string) : bool :=
  match s with EmptyString => false | _ => true end.

(** Truthiness of an [Optional[str]]. *)
Definition truthy (o : option string) : bool :=
  match o with Some s => nonempty s | None => false end.

Definition newline : ascii := ascii_of_nat 10.

(** The double-quote character, as a character and as a string. *)
Definition dquote_char : ascii := ascii_of_nat 34.
Definition dquote : string := String dquote_char EmptyString.

(** [str(n)] of a natural number. *)
Definition str_of_nat (n : nat) : string :=
  DecimalString.NilZero.string_of_uint (Nat.to_uint n).

Definition hex_digit (n : N) : ascii :=
  if (n <? 10)%N then ascii_of_N (48 + n) else ascii_of_N (87 + n).

(** [digits] hexadecimal digits of [v], the most significant first. *)
Fixpoint hex (digits : nat) (v : N) : string :=
  match digits with
  | O => ""
  | S d => hex d (v / 16)%N ++ String (hex_digit (v mod 16)%N) ""
  end.

(** [str.isprintable] of a character. *)
Definition is_printable (rt : Python.Runtime) (cp : N) : bool :=
  if (cp <? 128)%N then ((32 <=? cp) && (cp <? 127))%N
  else negb (Python.is_surrogate cp) && Python.isprintable rt cp.

Fixpoint has_char (c : ascii) (s : string) : bool :=
  match s with
  | EmptyString => false
  | String d s' => Ascii.eqb c d || has_char c s'
  end.

(** One character inside [repr] of a [str] quoted with [q]. *)
Definition repr_char (rt : Python.Runtime) (q : ascii) (ch : Utf8.Char)
  : string :=
  let cp := Utf8.code ch in
  if ((cp =? Utf8.byte q) || (cp =? 92))%N
  then String "\" (String (ascii_of_N cp) "")
  else if (cp =? 9)%N then "\t"
  else if (cp =? 10)%N then "\n"
  else if (cp =? 13)%N then "\r"
  else if is_printable rt cp then Utf8.bytes ch
  else if (cp <? 256)%N then "\x" ++ hex 2 cp
  else if (cp <? 65536)%N then "\u" ++ hex 4 cp
  else "\U" ++ hex 8 cp.

(** [repr(s)]: single quotes, unless the text has a single quote and no
    double quote. *)
Definition repr (rt : Python.Runtime) (s : string) : string :=
  let q := if has_char "'" s && negb (has_char dquote_char s)
           then dquote_char else "'"%char in
  String q (fold_right (fun ch acc => repr_char rt q ch ++ acc)
              (String q "") (Utf8.chars s)).

(** [pattern = re.compile(r"^@([a-zA-Z0-9]+):")] followed by
    [match.group(1) if match else ""]. *)
Definition handle_of (sender_name : string) : string :=
  match sender_name with
  | String "@" rest =>
      match span is_alnum rest with
      | (String c h, String ":" _) => String c h
      | _ => ""
      end
  | _ => ""
  end.

End PyStr.

(** The mention pattern
    [<a href="https://matrix\.to/#/{re.escape(bot_name)}">.*?</a>:? ?]. *)

Module Mention.

Definition opening (bot_name : string) : string :=
  "<a href=" ++ PyStr.dquote ++ "https://matrix.to/#/" ++ bot_name
  ++ PyStr.dquote ++ ">".

(** [.*?</a>]: number of characters up to and including the first [</a>],
    provided no newline comes before it. *)
Fixpoint lazy_close (s : string) : option nat :=
  match PyStr.drop_prefix "</a>" s with
  | Some _ => Some 4
  | None =>
      match s with
      | String c s' =>
          if Ascii.eqb c PyStr.newline then None
          else option_map S (lazy_close s')
      | EmptyString => None
      end
  end.

(** [:? ?]: an optional colon, then an optional space. *)
Definition tail_len (s : string) : nat :=
  match s with
  | String ":" (String " " _) => 2
  | String ":" _ => 1
  | String " " _ => 1
  | _ => 0
  end.

(** Length of the match of the pattern at the start of [s], if any. *)
Definition match_len (bot_name s : string) : option nat :=
  match PyStr.drop_prefix (opening bot_name) s with
  | Some r =>
      match lazy_close r with
      | Some n =>
          Some (String.length (opening bot_name) + n
                + tail_len (substring n (String.length r - n) r))
      | None => None
      end
  | None => None
  end.

(** [pattern.sub('', s)]: every match is removed, scanning left to right;
    [skip] counts the characters of the current match still to drop. *)
Fixpoint sub_from (bot_name : string) (skip : nat) (s : string) : string :=
  match s with
  | EmptyString => EmptyString
  | String c s' =>
      match skip with
      | S k => sub_from bot_name k s'
      | O =>
          match match_len bot_name s with
          | Some n => sub_from bot_name (n - 1) s'
          | None => String c (sub_from bot_name 0 s')
          end
      end
  end.

Definition sub (bot_name s : string) : string := sub_from bot_name 0 s.

End Mention.

(** ** Exceptions and results *)

Inductive PyExc : Type :=
| KeyError (key : string)
| TypeError (msg : string)
| AttributeError (msg : string)
| ValueError (msg : string)
| UnboundLocalError (msg : string)
| JSONDecodeError (msg doc : string) (pos : nat)
| ExternalError (msg : string).   (* raised by a collaborator *)

(** The line and the column [json.JSONDecodeError] computes for the index
    [pos] of its document: [doc.count('\n', 0, pos) + 1] and
    [pos - doc.rfind('\n', 0, pos)].  [line] and [col] are those of the
    characters passed so far. *)
Fixpoint line_col (cs : list Utf8.Char) (pos line col : nat) : nat * nat :=
  match pos, cs with
  | S pos', ch :: cs' =>
      if (Utf8.code ch =? 10)%N then line_col cs' pos' (S line) 1
      else line_col cs' pos' line (S col)
  | _, _ => (line, col)
  end.

(** [str(e)].  A [KeyError] prints the [repr] of its key, a
    [JSONDecodeError] its message with the place in the document; the
    other exceptions carry their text.  The wording of the interpreter's
    own messages is that of CPython 3.11. *)
Definition exc_str (rt : Python.Runtime) (e : PyExc) : string :=
  match e with
  | KeyError key => PyStr.repr rt key
  | TypeError msg | AttributeError msg | ValueError msg
  | UnboundLocalError msg | ExternalError msg => msg
  | JSONDecodeError msg doc pos =>
      let (line, col) := line_col (Utf8.chars doc) pos 1 1 in
      msg ++ ": line " ++ PyStr.str_of_nat line
      ++ " column " ++ PyStr.str_of_nat col
      ++ " (char " ++ PyStr.str_of_nat pos ++ ")"
  end.

(** [isinstance(e, ValueError)]; [json.JSONDecodeError] subclasses it. *)
Definition is_ValueError (e : PyExc) : bool :=
  match e with ValueError _ | JSONDecodeError _ _ _ => true | _ => false end.

(** Outcome of a call: a value, an exception that left the function, or an
    exhausted iteration budget (the embedding's only source of partiality). *)
Inductive result (A : Type) : Type :=
| Ok (a : A)
| Raise (e : PyExc)
| OutOfFuel.

Arguments Ok {A} a.
Arguments Raise {A} e.
Arguments OutOfFuel {A}.

(** ** Messages *)

(** One entry of an assistant message's ["tool_calls"] list:
    [{"id": .., "type": "function", "function": {"name": .., "arguments": ..}}] *)
Record ToolCallRef : Type := {
  tc_id : string;
  tc_type : string;
  tc_name : string;
  tc_arguments : string
}.

(** A chat message dictionary.  [name], [tool_calls] and [tool_call_id] are
    [None] when the key is absent; [content] is [None] for Python's [None]. *)
Record Message : Type := {
  role : string;
  name : option string;
  content : option string;
  tool_calls : option (list ToolCallRef);
  tool_call_id : option string
}.

Definition plain_message (r : string) (n : option string) (c : string)
  : Message :=
  {| role := r; name := n; content := Some c;
     tool_calls := None; tool_call_id := None |}.

(** ** Conversation resolver: [get_conversation_history] *)

Module Resolver.

Definition EventID := string.

Inductive EventType : Type :=
| ROOM_MESSAGE
| OtherEventType (t : string).

Definition is_room_message (t : EventType) : bool :=
  match t with ROOM_MESSAGE => true | OtherEventType _ => false end.

(** The relation of an event to another one, as the condition
<<
    content.get("_relates_to")
      and content["_relates_to"]["in_reply_to"].get("event_id")
>>
    reads it from the content: no relation ([_relates_to] is [None], or
    false); a relation whose [in_reply_to] is [None], as an edit or a
    reaction carries it; or a reply relation, with the [event_id] it names
    ([None] when it names none). *)
Inductive Relation : Type :=
| NoRelation
| OtherRelation
| InReplyTo (event_id : option EventID).

(** What [.get] on the missing [in_reply_to] raises. *)
Definition no_in_reply_to : PyExc :=
  AttributeError "'NoneType' object has no attribute 'get'".

(** The condition: the identifier it lets through, [None] when it is
    false, or the exception it raises. *)
Definition reply_target (r : Relation) : result (option EventID) :=
  match r with
  | NoRelation => Ok None
  | OtherRelation => Raise no_in_reply_to
  | InReplyTo (Some event_id) =>
      if PyStr.nonempty event_id then Ok (Some event_id) else Ok None
  | InReplyTo None => Ok None
  end.

(** What the walk reads from a fetched event: [event["type"]],
    [event["sender"]], the body and the formatted body of its content
    (the content of a message has both fields), and its relation. *)
Record Event : Type := {
  ev_type : EventType;
  ev_sender : string;
  ev_body : string;
  ev_formatted_body : option string;
  ev_relates_to : Relation
}.

(** [self.client.get_event(room_id, event_id)] within one room: the event,
    or the exception the transport raises. *)
Definition Transport := EventID -> PyExc + Event.

Section Walk.
Variable bot_name : string.                 (* [self.config["bot-name"]] *)
Variable assistant_replies : ReplyCache.t.  (* [self.assistant_replies] *)
Variable get_event : Transport.

(** The dictionary inserted at the front of [history] for a message event. *)
Definition message_of (event_id : EventID) (event : Event) : Message :=
  let sender_name := ev_sender event in
  let filtered_name := PyStr.handle_of sender_name in
  let is_bot := String.eqb sender_name bot_name in
  let role := if is_bot then "assistant" else "user" in
  let content :=
    if is_bot then
      match PyDict.get assistant_replies event_id with
      | Some text => text
      | None => ev_body event
      end
    else
      Mention.sub bot_name
        (if PyStr.truthy (ev_formatted_body event)
         then match ev_formatted_body event with
              | Some f => f
              | None => ev_body event
              end
         else ev_body event) in
  plain_message role (Some filtered_name) content.

(** The [while event_id:] loop; [fuel] bounds the number of fetches. *)
Fixpoint walk (fuel : nat) (event_id : EventID) (history : list Message)
  : result (list Message) :=
  if negb (PyStr.nonempty event_id) then Ok history
  else
    match fuel with
    | O => OutOfFuel
    | S fuel' =>
        match get_event event_id with
        | inl exc => Raise exc
        | inr event =>
            let history' :=
              if is_room_message (ev_type event)
              then message_of event_id event :: history
              else history in
            match reply_target (ev_relates_to event) with
            | Ok (Some next) => walk fuel' next history'
            | Ok None => Ok history'
            | Raise exc => Raise exc
            | OutOfFuel => OutOfFuel
            end
        end
    end.

Definition get_conversation_history (fuel : nat) (event_id : EventID)
  : result (list Message) :=
  walk fuel event_id [].

(** A reply chain as the walk meets it, newest event first: each event but
    the last carries a reply relation that names the next one, and the
    chain ends either at an event without a relation (or whose reply
    relation names no event), with [None], or at an identifier whose fetch
    raises, with [Some exc]. *)
Inductive chain : EventID -> list (EventID * Event) -> option PyExc -> Prop :=
| chain_root event_id event :
    PyStr.nonempty event_id = true ->
    get_event event_id = inr event ->
    reply_target (ev_relates_to event) = Ok None ->
    chain event_id [(event_id, event)] None
| chain_broken event_id exc :
    PyStr.nonempty event_id = true ->
    get_event event_id = inl exc ->
    chain event_id [] (Some exc)
| chain_reply event_id event next rest stop :
    PyStr.nonempty event_id = true ->
    get_event event_id = inr event ->
    reply_target (ev_relates_to event) = Ok (Some next) ->
    chain next rest stop ->
    chain event_id ((event_id, event) :: rest) stop.

(** The messages of the events of a chain, oldest first. *)
Definition messages_of (evs : list (EventID * Event)) : list Message :=
  rev (map (fun p => message_of (fst p) (snd p))
           (filter (fun p => is_room_message (ev_type (snd p))) evs)).

Definition all_messages (evs : list (EventID * Event)) : Prop :=
  Forall (fun p => ev_type (snd p) = ROOM_MESSAGE) evs.

End Walk.

(** A two-event thread whose older event can no longer be fetched. *)
Definition reply_event : Event :=
  {| ev_type := ROOM_MESSAGE; ev_sender := "@alice:example.org";
     ev_body := "and tomorrow?"; ev_formatted_body := None;
     ev_relates_to := InReplyTo (Some "$1") |}.

Definition root_event : Event :=
  {| ev_type := ROOM_MESSAGE; ev_sender := "@alice:example.org";
     ev_body := "weather today?"; ev_formatted_body := None;
     ev_relates_to := NoRelation |}.

Definition not_found : PyExc := ExternalError "M_NOT_FOUND".

Definition broken_thread : Transport :=
  fun event_id =>
    if String.eqb event_id "$2" then inr reply_event else inl not_found.

Definition whole_thread : Transport :=
  fun event_id =>
    if String.eqb event_id "$2" then inr reply_event
    else if String.eqb event_id "$1" then inr root_event
    else inl not_found.

End Resolver.

(** ** JSON: [json.loads], [json.dumps] and [str] of the decoded value *)

Module Json.

Local Open Scope string_scope.
Local Open Scope nat_scope.
Local Unset Elimination Schemes.

(** Decoded JSON.  An integer is an [int]; a number with a fraction or an
    exponent, and each of the constants [NaN], [Infinity] and [-Infinity],
    is a [float], kept as its lexeme; an object is a [dict], in key
    order. *)
Inductive value : Type :=
| Null
| Bool (b : bool)
| Int (z : Z)
| Float (lexeme : string)
| Str (s : string)
| Array (items : list value)
| Object (members : PyDict.dict value).

(** Outcome of scanning: what was read and the rest of the text; or the
    message of the [JSONDecodeError] and the text from the place it names
    on; or a used-up budget. *)
Inductive scanned (A : Type) : Type :=
| Found (a : A) (rest : string)
| Bad (msg : string) (place : string)
| Exhausted.

Arguments Found {A} a rest.
Arguments Bad {A} msg place.
Arguments Exhausted {A}.

Definition is_ws (c : ascii) : bool :=
  Ascii.eqb c " " || Ascii.eqb c (ascii_of_nat 9)
  || Ascii.eqb c (ascii_of_nat 10) || Ascii.eqb c (ascii_of_nat 13).

Fixpoint skip_ws (s : string) : string :=
  match s with
  | String c s' => if is_ws c then skip_ws s' else s
  | EmptyString => EmptyString
  end.

Definition is_digit (c : ascii) : bool := PyStr.in_range 48 57 c.

Definition hex_val (c : ascii) : option N :=
  let n := Utf8.byte c in
  if PyStr.in_range 48 57 c then Some (n - 48)%N
  else if PyStr.in_range 97 102 c then Some (n - 87)%N
  else if PyStr.in_range 65 70 c then Some (n - 55)%N
  else None.

Definition hex4 (h1 h2 h3 h4 : ascii) : option N :=
  match hex_val h1, hex_val h2, hex_val h3, hex_val h4 with
  | Some a, Some b, Some c, Some d => Some (((a * 16 + b) * 16 + c) * 16 + d)%N
  | _, _, _, _ => None
  end.

(** U+D800 to U+DBFF and U+DC00 to U+DFFF, and the character a pair of
    them stands for. *)
Definition is_high (cp : N) : bool := ((55296 <=? cp) && (cp <=? 56319))%N.
Definition is_low (cp : N) : bool := ((56320 <=? cp) && (cp <=? 57343))%N.
Definition join_surrogates (high low : N) : N :=
  (65536 + (high - 55296) * 1024 + (low - 56320))%N.

(** The character of a one-letter escape. *)
Definition simple_escape (e : ascii) : option ascii :=
  if Ascii.eqb e PyStr.dquote_char then Some PyStr.dquote_char
  else if Ascii.eqb e "\" then Some "\"%char
  else if Ascii.eqb e "/" then Some "/"%char
  else if Ascii.eqb e "b" then Some (ascii_of_nat 8)
  else if Ascii.eqb e "f" then Some (ascii_of_nat 12)
  else if Ascii.eqb e "n" then Some (ascii_of_nat 10)
  else if Ascii.eqb e "r" then Some (ascii_of_nat 13)
  else if Ascii.eqb e "t" then Some (ascii_of_nat 9)
  else None.

Definition prepend (piece : string) (r : scanned string) : scanned string :=
  match r with
  | Found t rest => Found (piece ++ t) rest
  | other => other
  end.

(** The characters of a string literal after its opening quote, up to the
    closing quote ([opening] is the text from the opening quote on).
    Control characters are rejected (strict decoding); a [\u] escape of a
    high surrogate that is followed by six more characters starting with
    [\u] takes that second escape as its low half when it is one. *)
Fixpoint scan_string (opening s : string) : scanned string :=
  match s with
  | EmptyString => Bad "Unterminated string starting at" opening
  | String c s' =>
      if Ascii.eqb c PyStr.dquote_char then Found EmptyString s'
      else if Ascii.eqb c "\" then
        match s' with
        | EmptyString => Bad "Unterminated string starting at" opening
        | String e s'' =>
            if Ascii.eqb e "u" then
              match s'' with
              | String h1 (String h2 (String h3 (String h4 s4))) =>
                  match hex4 h1 h2 h3 h4 with
                  | None => Bad "Invalid \uXXXX escape" s'
                  | Some cp =>
                      let single :=
                        prepend (Utf8.encode cp) (scan_string opening s4) in
                      if is_high cp then
                        match s4 with
                        | String b1 s5 =>
                            match s5 with
                            | String b2 (String g1 (String g2
                                (String g3 (String g4 s10)))) =>
                                if Ascii.eqb b1 "\" && Ascii.eqb b2 "u" then
                                  match hex4 g1 g2 g3 g4 with
                                  | None => Bad "Invalid \uXXXX escape" s5
                                  | Some low =>
                                      if is_low low then
                                        prepend
                                          (Utf8.encode (join_surrogates cp low))
                                          (scan_string opening s10)
                                      else single
                                  end
                                else single
                            | _ => single
                            end
                        | EmptyString => single
                        end
                      else single
                  end
              | _ => Bad "Invalid \uXXXX escape" s'
              end
            else
              match simple_escape e with
              | Some ch => prepend (String ch "") (scan_string opening s'')
              | None => Bad "Invalid \escape" s
              end
        end
      else if (Utf8.byte c <? 32)%N then Bad "Invalid control character at" s
      else prepend (String c "") (scan_string opening s')
  end.

(** The value of a run of decimal digits after [acc]. *)
Fixpoint digits_value (acc : Z) (s : string) : Z :=
  match s with
  | String c s' =>
      digits_value (acc * 10 + (Z.of_N (Utf8.byte c) - 48))%Z s'
  | EmptyString => acc
  end.

(** A number at the start of [s]: an optional minus sign, then [0] or a
    digit run without leading zero, then an optional fraction (a dot and
    digits) and an optional exponent ([e] or [E], a sign, digits).  With a
    fraction or an exponent it is a [float], otherwise an [int]. *)
Definition scan_number (s : string) : option (value * string) :=
  let (sign, s1) :=
    match s with
    | String "-" r => ("-", r)
    | _ => ("", s)
    end in
  let int_part :=
    match s1 with
    | String "0" r => Some ("0", r)
    | String c _ =>
        if is_digit c then Some (PyStr.span is_digit s1) else None
    | EmptyString => None
    end in
  match int_part with
  | None => None
  | Some (i, s2) =>
      let (frac, s3) :=
        match s2 with
        | String "." r =>
            match PyStr.span is_digit r with
            | (String d ds, r') => ("." ++ String d ds, r')
            | _ => ("", s2)
            end
        | _ => ("", s2)
        end in
      let (expo, s4) :=
        match s3 with
        | String e r =>
            if Ascii.eqb e "e" || Ascii.eqb e "E" then
              let (sg, r1) :=
                match r with
                | String "+" r' => ("+", r')
                | String "-" r' => ("-", r')
                | _ => ("", r)
                end in
              match PyStr.span is_digit r1 with
              | (String d ds, r') => (String e sg ++ String d ds, r')
              | _ => ("", s3)
              end
            else ("", s3)
        | EmptyString => ("", s3)
        end in
      match frac, expo with
      | EmptyString, EmptyString =>
          let n := digits_value 0 i in
          Some (Int (if PyStr.nonempty sign then (- n)%Z else n), s4)
      | _, _ => Some (Float (sign ++ i ++ frac ++ expo), s4)
      end
  end.

Definition literal (word : string) (v : value) (s : string)
  : scanned value :=
  match PyStr.drop_prefix word s with
  | Some r => Found v r
  | None => Bad "Expecting value" s
  end.

(** The scanner.  A container costs two units of the budget and a further
    item or member one, and each of them comes with at least one consumed
    character, so a budget above twice the length of the text is never
    used up. *)
Fixpoint scan_value (fuel : nat) (s : string) : scanned value :=
  match fuel with
  | O => Exhausted
  | S fuel' =>
      match s with
      | EmptyString => Bad "Expecting value" s
      | String c s' =>
          if Ascii.eqb c PyStr.dquote_char then
            match scan_string s s' with
            | Found t r => Found (Str t) r
            | Bad msg place => Bad msg place
            | Exhausted => Exhausted
            end
          else if Ascii.eqb c "{" then
            match skip_ws s' with
            | String "}" r => Found (Object []) r
            | s1 =>
                match scan_members fuel' s1 [] with
                | Found ms r => Found (Object ms) r
                | Bad msg place => Bad msg place
                | Exhausted => Exhausted
                end
            end
          else if Ascii.eqb c "[" then
            match skip_ws s' with
            | String "]" r => Found (Array []) r
            | s1 =>
                match scan_items fuel' s1 with
                | Found vs r => Found (Array vs) r
                | Bad msg place => Bad msg place
                | Exhausted => Exhausted
                end
            end
          else if Ascii.eqb c "n" then literal "null" Null s
          else if Ascii.eqb c "t" then literal "true" (Bool true) s
          else if Ascii.eqb c "f" then literal "false" (Bool false) s
          else if Ascii.eqb c "N" then literal "NaN" (Float "NaN") s
          else if Ascii.eqb c "I" then literal "Infinity" (Float "Infinity") s
          else
            match PyStr.drop_prefix "-Infinity" s with
            | Some r => Found (Float "-Infinity") r
            | None =>
                match scan_number s with
                | Some (n, r) => Found n r
                | None => Bad "Expecting value" s
                end
            end
      end
  end

(** After [[] or [,]: a value, then [,] and more values, or []]. *)
with scan_items (fuel : nat) (s : string) : scanned (list value) :=
  match fuel with
  | O => Exhausted
  | S fuel' =>
      match scan_value fuel' s with
      | Found v r =>
          match skip_ws r with
          | String "," r' =>
              match scan_items fuel' (skip_ws r') with
              | Found vs r'' => Found (v :: vs) r''
              | other => other
              end
          | String "]" r' => Found [v] r'
          | other => Bad "Expecting ',' delimiter" other
          end
      | Bad msg place => Bad msg place
      | Exhausted => Exhausted
      end
  end

(** After [{] or [,]: a quoted key, [:], a value, then [,] and more members,
    or [}].  A repeated key keeps its place and takes the later value. *)
with scan_members (fuel : nat) (s : string) (acc : PyDict.dict value)
  : scanned (PyDict.dict value) :=
  match fuel with
  | O => Exhausted
  | S fuel' =>
      match s with
      | String q s' =>
          if Ascii.eqb q PyStr.dquote_char then
            match scan_string s s' with
            | Found key r =>
                match skip_ws r with
                | String ":" r1 =>
                    match scan_value fuel' (skip_ws r1) with
                    | Found v r2 =>
                        let acc' := PyDict.set acc key v in
                        match skip_ws r2 with
                        | String "," r3 => scan_members fuel' (skip_ws r3) acc'
                        | String "}" r3 => Found acc' r3
                        | other => Bad "Expecting ',' delimiter" other
                        end
                    | Bad msg place => Bad msg place
                    | Exhausted => Exhausted
                    end
                | other => Bad "Expecting ':' delimiter" other
                end
            | Bad msg place => Bad msg place
            | Exhausted => Exhausted
            end
          else Bad "Expecting property name enclosed in double quotes" s
      | EmptyString =>
          Bad "Expecting property name enclosed in double quotes" s
      end
  end.

(** U+FEFF at the start of the text. *)
Definition has_bom (s : string) : bool :=
  match PyStr.drop_prefix (Utf8.encode 65279) s with
  | Some _ => true
  | None => false
  end.

(** [json.loads(s)].  The place of an error is the number of characters
    before it. *)
Definition loads (s : string) : result value :=
  let index (place : string) := Utf8.count s - Utf8.count place in
  if has_bom s then
    Raise (JSONDecodeError "Unexpected UTF-8 BOM (decode using utf-8-sig)" s 0)
  else
    match scan_value (S (2 * String.length s)) (skip_ws s) with
    | Found v r =>
        match skip_ws r with
        | EmptyString => Ok v
        | extra => Raise (JSONDecodeError "Extra data" s (index extra))
        end
    | Bad msg place => Raise (JSONDecodeError msg s (index place))
    | Exhausted => OutOfFuel
    end.

(** [repr] of an [int]. *)
Definition str_of_Z (z : Z) : string :=
  DecimalString.NilZero.string_of_int (Z.to_int z).

(** [repr] of a [float] read from [lexeme]. *)
Definition float_text (rt : Python.Runtime) (lexeme : string) : string :=
  if String.eqb lexeme "NaN" then "nan"
  else if String.eqb lexeme "Infinity" then "inf"
  else if String.eqb lexeme "-Infinity" then "-inf"
  else Python.float_repr rt lexeme.

(** One character inside a string of [json.dumps], which leaves ASCII
    only ([ensure_ascii]). *)
Definition escape_char (ch : Utf8.Char) : string :=
  let cp := Utf8.code ch in
  if (cp =? 34)%N then "\" ++ PyStr.dquote
  else if (cp =? 92)%N then "\\"
  else if (cp =? 10)%N then "\n"
  else if (cp =? 13)%N then "\r"
  else if (cp =? 9)%N then "\t"
  else if (cp =? 8)%N then "\b"
  else if (cp =? 12)%N then "\f"
  else if ((32 <=? cp) && (cp <=? 126))%N then Utf8.bytes ch
  else if (cp <? 65536)%N then "\u" ++ PyStr.hex 4 cp
  else
    let v := (cp - 65536)%N in
    "\u" ++ PyStr.hex 4 (55296 + v / 1024)%N
    ++ "\u" ++ PyStr.hex 4 (56320 + v mod 1024)%N.

Definition quoted (s : string) : string :=
  PyStr.dquote
  ++ fold_right (fun ch acc => escape_char ch ++ acc) PyStr.dquote
       (Utf8.chars s).

Definition sep_by (sep : string) (parts : list string) : string :=
  match parts with
  | [] => ""
  | p :: ps => fold_left (fun acc x => acc ++ sep ++ x) ps p
  end.

(** [json.dumps(v)] with the default separators. *)
Fixpoint dumps (rt : Python.Runtime) (v : value) : string :=
  match v with
  | Null => "null"
  | Bool true => "true"
  | Bool false => "false"
  | Int z => str_of_Z z
  | Float lexeme =>
      let r := float_text rt lexeme in
      if String.eqb r "nan" then "NaN"
      else if String.eqb r "inf" then "Infinity"
      else if String.eqb r "-inf" then "-Infinity"
      else r
  | Str s => quoted s
  | Array items => "[" ++ sep_by ", " (map (dumps rt) items) ++ "]"
  | Object members =>
      "{" ++ sep_by ", "
               (map (fun kv => quoted (fst kv) ++ ": " ++ dumps rt (snd kv))
                    members)
      ++ "}"
  end.

(** [repr(v)] of the decoded value. *)
Fixpoint repr (rt : Python.Runtime) (v : value) : string :=
  match v with
  | Null => "None"
  | Bool true => "True"
  | Bool false => "False"
  | Int z => str_of_Z z
  | Float lexeme => float_text rt lexeme
  | Str s => PyStr.repr rt s
  | Array items => "[" ++ sep_by ", " (map (repr rt) items) ++ "]"
  | Object members =>
      "{" ++ sep_by ", "
               (map (fun kv => PyStr.repr rt (fst kv) ++ ": " ++ repr rt (snd kv))
                    members)
      ++ "}"
  end.

(** [str(v)], as an f-string prints the value: a [str] as it is, anything
    else as its [repr]. *)
Definition str (rt : Python.Runtime) (v : value) : string :=
  match v with
  | Str s => s
  | _ => repr rt v
  end.

End Json.

(** ** The model-override token: [re.compile("![\w-]+")] *)

Module Override.

(** [pattern.search(content)]: the leftmost [!] that is followed by at least
    one character of [[\w-]], with the longest run of such characters.
    The result is the text before the match, the matched word without its
    [!], and the text after the match. *)
Fixpoint find (rt : Python.Runtime) (content : string)
  : option (string * string * string) :=
  match content with
  | EmptyString => None
  | String c rest =>
      let later :=
        match find rt rest with
        | Some (before, word, after) => Some (String c before, word, after)
        | None => None
        end in
      if Ascii.eqb c "!" then
        match Utf8.span (PyStr.is_word_or_hyphen rt) rest with
        | (String w ws, after) => Some (EmptyString, String w ws, after)
        | _ => later
        end
      else later
  end.

(** [re.sub(pattern, "", content, count=1).strip()] for a found match. *)
Definition removed (before after : string) : string :=
  PyStr.strip (before ++ after).

Definition set_content (m : Message) (c : string) : Message :=
  {| role := role m; name := name m; content := Some c;
     tool_calls := tool_calls m; tool_call_id := tool_call_id m |}.

(** [pattern.search(None)] *)
Definition not_a_string : PyExc :=
  TypeError "expected string or bytes-like object, got 'NoneType'".

(** The [for message in messages:] loop of the override check: the word
    that was found, if any, and the messages after the in-place update. *)
Fixpoint scan (rt : Python.Runtime) (messages : list Message)
  : result (option string * list Message) :=
  match messages with
  | [] => Ok (None, [])
  | message :: rest =>
      match content message with
      | None => Raise not_a_string
      | Some c =>
          match find rt c with
          | Some (before, word, after) =>
              Ok (Some word, set_content message (removed before after) :: rest)
          | None =>
              match scan rt rest with
              | Ok (found, rest') => Ok (found, message :: rest')
              | Raise e => Raise e
              | OutOfFuel => OutOfFuel
              end
          end
      end
  end.

End Override.

(** ** The orchestrator: [AIService] and [ChatGPTBot.chat_gpt_request] *)

Module Bot.

Local Open Scope string_scope.
Local Open Scope nat_scope.

Definition EventID := string.

(** *** Stream elements *)

(** One element of [delta.tool_calls]: [tool_call.id],
    [tool_call.function.name] and [tool_call.function.arguments]. *)
Record ToolCallDelta : Type := {
  delta_id : option string;
  delta_name : option string;
  delta_arguments : option string
}.

(** The two shapes of stream elements: the OpenAI one is read through
    [chunk.choices[0]], the Mistral one through [chunk.delta] and
    [chunk.finish_reason]. *)
Inductive RawChunk : Type :=
| OpenAIChunk (delta_content : option string)
              (finish_reason : option string)
              (delta_tool_calls : option (list ToolCallDelta))
| MistralChunk (delta : option string) (finish_reason : option string).

(** The dictionary [process_chunk] returns. *)
Record Processed : Type := {
  p_content : option string;
  p_finish_reason : option string;
  p_tool_calls : option (list ToolCallDelta)
}.

(** [AIService.process_chunk]; reading a chunk of the other shape fails on
    the first missing attribute. *)
Definition process_chunk (chunk : RawChunk) (is_mistral : bool)
  : result Processed :=
  match is_mistral, chunk with
  | true, MistralChunk d f =>
      Ok {| p_content := d; p_finish_reason := f; p_tool_calls := None |}
  | false, OpenAIChunk c f t =>
      Ok {| p_content := c; p_finish_reason := f; p_tool_calls := t |}
  | true, OpenAIChunk _ _ _ =>
      Raise (AttributeError "object has no attribute 'delta'")
  | false, MistralChunk _ _ =>
      Raise (AttributeError "object has no attribute 'choices'")
  end.

(** *** The world around the bot *)

(** A call of the provider's streaming endpoint. *)
Record Request : Type := {
  req_messages : list Message;
  req_model : string;
  req_tools : bool;        (* the two tool definitions, or [None] *)
  req_mistral : bool       (* which client is called *)
}.

Record World : Type := {
  (** the interpreter's tables *)
  runtime : Python.Runtime;
  (** [self.config["model"]] *)
  config_model : string;
  (** [self.config["allowed_models"]], [self.config["mistral-allowed-models"]] *)
  allowed_models : list string;
  mistral_allowed_models : list string;
  (** the n-th reading of [time.time()], in seconds, as an exact rational *)
  time_at : nat -> Q;
  (** [current_date] and [current_time] at the n-th call of [datetime.now] *)
  today_at : nat -> string * string;
  (** the provider: the stream it opens, or the exception it raises *)
  backend : Request -> PyExc + list RawChunk;
  (** the bodies of [get_weather(user, location)] and
      [ElectricityService.fetch_prices(user, date)] *)
  get_weather : Json.value -> Json.value -> PyExc + string;
  fetch_prices : Json.value -> Json.value -> PyExc + string
}.

(** What the bot does to the outside, in order. *)
Inductive Action : Type :=
| Edit (event_id : EventID) (text : string)
| Send (request : Request)
| Invoke (tool : string) (kwargs : PyDict.dict Json.value).

(** The attributes of the plugin instance, the positions in the two clocks,
    and the actions so far (oldest first). *)
Record State : Type := {
  assistant_replies : ReplyCache.t;
  last_edit_time : option Q;       (* [None]: attribute not set yet *)
  clock : nat;
  calendar : nat;
  log : list Action
}.

Definition initial : State :=
  {| assistant_replies := ReplyCache.empty; last_edit_time := None;
     clock := 0; calendar := 0; log := [] |}.

(** The texts of the edits in a log. *)
Definition edits (l : list Action) : list string :=
  flat_map (fun a => match a with Edit _ text => [text] | _ => [] end) l.

Definition requests (l : list Action) : list Request :=
  flat_map (fun a => match a with Send r => [r] | _ => [] end) l.

Definition invocations (l : list Action) : list (string * PyDict.dict Json.value) :=
  flat_map (fun a => match a with Invoke t k => [(t, k)] | _ => [] end) l.

(** *** Computations: state, exceptions, iteration budget *)

Definition M (A : Type) : Type := State -> result A * State.

Definition ret {A} (a : A) : M A := fun s => (Ok a, s).

Definition raise {A} (e : PyExc) : M A := fun s => (Raise e, s).

Definition out_of_fuel {A} : M A := fun s => (OutOfFuel, s).

Definition bind {A B} (m : M A) (f : A -> M B) : M B :=
  fun s =>
    match m s with
    | (Ok a, s') => f a s'
    | (Raise e, s') => (Raise e, s')
    | (OutOfFuel, s') => (OutOfFuel, s')
    end.

Definition lift {A} (r : result A) : M A := fun s => (r, s).

Declare Scope bot_scope.
Delimit Scope bot_scope with bot.
Notation "x <- m ;; k" := (bind m (fun x => k))
  (at level 61, m at next level, right associativity) : bot_scope.
Notation "m ;; k" := (bind m (fun _ => k))
  (at level 61, right associativity) : bot_scope.
Local Open Scope bot_scope.

Definition emit (a : Action) : M unit :=
  fun s =>
    (Ok tt,
     {| assistant_replies := assistant_replies s;
        last_edit_time := last_edit_time s;
        clock := clock s; calendar := calendar s;
        log := (log s ++ [a])%list |}).

Definition get_last_edit_time : M (option Q) :=
  fun s => (Ok (last_edit_time s), s).

Definition set_last_edit_time (t : Q) : M unit :=
  fun s =>
    (Ok tt,
     {| assistant_replies := assistant_replies s;
        last_edit_time := Some t;
        clock := clock s; calendar := calendar s; log := log s |}).

Definition remember (event_id : EventID) (text : string) : M unit :=
  fun s =>
    (Ok tt,
     {| assistant_replies := ReplyCache.store (assistant_replies s) event_id text;
        last_edit_time := last_edit_time s;
        clock := clock s; calendar := calendar s; log := log s |}).

(** [x < y] on readings of the clock. *)
Definition Qltb (x y : Q) : bool := negb (Qle_bool y x).

(** [delay = 1] *)
Definition delay : Q := 1%Q.

(** U+2026, the suffix of an unfinished reply. *)
Definition ellipsis : string := "…".

(** *** The tool-call accumulator (the [if tool_calls:] block) *)

(** The value stored per call identifier:
    [{"name": ..., "arguments": ...}]. *)
Record Collected : Type := {
  fn_name : string;
  fn_arguments : string
}.

(** The locals of [chat_gpt_request] that live across the stream loop;
    [the_tool_call_id] is the local [tool_call_id], [None] until its first
    assignment. *)
Record Locals : Type := {
  collected_messages : list string;
  collected_functions : PyDict.dict Collected;
  the_tool_call_id : option string
}.

Definition no_locals : Locals :=
  {| collected_messages := []; collected_functions := []; the_tool_call_id := None |}.

Definition unbound : PyExc :=
  UnboundLocalError
    "cannot access local variable 'tool_call_id' where it is not associated with a value".

(** The body of [for tool_call in tool_calls:]. *)
Definition ingest (loc : Locals) (tool_call : ToolCallDelta) : result Locals :=
  let id := match delta_id tool_call with
            | Some i => Some i
            | None => the_tool_call_id loc
            end in
  let named :=
    match delta_name tool_call with
    | Some n =>
        match id with
        | Some i =>
            Ok (PyDict.set (collected_functions loc) i
                  {| fn_name := n; fn_arguments := "" |})
        | None => Raise unbound
        end
    | None => Ok (collected_functions loc)
    end in
  match named with
  | Ok fns =>
      match delta_arguments tool_call with
      | Some a =>
          match id with
          | Some i =>
              match PyDict.get fns i with
              | Some f =>
                  Ok {| collected_messages := collected_messages loc;
                        collected_functions :=
                          PyDict.set fns i
                            {| fn_name := fn_name f;
                               fn_arguments := fn_arguments f ++ a |};
                        the_tool_call_id := id |}
              | None => Raise (KeyError i)
              end
          | None => Raise unbound
          end
      | None =>
          Ok {| collected_messages := collected_messages loc;
                collected_functions := fns;
                the_tool_call_id := id |}
      end
  | Raise e => Raise e
  | OutOfFuel => OutOfFuel
  end.

Fixpoint ingest_all (loc : Locals) (tool_calls : list ToolCallDelta)
  : result Locals :=
  match tool_calls with
  | [] => Ok loc
  | tool_call :: rest =>
      match ingest loc tool_call with
      | Ok loc' => ingest_all loc' rest
      | Raise e => Raise e
      | OutOfFuel => OutOfFuel
      end
  end.

(** [if chunk_message: collected_messages.append(chunk_message)] *)
Definition collect (loc : Locals) (chunk_message : option string) : Locals :=
  if PyStr.truthy chunk_message then
    {| collected_messages :=
         (collected_messages loc
          ++ [match chunk_message with Some c => c | None => "" end])%list;
       collected_functions := collected_functions loc;
       the_tool_call_id := the_tool_call_id loc |}
  else loc.

Section WithWorld.
Variable w : World.

(** [time.time()] *)
Definition now : M Q :=
  fun s =>
    (Ok (time_at w (clock s)),
     {| assistant_replies := assistant_replies s;
        last_edit_time := last_edit_time s;
        clock := S (clock s); calendar := calendar s; log := log s |}).

(** The two strings formatted from [datetime.datetime.now(...)]. *)
Definition today : M (string * string) :=
  fun s =>
    (Ok (today_at w (calendar s)),
     {| assistant_replies := assistant_replies s;
        last_edit_time := last_edit_time s;
        clock := clock s; calendar := S (calendar s); log := log s |}).

(** [_edit]: send the edit, then record the text in the reply cache. *)
Definition _edit (event_id : EventID) (text : string) : M unit :=
  emit (Edit event_id text) ;;
  remember event_id text.

(** *** The stream loop *)

(** What an iteration that edits did: the reading compared with the
    previous stamp (when there was one), the new stamp, the text. *)
Record StreamEdit : Type := {
  checked_at : option Q;
  stamped_at : Q;
  shown : string
}.

(** The throttle: [true] when the iteration goes on to edit. *)
Definition due (finish_reason : option string) : M (bool * option Q) :=
  last <- get_last_edit_time ;;
  match last with
  | Some last_edit_time =>
      t <- now ;;
      let elapsed_time := (t - last_edit_time)%Q in
      if Qltb elapsed_time delay && negb (PyStr.truthy finish_reason)
      then ret (false, Some t)
      else ret (true, Some t)
  | None => ret (true, None)
  end.

(** The text of a stream edit. *)
Definition partial_text (loc : Locals) (finish_reason : option string)
  : string :=
  let full_reply_content := PyStr.join (collected_messages loc) in
  if negb (PyStr.truthy finish_reason)
     || match finish_reason with
        | Some f => String.eqb f "tool_calls"
        | None => false
        end
  then full_reply_content ++ ellipsis
  else full_reply_content.

(** The body of [for chunk in chat_completion:].  Besides the locals it
    reports the edit it made, if any.  The [try] around [''.join(...)] has
    no counterpart: every collected delta is a [str], so the join cannot
    fail. *)
Definition stream_step (event_id : EventID) (is_mistral : bool)
    (loc : Locals) (chunk : RawChunk) : M (Locals * option StreamEdit) :=
  processed <- lift (process_chunk chunk is_mistral) ;;
  loc1 <- lift (match p_tool_calls processed with
                | Some tool_calls => ingest_all loc tool_calls
                | None => Ok loc
                end) ;;
  let loc2 := collect loc1 (p_content processed) in
  d <- due (p_finish_reason processed) ;;
  if fst d then
    t <- now ;;
    set_last_edit_time t ;;
    let text := partial_text loc2 (p_finish_reason processed) in
    _edit event_id text ;;
    ret (loc2, Some {| checked_at := snd d; stamped_at := t; shown := text |})
  else ret (loc2, None).

Fixpoint stream_loop (event_id : EventID) (is_mistral : bool)
    (loc : Locals) (chunks : list RawChunk)
  : M (Locals * list (option StreamEdit)) :=
  match chunks with
  | [] => ret (loc, [])
  | chunk :: rest =>
      r <- stream_step event_id is_mistral loc chunk ;;
      r' <- stream_loop event_id is_mistral (fst r) rest ;;
      ret (fst r', snd r :: snd r')
  end.

(** *** Dispatch *)

Definition try_catch {A} (m : M A) (handler : PyExc -> M A) : M A :=
  fun s =>
    match m s with
    | (Raise e, s') => handler e s'
    | r => r
    end.

(** [AIService.is_mistral_model] *)
Definition is_mistral_model (model : string) : bool :=
  existsb (String.eqb model) (mistral_allowed_models w).

(** The in-place conversion of one message for Mistral. *)
Definition to_mistral (msg : Message) : Message :=
  {| role := if String.eqb (role msg) "developer" then "system" else role msg;
     name := None;
     content := content msg;
     tool_calls := tool_calls msg;
     tool_call_id := tool_call_id msg |}.

Definition call_backend (request : Request) : M (list RawChunk) :=
  emit (Send request) ;;
  match backend w request with
  | inl e => raise e
  | inr chunks => ret chunks
  end.

(** [AIService.create_chat_completion(messages, model, tools, stream=True)]:
    the opened stream, and [messages] as the call leaves them. *)
Definition create_chat_completion (messages : list Message)
    (model : string) (tools : bool) : M (list RawChunk * list Message) :=
  if is_mistral_model model then
    if negb (existsb (String.eqb model) (mistral_allowed_models w)) then
      raise (ValueError ("Invalid Mistral model: " ++ model))
    else
      let mistral_messages := map to_mistral messages in
      chunks <- call_backend
                  {| req_messages := mistral_messages; req_model := model;
                     req_tools := false; req_mistral := true |} ;;
      ret (chunks, mistral_messages)
  else
    if negb (existsb (String.eqb model) (allowed_models w)) then
      raise (ValueError ("Invalid OpenAI model: " ++ model))
    else
      chunks <- call_backend
                  {| req_messages := messages; req_model := model;
                     req_tools := tools; req_mistral := false |} ;;
      ret (chunks, messages).

(** *** Tool phase *)

(** The text of the combined status edit; [json.loads] is not guarded
    here. *)
Fixpoint status_text (text : string) (items : PyDict.dict Collected)
  : result string :=
  match items with
  | [] => Ok text
  | (_, collected_function) :: rest =>
      match Json.loads (fn_arguments collected_function) with
      | Ok function_args =>
          status_text
            (text ++ fn_name collected_function
             ++ "(" ++ Json.str (runtime w) function_args ++ ") ")
            rest
      | Raise e => Raise e
      | OutOfFuel => OutOfFuel
      end
  end.

(** [available_functions]: the dictionary of the two tools, or the text
    the [except] branch puts in its place. *)
Inductive Available : Type :=
| Table (names : list string)
| Text (s : string).

Definition available_functions : Available :=
  Table ["weather"; "fetch_electricity_prices"].

(** The first [try] of the loop: decode, add the user; any failure leaves
    the empty list. *)
Definition function_args_of (arguments sender_name : string) : Json.value :=
  match Json.loads arguments with
  | Ok (Json.Object members) =>
      Json.Object (PyDict.set members "user" (Json.Str sender_name))
  | _ => Json.Array []
  end.

(** A tool as the interpreter names it in its messages: the module that
    defines it, its qualified name, whether it is a bound method (the
    parameter [self] is then taken), and its parameter after [user]. *)
Record Signature : Type := {
  module_name : string;
  qualname : string;
  bound : bool;
  param : string
}.

Definition signature (tool : string) : Signature :=
  if String.eqb tool "weather" then
    {| module_name := "chatgpt.services.weather_service";
       qualname := "get_weather"; bound := false; param := "location" |}
  else
    {| module_name := "chatgpt.services.electricity_service";
       qualname := "ElectricityService.fetch_prices"; bound := true;
       param := "date" |}.

Definition body (tool : string)
  : Json.value -> Json.value -> PyExc + string :=
  if String.eqb tool "weather" then get_weather w else fetch_prices w.

(** [type(v).__name__] *)
Definition type_name (v : Json.value) : string :=
  match v with
  | Json.Null => "NoneType"
  | Json.Bool _ => "bool"
  | Json.Int _ => "int"
  | Json.Float _ => "float"
  | Json.Str _ => "str"
  | Json.Array _ => "list"
  | Json.Object _ => "dict"
  end.

(** The keywords are bound in the order of the dictionary; the first one
    that names no free parameter decides the error. *)
Fixpoint bad_keyword (sig : Signature) (keys : list string) : option PyExc :=
  match keys with
  | [] => None
  | k :: rest =>
      if String.eqb k "user" || String.eqb k (param sig) then
        bad_keyword sig rest
      else if bound sig && String.eqb k "self" then
        Some (TypeError (qualname sig
                         ++ "() got multiple values for argument 'self'"))
      else
        Some (TypeError (qualname sig
                         ++ "() got an unexpected keyword argument '"
                         ++ k ++ "'"))
  end.

(** The call of [function_to_call] with [function_args] unpacked as
    keyword arguments. *)
Definition call (tool : string) (function_args : Json.value) : M string :=
  let sig := signature tool in
  match function_args with
  | Json.Object kwargs =>
      match bad_keyword sig (PyDict.keys kwargs) with
      | Some e => raise e
      | None =>
          match PyDict.get kwargs "user", PyDict.get kwargs (param sig) with
          | Some user, Some arg =>
              emit (Invoke tool kwargs) ;;
              match body tool user arg with
              | inl e => raise e
              | inr text => ret text
              end
          | Some _, None =>
              raise (TypeError
                       (qualname sig
                        ++ "() missing 1 required positional argument: '"
                        ++ param sig ++ "'"))
          | None, Some _ =>
              raise (TypeError
                       (qualname sig
                        ++ "() missing 1 required positional argument: 'user'"))
          | None, None =>
              raise (TypeError
                       (qualname sig
                        ++ "() missing 2 required positional arguments: 'user' and '"
                        ++ param sig ++ "'"))
          end
      end
  | _ =>
      raise (TypeError
               (module_name sig ++ "." ++ qualname sig
                ++ "() argument after ** must be a mapping, not "
                ++ type_name function_args))
  end.

(** The second [try] of the loop, with its [except Exception] branch:
    the response, and [available_functions] afterwards. *)
Definition run_tool (available : Available) (tool : string)
    (function_args : Json.value) : M (string * Available) :=
  try_catch
    (response <-
       match available with
       | Table names =>
           if existsb (String.eqb tool) names then call tool function_args
           else raise (KeyError tool)
       | Text _ =>
           raise (TypeError "string indices must be integers, not 'str'")
       end ;;
     ret (response, available))
    (fun e =>
       match available with
       | Table names =>
           ret ("Function error: " ++ exc_str (runtime w) e,
                Text (Json.repr (runtime w) (Json.Array (map Json.Str names))))
       | Text _ =>
           raise (AttributeError "'str' object has no attribute 'keys'")
       end).

Definition assistant_message (tool_id : string) (tool arguments : string)
  : Message :=
  {| role := "assistant"; name := None; content := None;
     tool_calls := Some [{| tc_id := tool_id; tc_type := "function";
                            tc_name := tool; tc_arguments := arguments |}];
     tool_call_id := None |}.

Definition tool_message (tool_id : string) (tool response : string)
  : Message :=
  {| role := "tool"; name := Some tool; content := Some response;
     tool_calls := None; tool_call_id := Some tool_id |}.

(** The second [for tool_id, collected_function in ...items():] loop. *)
Fixpoint tool_loop (sender_name : string) (items : PyDict.dict Collected)
    (available : Available) (messages : list Message) : M (list Message) :=
  match items with
  | [] => ret messages
  | (tool_id, collected_function) :: rest =>
      let function_args :=
        function_args_of (fn_arguments collected_function) sender_name in
      r <- run_tool available (fn_name collected_function) function_args ;;
      tool_loop sender_name rest (snd r)
        (messages
         ++ [assistant_message tool_id (fn_name collected_function)
               (Json.dumps (runtime w) function_args);
             tool_message tool_id (fn_name collected_function) (fst r)])%list
  end.

(** From [if collected_functions:] to the end of the tool loop. *)
Definition tool_phase (sender_name : string) (event_id : EventID)
    (fns : PyDict.dict Collected) (messages : list Message)
  : M (list Message) :=
  full_reply_content <- lift (status_text "Calling functions: " fns) ;;
  _edit event_id full_reply_content ;;
  tool_loop sender_name fns available_functions messages.

(** What follows the stream loop; [again query history] is the recursive
    call [self.chat_gpt_request(query, history, evt, event_id)]. *)
Definition conclude (again : string -> list Message -> M unit)
    (sender_name : string) (event_id : EventID)
    (loc : Locals) (messages : list Message) : M unit :=
  match collected_functions loc with
  | _ :: _ =>
      messages' <- tool_phase sender_name event_id
                     (collected_functions loc) messages ;;
      again "" (removelast messages')
  | [] => _edit event_id (PyStr.join (collected_messages loc))
  end.

(** One streamed response: the stream loop and what follows it. *)
Definition respond (again : string -> list Message -> M unit)
    (sender_name : string) (event_id : EventID) (is_mistral : bool)
    (chat_completion : list RawChunk) (messages : list Message) : M unit :=
  r <- stream_loop event_id is_mistral no_locals chat_completion ;;
  conclude again sender_name event_id (fst r) messages.

(** *** [chat_gpt_request] *)

Definition developer_message (d : string * string) : Message :=
  {| role := "developer"; name := None;
     content :=
       Some ("Your role is to be a chatbot called Matrix. Prefer metric units. Do not use latex, always use markdown Today is "
             ++ fst d ++ " and time is " ++ snd d ++ ".");
     tool_calls := None; tool_call_id := None |}.

Definition user_message (filtered_name query : string) : Message :=
  plain_message "user" (Some filtered_name) query.

(** The messages built at the start of the call. *)
Definition conversation (d : string * string)
    (conversation_history : list Message) (sender_name query : string)
  : list Message :=
  ([developer_message d] ++ conversation_history
   ++ [user_message (PyStr.handle_of sender_name) query])%list.

(** The [try] around [create_chat_completion], with both handlers. *)
Definition open_stream (event_id : EventID) (messages : list Message)
    (model : string) : M (option (list RawChunk * list Message)) :=
  try_catch
    (opened <- create_chat_completion messages model
                 (negb (is_mistral_model model)) ;;
     ret (Some opened))
    (fun e =>
       _edit event_id
         (if is_ValueError e then exc_str (runtime w) e
          else "API Error: " ++ exc_str (runtime w) e) ;;
       ret None).

(** [model = self.config["model"]], unless the scan found a word. *)
Definition select_model (found : option string) : string :=
  match found with
  | Some word => word
  | None => config_model w
  end.

(** [fuel] bounds the depth of the recursion, which the code leaves
    unbounded. *)
Fixpoint chat_gpt_request (fuel : nat) (query : string)
    (conversation_history : list Message) (sender_name : string)
    (event_id : EventID) : M unit :=
  match fuel with
  | O => out_of_fuel
  | S fuel' =>
      d <- today ;;
      scanned <- lift (Override.scan (runtime w)
                         (conversation d conversation_history sender_name query)) ;;
      let model := select_model (fst scanned) in
      opened <- open_stream event_id (snd scanned) model ;;
      match opened with
      | None => ret tt
      | Some (chat_completion, messages) =>
          respond
            (fun q h => chat_gpt_request fuel' q h sender_name event_id)
            sender_name event_id (is_mistral_model model)
            chat_completion messages
      end
  end.

End WithWorld.

End Bot.

(** ** Vocabulary for the properties of one streamed response *)

Module StreamSpec.

Import Bot.
Local Open Scope string_scope.
Local Open Scope nat_scope.

Definition chunk_content (chunk : RawChunk) : option string :=
  match chunk with
  | OpenAIChunk c _ _ => c
  | MistralChunk d _ => d
  end.

Definition chunk_finish_reason (chunk : RawChunk) : option string :=
  match chunk with
  | OpenAIChunk _ f _ => f
  | MistralChunk _ f => f
  end.

(** The chunk has the shape of the provider and no tool-call fragment. *)
Definition plain (is_mistral : bool) (chunk : RawChunk) : Prop :=
  match chunk with
  | OpenAIChunk _ _ t => is_mistral = false /\ (t = None \/ t = Some [])
  | MistralChunk _ _ => is_mistral = true
  end.

(** The text a chunk adds to [collected_messages]. *)
Definition delta_of (chunk : RawChunk) : list string :=
  match chunk_content chunk with
  | Some c => if PyStr.nonempty c then [c] else []
  | None => []
  end.

Definition deltas (chunks : list RawChunk) : list string :=
  flat_map delta_of chunks.

(** The reply is still in progress: the finish reason is null (or empty),
    or it is the tool-call marker. *)
Definition unfinished (finish_reason : option string) : bool :=
  negb (PyStr.truthy finish_reason)
  || match finish_reason with
     | Some f => String.eqb f "tool_calls"
     | None => false
     end.

(** The text a stream edit shows at [chunk], after the chunks [before]:
    what has been collected up to it, followed by the ellipsis exactly when
    the reply is unfinished there. *)
Definition shown_at (before : list RawChunk) (chunk : RawChunk) : string :=
  PyStr.join (deltas (before ++ [chunk]))
  ++ (if unfinished (chunk_finish_reason chunk) then ellipsis else "").

(** The throttling rule, read from the instance an iteration starts in
    and from the clock: the chunk has a finish reason, or the instance has
    never stamped an edit, or the next reading of the clock is at least
    [delay] after the stamp of its last edit. *)
Definition may_edit (w : World) (s : State) (chunk : RawChunk) : Prop :=
  PyStr.truthy (chunk_finish_reason chunk) = true
  \/ match last_edit_time s with
     | None => True
     | Some stamp => (delay <= time_at w (clock s) - stamp)%Q
     end.

End StreamSpec.

(** ** Concrete scenarios *)

Module Scenario.

Import Bot.
Local Open Scope string_scope.
Local Open Scope nat_scope.

Definition sender : string := "@alice:example.org".
Definition reply_id : EventID := "$reply".

Definition q : string := PyStr.dquote.

(** The two argument fragments of the round-trip example,
    [{"loc] and [ation":"Espoo"}], and their concatenation. *)
Definition args_head : string := "{" ++ q ++ "loc".
Definition args_tail : string := "ation" ++ q ++ ":" ++ q ++ "Espoo" ++ q ++ "}".
Definition args_whole : string :=
  "{" ++ q ++ "location" ++ q ++ ":" ++ q ++ "Espoo" ++ q ++ "}".

Definition fragment (i n a : option string) : ToolCallDelta :=
  {| delta_id := i; delta_name := n; delta_arguments := a |}.

Definition example_fragments : list ToolCallDelta :=
  [fragment (Some "1") (Some "weather") (Some args_head);
   fragment (Some "1") None (Some args_tail)].

Definition text_chunk (t : string) : RawChunk :=
  OpenAIChunk (Some t) None None.

Definition tool_chunk (f : ToolCallDelta) : RawChunk :=
  OpenAIChunk None None (Some [f]).

Definition last_chunk (reason : string) : RawChunk :=
  OpenAIChunk None (Some reason) None.

(** A stream that asks for [weather(location="Espoo")]. *)
Definition weather_stream : list RawChunk :=
  [tool_chunk (fragment (Some "1") (Some "weather") (Some args_head));
   tool_chunk (fragment (Some "1") None (Some args_tail));
   last_chunk "tool_calls"].

(** A stream with two calls, the second with truncated arguments. *)
Definition truncated_stream : list RawChunk :=
  [tool_chunk (fragment (Some "1") (Some "weather") (Some args_whole));
   tool_chunk (fragment (Some "2") (Some "fetch_electricity_prices")
                 (Some args_head));
   last_chunk "tool_calls"].

(** A stream with two calls, the first to a tool that does not exist. *)
Definition unknown_then_weather_stream : list RawChunk :=
  [tool_chunk (fragment (Some "1") (Some "horoscope") (Some "{}"));
   tool_chunk (fragment (Some "2") (Some "weather") (Some args_whole));
   last_chunk "tool_calls"].

(** A plain answer in three deltas. *)
Definition answer_stream : list RawChunk :=
  [text_chunk "It is "; text_chunk "sunny"; text_chunk ".";
   last_chunk "stop"].

(** An answer that itself ends with U+2026. *)
Definition trailing_stream : list RawChunk :=
  [OpenAIChunk (Some "Let me think…") (Some "stop") None].

(** The interpreter's tables for the characters of the scenarios: the
    Latin blocks up to U+024F and the punctuation from U+2000 to U+206F, as
    Unicode 14 has them; no other character is classed.  No scenario
    decodes a float: the lexeme is printed as it is, which is what Python
    prints for a float written in its shortest form. *)
Definition tables : Python.Runtime :=
  {| Python.isalnum := fun cp =>
       ((cp =? 170) || ((178 <=? cp) && (cp <=? 179)) || (cp =? 181)
        || ((185 <=? cp) && (cp <=? 186)) || ((188 <=? cp) && (cp <=? 190))
        || ((192 <=? cp) && (cp <=? 214)) || ((216 <=? cp) && (cp <=? 246))
        || ((248 <=? cp) && (cp <=? 591)))%N;
     Python.isprintable := fun cp =>
       (((161 <=? cp) && (cp <=? 591) && negb (cp =? 173))
        || ((8208 <=? cp) && (cp <=? 8231))
        || ((8240 <=? cp) && (cp <=? 8286)))%N;
     Python.float_repr := fun lexeme => lexeme |}.

Definition has_tool_round (r : Request) : bool :=
  existsb (fun m => match tool_calls m with Some _ => true | None => false end)
          (req_messages r).

(** A world whose provider answers the first request with [first] and a
    request that already carries a tool round with [answer_stream]; the
    clock advances by 0.4 s per reading. *)
Definition world (first : list RawChunk) : World :=
  {| runtime := tables;
     config_model := "gpt-4o";
     allowed_models := ["gpt-4o"; "gpt-4o-mini"];
     mistral_allowed_models := ["mistral-small"];
     time_at := fun n => (inject_Z (Z.of_nat n) * (2 # 5))%Q;
     today_at := fun _ => ("Tuesday November 03, 2026", "12:00 UTC+02:00");
     backend := fun r => if has_tool_round r then inr answer_stream
                         else inr first;
     get_weather := fun _ _ => inr "Sunny, 5 C";
     fetch_prices := fun _ _ => inr "5 c/kWh" |}.

(** A top-level call without history. *)
Definition ask (first : list RawChunk) (query : string)
  : result unit * State :=
  chat_gpt_request (world first) 4 query [] sender reply_id initial.

Definition developer : Message :=
  developer_message ("Tuesday November 03, 2026", "12:00 UTC+02:00").

End Scenario.

(** ** Further vocabulary *)

Module Chars.

(** Every character of [s] satisfies [p]. *)
Fixpoint all (p : ascii -> bool) (s : string) : bool :=
  match s with
  | EmptyString => true
  | String c s' => p c && all p s'
  end.

End Chars.

Module Fragments.

Import Bot.

(** A fragment that opens a call: identifier, name, first argument text. *)
Definition opening (id tool a : string) : ToolCallDelta :=
  {| delta_id := Some id; delta_name := Some tool; delta_arguments := Some a |}.

(** A fragment that only brings more argument text, as the deltas after
    the first one of a streamed call do. *)
Definition continuation (a : string) : ToolCallDelta :=
  {| delta_id := None; delta_name := None; delta_arguments := Some a |}.

End Fragments.

Module Threads.

Import Resolver.

(** A thread in which a sticker sits between two messages. *)
Definition sticker_event : Event :=
  {| ev_type := OtherEventType "m.sticker"; ev_sender := "@bob:example.org";
     ev_body := "thumbs up"; ev_formatted_body := None;
     ev_relates_to := InReplyTo (Some "$1") |}.

Definition answer_event : Event :=
  {| ev_type := ROOM_MESSAGE; ev_sender := "@alice:example.org";
     ev_body := "thanks"; ev_formatted_body := None;
     ev_relates_to := InReplyTo (Some "$2") |}.

Definition sticker_thread : Transport :=
  fun event_id =>
    if String.eqb event_id "$3" then inr answer_event
    else if String.eqb event_id "$2" then inr sticker_event
    else if String.eqb event_id "$1" then inr root_event
    else inl not_found.

(** A thread whose oldest event is the edit of a message: its relation
    names the edited event and has no [in_reply_to]. *)
Definition edit_event : Event :=
  {| ev_type := ROOM_MESSAGE; ev_sender := "@alice:example.org";
     ev_body := "* weather tomorrow?"; ev_formatted_body := None;
     ev_relates_to := OtherRelation |}.

Definition edited_thread : Transport :=
  fun event_id =>
    if String.eqb event_id "$2" then inr reply_event
    else if String.eqb event_id "$1" then inr edit_event
    else inl not_found.

End Threads.

Module Cases.

Import Bot Scenario.
Local Open Scope string_scope.

(** The world of [Scenario.world], with a provider that raises. *)
Definition failing_world (exc : PyExc) : World :=
  {| runtime := tables;
     config_model := "gpt-4o";
     allowed_models := ["gpt-4o"; "gpt-4o-mini"];
     mistral_allowed_models := ["mistral-small"];
     time_at := fun n => (inject_Z (Z.of_nat n) * (2 # 5))%Q;
     today_at := fun _ => ("Tuesday November 03, 2026", "12:00 UTC+02:00");
     backend := fun _ => inl exc;
     get_weather := fun _ _ => inr "Sunny, 5 C";
     fetch_prices := fun _ _ => inr "5 c/kWh" |}.

Definition rate_limited : PyExc := ExternalError "429 Too Many Requests".

(** A Mistral answer in two chunks. *)
Definition mistral_answer : list RawChunk :=
  [MistralChunk (Some "Bonjour") None; MistralChunk None (Some "stop")].

(** An instance that edited at time 0, about to read a last chunk. *)
Definition flush_start : State :=
  snd (set_last_edit_time 0%Q (snd (now (world answer_stream) initial))).

Definition flush_chunk : RawChunk :=
  OpenAIChunk (Some "done") (Some "stop") None.

Definition flush_locals : Locals :=
  {| collected_messages := ["done"]; collected_functions := [];
     the_tool_call_id := None |}.

Definition flush_edit : StreamEdit :=
  {| checked_at := Some (2 # 5)%Q; stamped_at := (4 # 5)%Q; shown := "done" |}.

(** The locals after the weather stream, and the conversation it
    answers. *)
Definition weather_locals : Locals :=
  {| collected_messages := [];
     collected_functions :=
       [("1", {| fn_name := "weather"; fn_arguments := args_whole |})];
     the_tool_call_id := Some "1" |}.

Definition weather_question : list Message :=
  [developer; user_message "alice" "weather in Espoo?"].

Definition weather_call : Message :=
  assistant_message "1" "weather"
    (Json.dumps tables (function_args_of args_whole sender)).

Definition weather_result : Message :=
  tool_message "1" "weather" "Sunny, 5 C".

End Cases.

Module Recursion.

(** A message whose content is a text without any override token. *)
Definition quiet (rt : Python.Runtime) (m : Message) : Prop :=
  exists c, content m = Some c /\ Override.find rt c = None.

End Recursion.

(** ** What a call may do to the state *)

Module Effects.

Import Bot.

(** The action is not an edit of another message than [event_id]. *)
Definition targets (event_id : EventID) (a : Action) : Prop :=
  match a with
  | Edit id _ => id = event_id
  | _ => True
  end.

(** The writes to the reply cache that go with the edits of a log. *)
Definition writes (event_id : EventID) (actions : list Action)
  : list (EventID * string) :=
  map (fun text => (event_id, text)) (edits actions).

(** From [s] to [s']: the log has grown by actions that edit no other
    message than [event_id], the reply cache has taken exactly the texts of
    these edits, in order, under [event_id], and the clocks have not gone
    back. *)
Definition evolves (event_id : EventID) (s s' : State) : Prop :=
  exists actions,
    log s' = log s ++ actions /\
    Forall (targets event_id) actions /\
    assistant_replies s'
      = ReplyCache.store_all (assistant_replies s) (writes event_id actions) /\
    clock s <= clock s' /\
    calendar s <= calendar s'.

(** Every run of [m], whatever its outcome, evolves the state. *)
Definition steady (event_id : EventID) {A} (m : M A) : Prop :=
  forall s r s', m s = (r, s') -> evolves event_id s s'.

End Effects.

(** ** The two entry points: [chat_gpt_handler] and [on_message] *)

Module Handlers.

Import Bot.
Local Open Scope string_scope.
Local Open Scope nat_scope.

(** What a handler reads from the incoming event: [evt["sender"]],
    [evt.content.get("msgtype")], the body and formatted body, and the
    relation of its content. *)
Record Incoming : Type := {
  in_sender : string;
  in_msgtype : option string;
  in_body : string;
  in_formatted_body : option string;
  in_relates_to : Resolver.Relation
}.

(** [MessageType.TEXT] *)
Definition TEXT : string := "m.text".

(** The room: [self.config["bot-name"]], the transport's [get_event], and
    the identifier the transport gives to the n-th reply the bot sends. *)
Record Room : Type := {
  bot_name : string;
  get_event : Resolver.Transport;
  reply_id_at : nat -> EventID
}.

(** The plugin instance together with the texts of the replies sent with
    [evt.reply], oldest first. *)
Record Session : Type := {
  bot : State;
  sent : list string
}.

(** The condition
    [evt.content.get("_relates_to") and ...["in_reply_to"].get("event_id")]
    and the identifier it guards. *)
Definition reply_target (evt : Incoming) : result (option EventID) :=
  Resolver.reply_target (in_relates_to evt).

(** [pattern.search(formatted_body)] as a truth value. *)
Fixpoint mentions (bot_name s : string) : bool :=
  match Mention.match_len bot_name s with
  | Some _ => true
  | None =>
      match s with
      | String _ s' => mentions bot_name s'
      | EmptyString => false
      end
  end.

Definition blank_query_notice : string :=
  "Please provide a message to chat with ChatGPT.".

Section WithRoom.
Variable w : World.
Variable room : Room.

(** [await evt.reply(text)]: the text goes out, the transport names it. *)
Definition reply (text : string) (ses : Session) : EventID * Session :=
  (reply_id_at room (length (sent ses)),
   {| bot := bot ses; sent := sent ses ++ [text] |}).

(** The history of the thread the event replies to, if it replies. *)
Definition thread_history (fuel : nat) (target : option EventID)
    (ses : Session) : result (list Message) :=
  match target with
  | Some in_reply_to_event_id =>
      Resolver.get_conversation_history (bot_name room)
        (assistant_replies (bot ses)) (get_event room)
        fuel in_reply_to_event_id
  | None => Ok []
  end.

(** The common end of both handlers: the placeholder reply, then
    [chat_gpt_request] on it. *)
Definition answer (fuel : nat) (evt : Incoming) (query : string)
    (conversation_history : list Message) (ses : Session)
  : result unit * Session :=
  let (event_id, ses1) := reply ellipsis ses in
  let (r, s') :=
    chat_gpt_request w fuel query conversation_history (in_sender evt)
      event_id (bot ses1) in
  (r, {| bot := s'; sent := sent ses1 |}).

(** [chat_gpt_handler(evt, query)] *)
Definition chat_gpt_handler (fuel : nat) (evt : Incoming) (query : string)
    (ses : Session) : result unit * Session :=
  let query := PyStr.strip query in
  if negb (PyStr.nonempty query) then
    (Ok tt, snd (reply blank_query_notice ses))
  else
    match reply_target evt with
    | Ok target =>
        match thread_history fuel target ses with
        | Ok conversation_history =>
            answer fuel evt query conversation_history ses
        | Raise e => (Raise e, ses)
        | OutOfFuel => (OutOfFuel, ses)
        end
    | Raise e => (Raise e, ses)
    | OutOfFuel => (OutOfFuel, ses)
    end.

(** [on_message(evt, match)] *)
Definition on_message (fuel : nat) (evt : Incoming) (ses : Session)
  : result unit * Session :=
  match in_msgtype evt with
  | Some msgtype =>
      if String.eqb msgtype TEXT then
        let formatted_body :=
          match in_formatted_body evt with
          | Some f => if PyStr.nonempty f then f else in_body evt
          | None => in_body evt
          end in
        match reply_target evt with
        | Ok in_reply_to_event_id =>
            if mentions (bot_name room) formatted_body
               || match in_reply_to_event_id with
                  | Some id => PyDict.mem (assistant_replies (bot ses)) id
                  | None => false
                  end
            then
              let query := Mention.sub (bot_name room) formatted_body in
              match thread_history fuel in_reply_to_event_id ses with
              | Ok conversation_history =>
                  answer fuel evt query conversation_history ses
              | Raise e => (Raise e, ses)
              | OutOfFuel => (OutOfFuel, ses)
              end
            else (Ok tt, ses)
        | Raise e => (Raise e, ses)
        | OutOfFuel => (OutOfFuel, ses)
        end
      else (Ok tt, ses)
  | None => (Ok tt, ses)
  end.

End WithRoom.

(** A room with the broken thread of [Resolver.broken_thread]. *)
Definition broken_room : Room :=
  {| bot_name := "@bot:example.org";
     get_event := Resolver.broken_thread;
     reply_id_at := fun n => ReplyCache.sample_id n |}.

Definition fresh : Session := {| bot := initial; sent := [] |}.

(** A command sent as a reply to event 2. *)
Definition command_in_thread : Incoming :=
  {| in_sender := "@alice:example.org"; in_msgtype := Some TEXT;
     in_body := "!chatgpt and the day after?"; in_formatted_body := None;
     in_relates_to := Resolver.InReplyTo (Some "$2") |}.

(** A message that does not concern the bot. *)
Definition small_talk : Incoming :=
  {| in_sender := "@alice:example.org"; in_msgtype := Some TEXT;
     in_body := "see you at 5 > 4"; in_formatted_body := None;
     in_relates_to := Resolver.NoRelation |}.

(** The edit of an earlier message: the relation of its content names the
    edited event and has no [in_reply_to]. *)
Definition edited_message : Incoming :=
  {| in_sender := "@alice:example.org"; in_msgtype := Some TEXT;
     in_body := "* see you at 6"; in_formatted_body := None;
     in_relates_to := Resolver.OtherRelation |}.

End Handlers.

(** ** [services/electricity_service.py]: [ElectricityService.fetch_prices] *)

Module Electricity.

Local Open Scope string_scope.
Local Open Scope nat_scope.

(** What [requests.get(url)] returns. *)
Record Response : Type := {
  status_code : nat;
  payload : string
}.

(** The surroundings of one call: the two dates [datetime.datetime.today()]
    formats to, the HTTP client, and [render], which stands for
    [response.json()] and the arithmetic on floats and its formatting
    between the status check and the cache update (they either raise or
    give the text [formatted_string]). *)
Record Net : Type := {
  today : string;
  tomorrow : string;
  http_get : string -> PyExc + Response;
  render : string -> PyExc + string
}.

(** [self.price_cache]: date to [{'data': text}]. *)
Definition Cache := PyDict.dict string.

Definition url_of (date : string) : string :=
  "https://www.sahkohinta-api.fi/api/v1/halpa?tunnit=24&tulos=sarja&aikaraja="
  ++ date.

Definition unavailable (date : string) (status : nat) : string :=
  "Error: Unable to fetch data for " ++ date ++ " (status code "
  ++ PyStr.str_of_nat status ++ ") "
  ++ "Maybe date is in the future? Prices for the next day are available around 14:00 UTC+2.".

(** The first block: ['today'] and ['tomorrow'] become dates. *)
Definition resolve (net : Net) (date : string) : string :=
  if String.eqb date "today" then today net
  else if String.eqb date "tomorrow" then tomorrow net
  else date.

(** One call: its outcome, the cache afterwards, and the URLs it asked
    for. *)
Record Outcome : Type := {
  returned : result string;
  cache_after : Cache;
  requested : list string
}.

(** [fetch_prices(user, date)] *)
Definition fetch_prices (net : Net) (price_cache : Cache)
    (user date : string) : Outcome :=
  let date := resolve net date in
  match PyDict.get price_cache date with
  | Some data =>
      {| returned := Ok data; cache_after := price_cache; requested := [] |}
  | None =>
      let url := url_of date in
      match http_get net url with
      | inl e =>
          {| returned := Raise e; cache_after := price_cache;
             requested := [url] |}
      | inr response =>
          if negb (status_code response =? 200) then
            {| returned := Ok (unavailable date (status_code response));
               cache_after := price_cache; requested := [url] |}
          else
            match render net (payload response) with
            | inl e =>
                {| returned := Raise e; cache_after := price_cache;
                   requested := [url] |}
            | inr formatted_string =>
                {| returned := Ok formatted_string;
                   cache_after := PyDict.set price_cache date formatted_string;
                   requested := [url] |}
            end
      end
  end.

(** A day on which the prices of the next day are not out yet. *)
Definition morning : Net :=
  {| today := "2026-11-03"; tomorrow := "2026-11-04";
     http_get := fun url =>
       if String.eqb url (url_of "2026-11-03")
       then inr {| status_code := 200; payload := "[prices]" |}
       else inr {| status_code := 404; payload := "" |};
     render := fun _ => inr "Prices of the day" |}.

End Electricity.

(** ** [services/weather_service.py]: [get_weather] *)

Module Weather.

Local Open Scope string_scope.

(** A measurement as the report prints it: the text of its value and its
    unit. *)
Record Value : Type := {
  value : string;
  unit : string
}.

(** [current_data.data]; [feels_like_2f] is the value of [feels_like]
    under the format [:2f] ([None] when the value is missing, which that
    format rejects), [symbol] the value of the weather symbol when the
    lookup code can use it. *)
Record Current : Type := {
  temperature : Value;
  feels_like : Value;
  feels_like_2f : option string;
  humidity : Value;
  symbol : option Z;
  wind_speed : Value;
  wind_direction : Value;
  wind_gust : Value;
  cloud_cover : Value;
  pressure : Value;
  precipitation_amount : Value
}.

(** One element of [forecast_data.forecasts]; [f_weekday] and [f_time] are
    [forecast_time.strftime("%A")] and [str(forecast_time)]. *)
Record Forecast : Type := {
  f_weekday : string;
  f_time : string;
  f_temperature : Value;
  f_humidity : Value;
  f_symbol : option Z;
  f_wind_speed : Value;
  f_precipitation_amount : Value
}.

(** What a call of the FMI client gives. *)
Inductive Fetched (A : Type) : Type :=
| Data (a : A)
| ClientError (status_code : nat) (message : string)
| ServerError (status_code : nat) (body : string)
| Failure (e : PyExc).

Arguments Data {A} a.
Arguments ClientError {A} status_code message.
Arguments ServerError {A} status_code body.
Arguments Failure {A} e.

(** The FMI client and the table [WEATHER_MAP] of the constants module. *)
Record Fmi : Type := {
  weather_by_place_name : string -> Fetched Current;
  forecast_by_place_name : string -> Fetched (list Forecast);
  WEATHER_MAP : Z -> option string
}.

(** The calls made to the client. *)
Inductive Call : Type :=
| AskedCurrent (location : string)
| AskedForecast (location : string).

(** The [try] around the symbol lookup: symbols from 100 on are looked up
    100 lower; anything that fails gives ["Tuntematon"]. *)
Definition describe (fmi : Fmi) (sym : option Z) : string :=
  match sym with
  | Some symbol_value =>
      match WEATHER_MAP fmi (if (symbol_value <? 100)%Z then symbol_value
                             else (symbol_value - 100)%Z) with
      | Some text => text
      | None => "Tuntematon"
      end
  | None => "Tuntematon"
  end.

Definition show (v : Value) : string := value v ++ unit v.

Definition nl : string := String PyStr.newline EmptyString.

Definition missing_value : PyExc :=
  TypeError "unsupported format string passed to NoneType.__format__".

Definition current_weather_str (fmi : Fmi) (c : Current) : result string :=
  match feels_like_2f c with
  | None => Raise missing_value
  | Some felt =>
      Ok ("Tämänhetkinen sää: " ++ show (temperature c) ++ " "
          ++ "(Tuntuu kuin " ++ felt ++ unit (feels_like c) ++ "), "
          ++ describe fmi (symbol c) ++ ", " ++ show (humidity c)
          ++ " ilmankosteus, "
          ++ "tuulen nopeus: " ++ show (wind_speed c) ++ ", "
          ++ "tuulen suunta " ++ show (wind_direction c) ++ " "
          ++ "(Puuskissa " ++ show (wind_gust c) ++ "), "
          ++ "Pilvisyys: " ++ show (cloud_cover c) ++ ", "
          ++ "Sademäärä: " ++ show (precipitation_amount c) ++ ", "
          ++ "ilmanpaine " ++ value (pressure c)
          ++ unit (precipitation_amount c))
  end.

Definition forecast_line (fmi : Fmi) (f : Forecast) : string :=
  f_weekday f ++ " - " ++ f_time f ++ ": " ++ show (f_temperature f) ++ ", "
  ++ describe fmi (f_symbol f) ++ ", " ++ show (f_humidity f)
  ++ " ilmankosteus, "
  ++ "Tuulen nopeus: " ++ show (f_wind_speed f) ++ ", "
  ++ "Sademäärä: " ++ show (f_precipitation_amount f) ++ nl.

Definition forecasted_weather_str (fmi : Fmi) (fs : list Forecast) : string :=
  fold_left (fun acc f => acc ++ forecast_line fmi f) fs
            ("Ennustettu sää:" ++ nl).

(** [get_weather(user, location)]: the outcome and the calls made. *)
Definition get_weather (fmi : Fmi) (user location : string)
  : result string * list Call :=
  match weather_by_place_name fmi location with
  | ClientError _ message =>
      (Ok ("Error fetching current weather: " ++ message),
       [AskedCurrent location])
  | ServerError _ body =>
      (Ok ("Error fetching current weather: " ++ body),
       [AskedCurrent location])
  | Failure e => (Raise e, [AskedCurrent location])
  | Data current_data =>
      match forecast_by_place_name fmi location with
      | ClientError _ message =>
          (Ok ("Error fetching forecast: " ++ message),
           [AskedCurrent location; AskedForecast location])
      | ServerError _ body =>
          (Ok ("Error fetching forecast: " ++ body),
           [AskedCurrent location; AskedForecast location])
      | Failure e =>
          (Raise e, [AskedCurrent location; AskedForecast location])
      | Data forecasts =>
          (match current_weather_str fmi current_data with
           | Ok current =>
               Ok (current ++ nl ++ nl
                   ++ forecasted_weather_str fmi forecasts)
           | Raise e => Raise e
           | OutOfFuel => OutOfFuel
           end,
           [AskedCurrent location; AskedForecast location])
      end
  end.

(** A client that does not know the place. *)
Definition nowhere : Fmi :=
  {| weather_by_place_name := fun _ => ClientError 400 "No locations found";
     forecast_by_place_name := fun _ => Data [];
     WEATHER_MAP := fun s => if (s =? 1)%Z then Some "Selkeää" else None |}.

End Weather.
(** * Properties *)

(** ** Insertion-ordered dictionaries *)

Section DictFacts.
Context {V : Type}.

Lemma get_None_iff (d : PyDict.dict V) (k : string) :
  PyDict.get d k = None <-> ~ In k (PyDict.keys d).
Proof.
  induction d as [|[k' v'] d IH]; simpl.
  - tauto.
  - destruct (String.eqb_spec k' k) as [->|Hne].
    + split; [discriminate | intros H; exfalso; apply H; now left].
    + rewrite IH. split; [intros H [E|I]; [congruence | auto] | tauto].
Qed.

Lemma mem_true_iff (d : PyDict.dict V) (k : string) :
  PyDict.mem d k = true <-> In k (PyDict.keys d).
Proof.
  unfold PyDict.mem. destruct (PyDict.get d k) eqn:E.
  - split; [intros _ | reflexivity].
    destruct (in_dec string_dec k (PyDict.keys d)) as [I|N]; [exact I|].
    apply get_None_iff in N. congruence.
  - apply get_None_iff in E. split; [discriminate | tauto].
Qed.

Lemma keys_set_present (d : PyDict.dict V) (k : string) (v : V) :
  In k (PyDict.keys d) -> PyDict.keys (PyDict.set d k v) = PyDict.keys d.
Proof.
  induction d as [|[k' v'] d IH]; simpl; [tauto|].
  intros [E|I]; destruct (String.eqb_spec k' k) as [->|Hne]; simpl;
    try reflexivity; try congruence.
  now rewrite IH.
Qed.

Lemma keys_set_absent (d : PyDict.dict V) (k : string) (v : V) :
  ~ In k (PyDict.keys d) -> PyDict.keys (PyDict.set d k v) = PyDict.keys d ++ [k].
Proof.
  induction d as [|[k' v'] d IH]; simpl; [reflexivity|].
  intros N. destruct (String.eqb_spec k' k) as [->|Hne]; [tauto|].
  simpl. rewrite IH; tauto.
Qed.

Lemma get_set_same (d : PyDict.dict V) (k : string) (v : V) :
  PyDict.get (PyDict.set d k v) k = Some v.
Proof.
  induction d as [|[k' v'] d IH]; simpl.
  - now rewrite String.eqb_refl.
  - destruct (String.eqb_spec k' k) as [->|Hne]; simpl.
    + now rewrite String.eqb_refl.
    + destruct (String.eqb_spec k' k); [congruence | exact IH].
Qed.

Lemma get_set_other (d : PyDict.dict V) (k k0 : string) (v : V) :
  k0 <> k -> PyDict.get (PyDict.set d k v) k0 = PyDict.get d k0.
Proof.
  intros Hne. induction d as [|[k' v'] d IH]; simpl.
  - destruct (String.eqb_spec k k0); [congruence | reflexivity].
  - destruct (String.eqb_spec k' k) as [->|Hne']; simpl.
    + destruct (String.eqb_spec k k0); [congruence | reflexivity].
    + now rewrite IH.
Qed.

Lemma length_set_present (d : PyDict.dict V) (k : string) (v : V) :
  In k (PyDict.keys d) -> length (PyDict.set d k v) = length d.
Proof.
  intros I. apply (keys_set_present d k v) in I.
  unfold PyDict.keys in I. apply (f_equal (@length string)) in I.
  now rewrite !length_map in I.
Qed.

Lemma length_set_absent (d : PyDict.dict V) (k : string) (v : V) :
  ~ In k (PyDict.keys d) -> length (PyDict.set d k v) = S (length d).
Proof.
  intros N. apply (keys_set_absent d k v) in N.
  unfold PyDict.keys in N. apply (f_equal (@length string)) in N.
  rewrite length_app, !length_map in N. simpl in N. lia.
Qed.

Lemma get_app_l (d1 d2 : PyDict.dict V) (k : string) :
  In k (PyDict.keys d1) -> PyDict.get (d1 ++ d2) k = PyDict.get d1 k.
Proof.
  induction d1 as [|[k' v'] d1 IH]; simpl; [tauto|].
  intros [E|I]; destruct (String.eqb_spec k' k); try congruence; auto.
Qed.

End DictFacts.

(** ** The reply cache *)

Section ReplyCacheFacts.
Import ReplyCache.

Lemma set_absent_app (c : t) (k text : string) :
  ~ In k (PyDict.keys c) -> PyDict.set c k text = c ++ [(k, text)].
Proof.
  induction c as [|[k' v'] c IH]; simpl; [reflexivity|].
  intros N. destruct (String.eqb_spec k' k) as [->|Hne]; [tauto|].
  rewrite IH; tauto.
Qed.

(** Re-writing a present key never evicts, as long as the bound holds. *)
Lemma store_present (c : t) (k text : string) :
  length c <= max_messages -> In k (PyDict.keys c) ->
  store c k text = PyDict.set c k text.
Proof.
  intros Hlen Hin. unfold store.
  rewrite (length_set_present c k text Hin).
  destruct (Nat.ltb_spec max_messages (length c)); [lia | reflexivity].
Qed.

(** A new key goes last; the first entry leaves when the bound is exceeded. *)
Lemma store_absent (c : t) (k text : string) :
  length c <= max_messages -> ~ In k (PyDict.keys c) ->
  store c k text = skipn (length c + 1 - max_messages) (c ++ [(k, text)]).
Proof.
  intros Hlen Hnin. unfold store.
  rewrite (set_absent_app c k text Hnin).
  rewrite length_app. simpl length.
  destruct (Nat.ltb_spec max_messages (length c + 1)) as [Hfull|Hfree].
  - replace (length c + 1 - max_messages) with 1 by lia.
    destruct c as [|[k0 v0] c']; simpl.
    + unfold max_messages in *. simpl in *. lia.
    + now rewrite String.eqb_refl.
  - replace (length c + 1 - max_messages) with 0 by lia. reflexivity.
Qed.

Lemma store_length_bound (c : t) (k text : string) :
  length c <= max_messages -> length (store c k text) <= max_messages.
Proof.
  intros Hlen.
  destruct (in_dec string_dec k (PyDict.keys c)) as [Hin|Hnin].
  - rewrite store_present, length_set_present; auto.
  - rewrite store_absent, length_skipn, length_app by auto. simpl. lia.
Qed.

Lemma reachable_length (c : t) :
  reachable c -> length c <= max_messages.
Proof.
  induction 1 as [|c k text _ IH].
  - unfold empty, max_messages. simpl. lia.
  - now apply store_length_bound.
Qed.

Lemma NoDup_skipn {A} (n : nat) (l : list A) : NoDup l -> NoDup (skipn n l).
Proof.
  revert l. induction n as [|n IH]; intros l H; [exact H|].
  destruct l as [|a l]; simpl; [constructor|].
  apply IH. now inversion H.
Qed.

Lemma store_keys_NoDup (c : t) (k text : string) :
  length c <= max_messages ->
  NoDup (PyDict.keys c) -> NoDup (PyDict.keys (store c k text)).
Proof.
  intros Hlen Hnd.
  destruct (in_dec string_dec k (PyDict.keys c)) as [Hin|Hnin].
  - rewrite store_present by auto.
    now rewrite keys_set_present.
  - rewrite store_absent by auto. unfold PyDict.keys.
    rewrite <- skipn_map. apply NoDup_skipn.
    rewrite map_app. simpl.
    apply NoDup_app; [exact Hnd | repeat constructor; simpl; tauto |].
    intros x Hx [<-|[]]. now apply Hnin.
Qed.

Lemma reachable_NoDup (c : t) :
  reachable c -> NoDup (PyDict.keys c).
Proof.
  induction 1 as [|c k text Hr IH].
  - constructor.
  - apply store_keys_NoDup; [now apply reachable_length | exact IH].
Qed.

Lemma reachable_store_all (c : t) (edits : list (EventID * string)) :
  reachable c -> reachable (store_all c edits).
Proof.
  revert c. induction edits as [|[k v] es IH]; intros c Hr; simpl; [exact Hr|].
  apply IH. now constructor.
Qed.

(** FIFO: storing fresh, pairwise distinct keys keeps the newest entries. *)
Lemma store_all_fresh (c : t) (edits : list (EventID * string)) :
  length c <= max_messages ->
  NoDup (PyDict.keys c ++ map fst edits) ->
  store_all c edits =
  skipn (length c + length edits - max_messages) (c ++ edits).
Proof.
  revert c. induction edits as [|[k v] es IH]; intros c Hlen Hnd.
  - simpl. rewrite app_nil_r.
    replace (length c + 0 - max_messages) with 0 by lia. reflexivity.
  - simpl store_all. simpl map in Hnd.
    assert (Hnin : ~ In k (PyDict.keys c)).
    { apply NoDup_remove_2 in Hnd. intros I. apply Hnd.
      apply in_or_app. now left. }
    pose proof (store_absent c k v Hlen Hnin) as Hst.
    pose proof (store_length_bound c k v Hlen) as Hlen'.
    change (fold_left _ es (store c (fst (k, v)) (snd (k, v))))
      with (store_all (store c k v) es).
    set (a := length c + 1 - max_messages) in *.
    assert (Hle : a <= length (c ++ [(k, v)])).
    { rewrite length_app. simpl. lia. }
    assert (Hca : length (store c k v) = length c + 1 - a).
    { rewrite Hst, length_skipn, length_app. reflexivity. }
    assert (Happ : forall (B : Type) (l r : list B),
               a <= length l -> skipn a l ++ r = skipn a (l ++ r)).
    { intros B l r H. rewrite skipn_app.
      replace (a - length l) with 0 by lia. reflexivity. }
    rewrite IH; [| exact Hlen' |].
    + rewrite Hca. rewrite Hst, Happ by exact Hle.
      rewrite skipn_skipn, <- app_assoc. simpl app. simpl length.
      f_equal. lia.
    + rewrite Hst. unfold PyDict.keys. rewrite <- skipn_map, map_app. simpl.
      rewrite Happ by (rewrite length_app, length_map; simpl;
                       rewrite length_app in Hle; simpl in Hle; lia).
      apply NoDup_skipn. rewrite <- app_assoc. exact Hnd.
Qed.

Lemma distinctb_NoDup (l : list string) : distinctb l = true -> NoDup l.
Proof.
  induction l as [|x r IH]; simpl; [constructor|].
  intros H. apply andb_prop in H as [Hx Hr].
  constructor; [| now apply IH].
  intros I. apply negb_true_iff in Hx.
  assert (existsb (String.eqb x) r = true); [| congruence].
  apply existsb_exists. exists x. split; [exact I | apply String.eqb_refl].
Qed.

Lemma NoDup_app_disjoint {A} (l1 l2 : list A) :
  NoDup (l1 ++ l2) -> forall x, In x l1 -> In x l2 -> False.
Proof.
  induction l1 as [|a l1 IH]; simpl; intros Hnd x H1 H2; [exact H1|].
  inversion Hnd as [|? ? Ha Hnd']; subst.
  destruct H1 as [->|H1]; [| exact (IH Hnd' x H1 H2)].
  apply Ha. apply in_or_app. now right.
Qed.

Lemma skipn_app_l {A} (a : nat) (X Y : list A) :
  a <= length X -> skipn a X ++ Y = skipn a (X ++ Y).
Proof.
  intros Ha. rewrite skipn_app.
  replace (a - length X) with 0 by lia. reflexivity.
Qed.

Lemma lastn_skipn_app {A} (n a : nat) (X Y : list A) :
  a <= length X ->
  a <= length X + length Y - n ->
  lastn n (skipn a X ++ Y) = lastn n (X ++ Y).
Proof.
  intros Ha Hn. unfold lastn.
  replace (skipn a X ++ Y) with (skipn a (X ++ Y)).
  2:{ rewrite skipn_app. replace (a - length X) with 0 by lia. reflexivity. }
  rewrite skipn_skipn, length_skipn. f_equal.
  rewrite !length_app. lia.
Qed.

(** The keys after a run of edits: the last [max_messages] of the keys
    before it followed by the identifiers it inserted. *)
Lemma keys_store_all (edits : list (EventID * string)) : forall c : t,
  length c <= max_messages ->
  PyDict.keys (store_all c edits) =
  lastn max_messages (PyDict.keys c ++ insertions c edits).
Proof.
  induction edits as [|[k text] rest IH]; intros c Hlen.
  - simpl. rewrite app_nil_r. unfold lastn, PyDict.keys.
    rewrite length_map.
    replace (length c - max_messages) with 0 by lia. reflexivity.
  - change (store_all c ((k, text) :: rest))
      with (store_all (store c k text) rest).
    rewrite IH by now apply store_length_bound.
    simpl insertions. destruct (PyDict.mem c k) eqn:Hmem.
    + apply mem_true_iff in Hmem. simpl app.
      rewrite store_present by assumption.
      now rewrite keys_set_present.
    + assert (Hnin : ~ In k (PyDict.keys c)).
      { intros I. apply mem_true_iff in I. congruence. }
      rewrite store_absent by assumption.
      set (ins := insertions _ rest). clearbody ins.
      set (a := length c + 1 - max_messages).
      transitivity (lastn max_messages (skipn a (PyDict.keys c ++ [k]) ++ ins)).
      { f_equal. f_equal. unfold PyDict.keys.
        rewrite <- skipn_map, map_app. reflexivity. }
      transitivity (lastn max_messages ((PyDict.keys c ++ [k]) ++ ins)).
      { assert (HX : length (PyDict.keys c ++ [k]) = length c + 1).
        { unfold PyDict.keys. rewrite length_app, length_map. reflexivity. }
        apply lastn_skipn_app; rewrite HX; unfold a; lia. }
      now rewrite <- app_assoc.
Qed.

Lemma firstn_skipn_disjoint {A} (n : nat) (l : list A) :
  NoDup l -> forall x, In x (firstn n l) -> In x (skipn n l) -> False.
Proof.
  intros Hnd. rewrite <- (firstn_skipn n l) in Hnd.
  exact (NoDup_app_disjoint _ _ Hnd).
Qed.

(** C2. The reply cache never holds more than 100 entries, and eviction is
    first-in first-out in insertion order: whatever the run of edits
    (re-writes of present identifiers included), if it inserts 150 pairwise
    distinct identifiers, then afterwards the keys of the cache are exactly
    the 100 identifiers inserted last, in insertion order, and the 50
    identifiers inserted first are absent. *)
Theorem reply_cache_fifo_eviction
    (c0 : t) (edits : list (EventID * string)) :
  reachable c0 ->
  length (insertions c0 edits) = 150 ->
  NoDup (insertions c0 edits) ->
  let c := store_all c0 edits in
  (forall n, length (store_all c0 (firstn n edits)) <= 100) /\
  PyDict.keys c = skipn 50 (insertions c0 edits) /\
  length c = 100 /\
  (forall k, In k (skipn 50 (insertions c0 edits)) -> PyDict.mem c k = true) /\
  (forall k, In k (firstn 50 (insertions c0 edits)) -> PyDict.mem c k = false).
Proof.
  intros Hr Hlen Hnd c. unfold EventID in *.
  pose proof (reachable_length c0 Hr) as Hb.
  assert (Hc : PyDict.keys c = skipn 50 (insertions c0 edits)).
  { unfold c. rewrite keys_store_all by exact Hb.
    unfold lastn, max_messages in *.
    rewrite length_app, Hlen, skipn_app.
    unfold PyDict.keys. rewrite length_map.
    rewrite skipn_all2 by (rewrite length_map; lia).
    simpl app. f_equal. lia. }
  split; [| split; [exact Hc | split; [| split]]].
  - intros n. apply (reachable_length (store_all c0 (firstn n edits))).
    now apply reachable_store_all.
  - apply (f_equal (@length _)) in Hc. unfold PyDict.keys in Hc.
    rewrite length_map, length_skipn in Hc. unfold EventID in *. lia.
  - intros k Hk. apply mem_true_iff. now rewrite Hc.
  - intros k Hk. destruct (PyDict.mem c k) eqn:E; [| reflexivity].
    exfalso. apply mem_true_iff in E. rewrite Hc in E.
    exact (firstn_skipn_disjoint 50 _ Hnd k Hk E).
Qed.

Lemma reply_cache_fifo_eviction_witness :
  PyDict.keys (store_all empty (sample_streamed_edits 150)) =
  skipn 50 (insertions empty (sample_streamed_edits 150)).
Proof.
  apply (reply_cache_fifo_eviction empty (sample_streamed_edits 150)).
  - exact reach_empty.
  - vm_compute. reflexivity.
  - apply distinctb_NoDup. vm_compute. reflexivity.
Defined.

(** Edits under pairwise distinct identifiers that are new to the cache
    insert every one of them. *)
Lemma insertions_fresh (edits : list (EventID * string)) : forall c : t,
  length c <= max_messages ->
  NoDup (PyDict.keys c ++ map fst edits) ->
  insertions c edits = map fst edits.
Proof.
  induction edits as [|[k text] rest IH]; intros c Hlen Hnd; [reflexivity|].
  simpl. simpl map in Hnd.
  assert (Hnin : ~ In k (PyDict.keys c)).
  { apply NoDup_remove_2 in Hnd. intros I. apply Hnd.
    apply in_or_app. now left. }
  destruct (PyDict.mem c k) eqn:Hmem.
  { apply mem_true_iff in Hmem. contradiction. }
  simpl. f_equal. apply IH; [now apply store_length_bound|].
  rewrite store_absent by assumption.
  unfold PyDict.keys, EventID in *.
  rewrite <- skipn_map, map_app. simpl map.
  rewrite skipn_app_l
    by (rewrite length_app, length_map; simpl; lia).
  apply NoDup_skipn. rewrite <- app_assoc. exact Hnd.
Qed.

(** C10. Writing under an identifier that is already in the cache replaces
    the stored text only: the order of the keys and the size of the cache
    do not change, every other entry keeps its text, and nothing is evicted.
    A key of the cache can disappear only when the written identifier was
    absent and the cache already held [max_messages] entries, and then it is
    the oldest key that goes. *)
Theorem reply_cache_rewrite_in_place
    (c : t) (event_id : EventID) (text : string) :
  reachable c ->
  (In event_id (PyDict.keys c) ->
     PyDict.keys (store c event_id text) = PyDict.keys c /\
     length (store c event_id text) = length c /\
     PyDict.get (store c event_id text) event_id = Some text /\
     (forall k, k <> event_id ->
        PyDict.get (store c event_id text) k = PyDict.get c k)) /\
  (forall k, In k (PyDict.keys c) ->
     ~ In k (PyDict.keys (store c event_id text)) ->
     ~ In event_id (PyDict.keys c) /\
     length c = max_messages /\
     hd_error (PyDict.keys c) = Some k).
Proof.
  intros Hr. pose proof (reachable_length c Hr) as Hlen. split.
  - intros Hin. rewrite store_present by auto.
    split; [now apply keys_set_present|].
    split; [now apply length_set_present|].
    split; [apply get_set_same | intros k Hk; now apply get_set_other].
  - intros k Hk Hgone.
    destruct (in_dec string_dec event_id (PyDict.keys c)) as [Hin|Hnin].
    + exfalso. apply Hgone. rewrite store_present by auto.
      now rewrite keys_set_present.
    + split; [exact Hnin|].
      rewrite store_absent in Hgone by auto.
      destruct (Nat.eq_dec (length c) max_messages) as [Hfull|Hfree].
      * split; [exact Hfull|].
        replace (length c + 1 - max_messages) with 1 in Hgone by lia.
        destruct c as [|[k0 v0] c']; [destruct Hk|].
        simpl in *. destruct Hk as [->|Hk]; [reflexivity|].
        exfalso. apply Hgone. unfold PyDict.keys.
        rewrite map_app. apply in_or_app. now left.
      * exfalso. apply Hgone.
        replace (length c + 1 - max_messages) with 0 by lia.
        simpl. unfold PyDict.keys. rewrite map_app.
        apply in_or_app. now left.
Qed.

Lemma reply_cache_rewrite_in_place_witness :
  PyDict.keys (store (store_all empty (sample_edits 3)) (sample_id 1) "…") =
  PyDict.keys (store_all empty (sample_edits 3)).
Proof.
  apply (reply_cache_rewrite_in_place
           (store_all empty (sample_edits 3)) (sample_id 1) "…").
  - apply reachable_store_all. exact reach_empty.
  - vm_compute. right. left. reflexivity.
Defined.

End ReplyCacheFacts.

(** ** Conversation resolver *)

Section ResolverFacts.
Import Resolver.
Variable bot_name : string.
Variable assistant_replies : ReplyCache.t.
Variable get_event : Transport.

Local Abbreviation walk := (walk bot_name assistant_replies get_event).
Local Abbreviation chain := (chain get_event).
Local Abbreviation messages_of := (messages_of bot_name assistant_replies).

Lemma messages_of_cons_message event_id event rest :
  ev_type event = ROOM_MESSAGE ->
  messages_of ((event_id, event) :: rest) =
  messages_of rest ++ [message_of bot_name assistant_replies event_id event].
Proof. intros H. unfold Resolver.messages_of. simpl. now rewrite H. Qed.

Lemma messages_of_cons_other event_id event rest :
  is_room_message (ev_type event) = false ->
  messages_of ((event_id, event) :: rest) = messages_of rest.
Proof. intros H. unfold Resolver.messages_of. simpl. now rewrite H. Qed.

(** The walk along a chain: every message event ends up in front of the
    history, older events further to the front; a fetch that raises ends
    the call with that exception. *)
Lemma walk_along_chain event_id evs stop :
  chain event_id evs stop ->
  forall fuel history,
    length evs < fuel ->
    walk fuel event_id history =
    match stop with
    | None => Ok (messages_of evs ++ history)
    | Some exc => Raise exc
    end.
Proof.
  induction 1 as [id ev Hid Hget Hrel | id exc Hid Hget
                 | id ev next rest stop Hid Hget Hrel _ IH];
    intros fuel history Hfuel.
  - destruct fuel as [|fuel]; [inversion Hfuel|].
    simpl. rewrite Hid, Hget. simpl. rewrite Hrel.
    unfold Resolver.messages_of. simpl.
    destruct (is_room_message (ev_type ev)); reflexivity.
  - destruct fuel as [|fuel]; [inversion Hfuel|].
    simpl. now rewrite Hid, Hget.
  - destruct fuel as [|fuel]; [inversion Hfuel|].
    simpl in Hfuel. simpl. rewrite Hid, Hget. simpl. rewrite Hrel.
    rewrite IH by lia.
    destruct stop; [reflexivity|].
    destruct (is_room_message (ev_type ev)) eqn:E.
    + rewrite messages_of_cons_message, <- app_assoc; [reflexivity|].
      destruct (ev_type ev); [reflexivity | discriminate].
    + now rewrite messages_of_cons_other.
Qed.

Lemma messages_of_all_messages evs :
  all_messages evs ->
  messages_of evs =
  map (fun p => message_of bot_name assistant_replies (fst p) (snd p)) (rev evs).
Proof.
  intros H. unfold Resolver.messages_of. rewrite map_rev. f_equal. f_equal.
  induction H as [|p l Hp _ IH]; [reflexivity|].
  simpl. rewrite Hp. simpl. now rewrite IH.
Qed.

(** C3, as the code has it.  On a reply chain of N message events that can
    all be fetched, each with a reply relation that names the next one and
    the oldest with no relation (or a reply relation that names no event),
    the resolution returns exactly N messages, the oldest event's message
    first.  When the fetch of an event on the way raises, the exception
    leaves [get_conversation_history]: no history is returned. *)
Theorem conversation_history_of_chain event_id evs stop fuel :
  chain event_id evs stop ->
  all_messages evs ->
  length evs < fuel ->
  match stop with
  | None =>
      exists history,
        get_conversation_history bot_name assistant_replies get_event
          fuel event_id = Ok history /\
        history =
          map (fun p => message_of bot_name assistant_replies (fst p) (snd p))
              (rev evs) /\
        length history = length evs
  | Some exc =>
      get_conversation_history bot_name assistant_replies get_event
        fuel event_id = Raise exc
  end.
Proof.
  intros Hc Hall Hfuel. unfold get_conversation_history.
  rewrite (walk_along_chain _ _ _ Hc) by exact Hfuel.
  destruct stop as [exc|]; [reflexivity|].
  rewrite app_nil_r, messages_of_all_messages by exact Hall.
  eexists. split; [reflexivity|]. split; [reflexivity|].
  now rewrite length_map, length_rev.
Qed.

End ResolverFacts.

Section ResolverExamples.
Import Resolver.

Lemma whole_thread_chain :
  chain whole_thread "$2" [("$2", reply_event); ("$1", root_event)] None.
Proof.
  apply chain_reply with (next := "$1"); try reflexivity.
  apply chain_root; reflexivity.
Qed.

Lemma conversation_history_of_chain_witness :
  exists history,
    get_conversation_history "@bot:example.org" ReplyCache.empty whole_thread
      3 "$2" = Ok history /\
    history =
      map (fun p => message_of "@bot:example.org" ReplyCache.empty
                      (fst p) (snd p))
          (rev [("$2", reply_event); ("$1", root_event)]) /\
    length history = 2.
Proof.
  apply (conversation_history_of_chain "@bot:example.org" ReplyCache.empty
           whole_thread "$2" [("$2", reply_event); ("$1", root_event)] None 3).
  - exact whole_thread_chain.
  - repeat constructor.
  - simpl. lia.
Defined.

(** C3 as stated fails: in a thread whose older event cannot be fetched,
    the walk from the reply does not return the message collected so far;
    the transport's exception leaves the function, whatever the budget. *)
Lemma conversation_history_fetch_failure_raises :
  get_conversation_history "@bot:example.org" ReplyCache.empty broken_thread
    2 "$2" = Raise not_found /\
  ~ (exists fuel,
       get_conversation_history "@bot:example.org" ReplyCache.empty
         broken_thread fuel "$2"
       = Ok [message_of "@bot:example.org" ReplyCache.empty "$2" reply_event]).
Proof.
  split; [reflexivity|].
  intros [fuel H].
  destruct fuel as [|[|fuel]]; simpl in H; discriminate.
Qed.

End ResolverExamples.

(** ** Tool-call accumulator and tool phase, on concrete streams *)

Section ToolPhaseFacts.
Import Bot Scenario.

(** C9. Ingesting the two fragments of the example (identifier 1 and name
    weather with the first half of the argument text, then identifier 1
    with the second half) leaves exactly one collected call,
    under identifier 1 and named weather, whose accumulated text decodes to
    the object with the single member location = Espoo; the call built from
    it carries that identifier and name, and the tool is invoked with that
    location (and the requesting user). *)
Theorem tool_call_fragments_round_trip :
  exists loc,
    ingest_all no_locals example_fragments = Ok loc /\
    collected_functions loc =
      [("1", {| fn_name := "weather"; fn_arguments := args_whole |})] /\
    Json.loads args_whole =
      Ok (Json.Object [("location", Json.Str "Espoo")]) /\
    (forall s,
       run_tool (world weather_stream) available_functions "weather"
         (function_args_of args_whole sender) s
       = (Ok ("Sunny, 5 C", available_functions),
          snd (emit (Invoke "weather"
                       [("location", Json.Str "Espoo");
                        ("user", Json.Str sender)]) s))).
Proof.
  eexists. split; [reflexivity|]. split; [reflexivity|].
  split; [reflexivity|]. intros s. reflexivity.
Qed.

(** C4 fails on the code.  With two collected calls of which the second has
    truncated argument text, the unguarded [json.loads] of the status loop
    raises: the exception leaves [chat_gpt_request], no status edit is
    sent, and no tool, not even the well-formed first one, is invoked. *)
Theorem malformed_arguments_abort_tool_phase :
  fst (ask truncated_stream "weather and prices?")
    = Raise (JSONDecodeError "Unterminated string starting at" args_head 1) /\
  edits (log (snd (ask truncated_stream "weather and prices?")))
    = [ellipsis; ellipsis] /\
  invocations (log (snd (ask truncated_stream "weather and prices?"))) = [].
Proof. vm_compute. repeat split. Qed.

(** C5 fails on the code.  After the call to the unknown tool the [except]
    branch has replaced [available_functions] by a text; the lookup of the
    registered tool that follows raises inside [try], and the [except]
    branch then raises itself: the weather tool is never invoked and the
    exception leaves [chat_gpt_request]. *)
Theorem failure_prevents_later_tool_call :
  (forall s,
     run_tool (world unknown_then_weather_stream) available_functions
       "horoscope" (function_args_of "{}" sender) s
     = (Ok ("Function error: 'horoscope'",
            Text "['weather', 'fetch_electricity_prices']"), s)) /\
  (forall s,
     run_tool (world unknown_then_weather_stream)
       (Text "['weather', 'fetch_electricity_prices']")
       "weather" (function_args_of args_whole sender) s
     = (Raise (AttributeError "'str' object has no attribute 'keys'"), s)) /\
  fst (ask unknown_then_weather_stream "horoscope and weather?")
    = Raise (AttributeError "'str' object has no attribute 'keys'") /\
  invocations (log (snd (ask unknown_then_weather_stream
                           "horoscope and weather?"))) = [].
Proof.
  split; [intros s; reflexivity|]. split; [intros s; reflexivity|].
  vm_compute. split; reflexivity.
Qed.

(** C6 fails on the code.  After the single weather call the tool phase has
    appended the assistant message and the tool message, but the recursive
    call receives [messages[:-1]]: the history it is given ends with the
    assistant message and holds no tool message.  The query it is given is
    empty. *)
Theorem last_tool_result_not_passed_on :
  let messages := [developer; user_message "alice" "weather in Espoo?"] in
  let call := assistant_message "1" "weather"
                (Json.dumps tables (function_args_of args_whole sender)) in
  let result := tool_message "1" "weather" "Sunny, 5 C" in
  (exists s,
     tool_phase (world weather_stream) sender reply_id
       [("1", {| fn_name := "weather"; fn_arguments := args_whole |})]
       messages initial
     = (Ok (messages ++ [call; result]), s)) /\
  (forall again, exists s,
     respond (world weather_stream) again sender reply_id false
       weather_stream messages initial
     = again "" (messages ++ [call]) s).
Proof.
  split.
  - eexists. vm_compute. reflexivity.
  - intros again. unfold respond, bind.
    destruct (stream_loop (world weather_stream) reply_id false no_locals
                weather_stream initial) as [[[loc ds]| |] s1] eqn:Hloop;
      vm_compute in Hloop; inversion Hloop; subst; clear Hloop.
    unfold conclude, bind.
    cbv beta iota delta [fst collected_functions collected_messages].
    match goal with
    | |- context [tool_phase ?w ?a ?b ?c ?d ?s] =>
        destruct (tool_phase w a b c d s) as [[msgs| |] s2] eqn:Hphase;
          vm_compute in Hphase; inversion Hphase; subst; clear Hphase
    end.
    eexists. reflexivity.
Qed.

(** C7 fails on the code.  The history handed to the recursive call still
    starts with the developer message of the previous round, so the
    conversation of the second request starts with two developer messages
    (and, by the same slice, lacks the tool message). *)
Theorem continuation_has_two_developer_messages :
  map (fun r => map role (req_messages r))
      (requests (log (snd (ask weather_stream
                             "!gpt-4o !gpt-4o-mini weather in Espoo?"))))
  = [["developer"; "user"];
     ["developer"; "developer"; "user"; "assistant"; "user"]].
Proof. vm_compute. reflexivity. Qed.

End ToolPhaseFacts.

(** ** One streamed response *)

Section StreamFacts.
Import Bot StreamSpec Scenario.
Variable w : World.
Variable event_id : EventID.
Variable is_mistral : bool.

Lemma edits_snoc (l : list Action) (id : EventID) (text : string) :
  edits (l ++ [Edit id text]) = edits l ++ [text].
Proof. unfold edits. rewrite flat_map_app. reflexivity. Qed.

Lemma ingest_keeps_text loc tool_call loc' :
  ingest loc tool_call = Ok loc' ->
  collected_messages loc' = collected_messages loc.
Proof.
  unfold ingest. intros H.
  destruct (delta_name tool_call), (delta_id tool_call), (the_tool_call_id loc),
    (delta_arguments tool_call); simpl in H;
    repeat match type of H with
           | context [match ?x with _ => _ end] => destruct x; simpl in H
           end;
    try discriminate; inversion H; reflexivity.
Qed.

Lemma ingest_all_keeps_text tool_calls : forall loc loc',
  ingest_all loc tool_calls = Ok loc' ->
  collected_messages loc' = collected_messages loc.
Proof.
  induction tool_calls as [|tc rest IH]; simpl; intros loc loc' H.
  - now inversion H.
  - destruct (ingest loc tc) as [loc1| |] eqn:E; try discriminate.
    rewrite (IH _ _ H). exact (ingest_keeps_text _ _ _ E).
Qed.

Lemma collect_text loc chunk_message :
  collected_messages (collect loc chunk_message) =
  collected_messages loc
  ++ match chunk_message with
     | Some c => if PyStr.nonempty c then [c] else []
     | None => []
     end.
Proof.
  unfold collect. destruct chunk_message as [c|]; simpl.
  - destruct (PyStr.nonempty c); simpl; [reflexivity | now rewrite app_nil_r].
  - now rewrite app_nil_r.
Qed.

Lemma process_chunk_fields chunk processed :
  process_chunk chunk is_mistral = Ok processed ->
  p_content processed = chunk_content chunk /\
  p_finish_reason processed = chunk_finish_reason chunk.
Proof.
  unfold process_chunk. destruct is_mistral, chunk; intros H;
    inversion H; simpl; split; reflexivity.
Qed.

Lemma partial_text_unfinished loc finish_reason :
  partial_text loc finish_reason =
  (PyStr.join (collected_messages loc)
   ++ (if unfinished finish_reason then ellipsis else ""))%string.
Proof.
  unfold partial_text, unfinished.
  destruct (negb (PyStr.truthy finish_reason) || _); [reflexivity|].
  clear. induction (PyStr.join (collected_messages loc)) as [|c s IH];
    simpl; [reflexivity | now rewrite <- IH].
Qed.

(** One iteration of the stream loop, read from the instance before and
    after it: it edits exactly when the rule allows it. *)
Lemma stream_step_spec loc chunk s loc' d s' :
  stream_step w event_id is_mistral loc chunk s = (Ok (loc', d), s') ->
  collected_messages loc' = collected_messages loc ++ delta_of chunk /\
  let text :=
    (PyStr.join (collected_messages loc')
     ++ (if unfinished (chunk_finish_reason chunk) then ellipsis else ""))%string in
  (may_edit w s chunk /\
   log s' = log s ++ [Edit event_id text] /\
   assistant_replies s' = ReplyCache.store (assistant_replies s) event_id text /\
   exists n, clock s <= n /\ clock s' = S n /\
             last_edit_time s' = Some (time_at w n))
  \/
  (~ may_edit w s chunk /\
   log s' = log s /\
   assistant_replies s' = assistant_replies s /\
   last_edit_time s' = last_edit_time s /\
   clock s' = S (clock s)).
Proof.
  unfold stream_step, bind, lift.
  destruct (process_chunk chunk is_mistral) as [processed| |] eqn:Hp;
    try discriminate.
  destruct (process_chunk_fields _ _ Hp) as [Hc Hf].
  destruct (match p_tool_calls processed with
            | Some tool_calls => ingest_all loc tool_calls
            | None => Ok loc
            end) as [loc1| |] eqn:Hi; try discriminate.
  assert (Htext : collected_messages loc1 = collected_messages loc).
  { destruct (p_tool_calls processed).
    - now apply ingest_all_keeps_text in Hi.
    - now inversion Hi. }
  unfold due, bind, get_last_edit_time, now, ret, may_edit.
  destruct (last_edit_time s) as [t0|] eqn:Hlast; simpl.
  - destruct (Qltb (time_at w (clock s) - t0) delay
              && negb (PyStr.truthy (p_finish_reason processed))) eqn:Hdue;
      simpl; intros H; inversion H; subst; clear H; simpl.
    + rewrite collect_text, Htext, Hc.
      split; [reflexivity|]. right.
      apply andb_prop in Hdue as [Hq Hfin].
      rewrite Hf in Hfin. apply negb_true_iff in Hfin.
      unfold Qltb in Hq. apply negb_true_iff in Hq.
      split; [| repeat split; auto].
      intros [Ht|Hle]; [congruence|].
      apply Qle_bool_iff in Hle. congruence.
    + rewrite collect_text, Htext, Hc.
      split; [reflexivity|]. left.
      rewrite partial_text_unfinished, collect_text, Htext, Hf.
      split; [| split; [reflexivity | split; [reflexivity|]]].
      * apply andb_false_iff in Hdue as [Hq|Hfin].
        -- right. unfold Qltb in Hq. apply negb_false_iff in Hq.
           now apply Qle_bool_iff.
        -- left. apply negb_false_iff in Hfin. now rewrite <- Hf.
      * exists (S (clock s)). repeat split; auto.
  - intros H; inversion H; subst; clear H; simpl.
    rewrite collect_text, Htext, Hc.
    split; [reflexivity|]. left.
    rewrite partial_text_unfinished, collect_text, Htext, Hf.
    split; [now right|]. split; [reflexivity|]. split; [reflexivity|].
    exists (clock s). repeat split; auto.
Qed.

(** The loop over a stream that is cut in two. *)
Lemma stream_loop_app before : forall after loc s,
  stream_loop w event_id is_mistral loc (before ++ after) s =
  match stream_loop w event_id is_mistral loc before s with
  | (Ok (loc1, ds1), s1) =>
      match stream_loop w event_id is_mistral loc1 after s1 with
      | (Ok (loc2, ds2), s2) => (Ok (loc2, ds1 ++ ds2), s2)
      | (Raise exc, s2) => (Raise exc, s2)
      | (OutOfFuel, s2) => (OutOfFuel, s2)
      end
  | (Raise exc, s1) => (Raise exc, s1)
  | (OutOfFuel, s1) => (OutOfFuel, s1)
  end.
Proof.
  induction before as [|chunk rest IH]; intros after loc s.
  - simpl. unfold ret.
    destruct (stream_loop w event_id is_mistral loc after s)
      as [[[loc2 ds2]| |] s2]; reflexivity.
  - simpl. unfold bind.
    destruct (stream_step w event_id is_mistral loc chunk s)
      as [[[loc1 d]| |] s1]; try reflexivity.
    simpl. rewrite IH.
    destruct (stream_loop w event_id is_mistral loc1 rest s1)
      as [[[loc2 ds2]| |] s2]; try reflexivity.
    simpl.
    destruct (stream_loop w event_id is_mistral loc2 after s2)
      as [[[loc3 ds3]| |] s3]; reflexivity.
Qed.

(** What a completed loop has collected. *)
Lemma stream_loop_text chunks : forall loc s loc' decisions s',
  stream_loop w event_id is_mistral loc chunks s = (Ok (loc', decisions), s') ->
  collected_messages loc' = collected_messages loc ++ deltas chunks.
Proof.
  induction chunks as [|chunk rest IH]; intros loc s loc' decisions s' Hrun.
  - simpl in Hrun. inversion Hrun; subst. simpl. now rewrite app_nil_r.
  - simpl in Hrun. unfold bind in Hrun.
    destruct (stream_step w event_id is_mistral loc chunk s)
      as [[[loc1 d]| |] s1] eqn:Hstep; try discriminate.
    simpl in Hrun.
    destruct (stream_loop w event_id is_mistral loc1 rest s1)
      as [[[loc2 ds]| |] s2] eqn:Hrest; try discriminate.
    inversion Hrun; subst; clear Hrun.
    destruct (stream_step_spec _ _ _ _ _ _ Hstep) as [Htext _].
    rewrite (IH _ _ _ _ _ Hrest), Htext. simpl.
    now rewrite <- app_assoc.
Qed.

(** A chunk without tool-call fragments is always consumed, and leaves the
    collected functions alone. *)
Lemma stream_step_plain loc chunk s :
  plain is_mistral chunk ->
  exists loc' d s',
    stream_step w event_id is_mistral loc chunk s = (Ok (loc', d), s') /\
    collected_functions loc' = collected_functions loc.
Proof.
  intros Hplain. unfold stream_step, bind, lift.
  assert (Hp : exists processed,
             process_chunk chunk is_mistral = Ok processed /\
             (p_tool_calls processed = None \/ p_tool_calls processed = Some [])).
  { destruct chunk as [c f t|d f]; simpl in Hplain.
    - destruct Hplain as [-> Ht]. eexists. split; [reflexivity | exact Ht].
    - rewrite Hplain. eexists. split; [reflexivity | now left]. }
  destruct Hp as (processed & -> & Ht).
  assert (Hi : match p_tool_calls processed with
               | Some tool_calls => ingest_all loc tool_calls
               | None => Ok loc
               end = Ok loc).
  { destruct Ht as [->| ->]; reflexivity. }
  rewrite Hi.
  assert (Hcol : collected_functions (collect loc (p_content processed))
                 = collected_functions loc).
  { unfold collect. destruct (PyStr.truthy (p_content processed)); reflexivity. }
  unfold due, bind, get_last_edit_time, now, ret.
  destruct (last_edit_time s) as [t0|]; simpl.
  - destruct (Qltb (time_at w (clock s) - t0) delay
              && negb (PyStr.truthy (p_finish_reason processed))); simpl;
      do 3 eexists; (split; [reflexivity | exact Hcol]).
  - do 3 eexists. split; [reflexivity | exact Hcol].
Qed.

Lemma stream_loop_plain chunks : forall loc s,
  Forall (plain is_mistral) chunks ->
  exists loc' decisions s',
    stream_loop w event_id is_mistral loc chunks s = (Ok (loc', decisions), s') /\
    collected_functions loc' = collected_functions loc.
Proof.
  induction chunks as [|chunk rest IH]; intros loc s Hall.
  - do 3 eexists. split; reflexivity.
  - inversion Hall as [|? ? Hc Hrest]; subst.
    destruct (stream_step_plain loc chunk s Hc) as (loc1 & d & s1 & Hstep & Hf1).
    destruct (IH loc1 s1 Hrest) as (loc2 & ds & s2 & Hloop & Hf2).
    simpl. unfold bind. rewrite Hstep. simpl. rewrite Hloop. simpl.
    do 3 eexists. split; [reflexivity|]. now rewrite Hf2.
Qed.

(** An iteration that raises does so before it touches the state. *)
Lemma stream_step_raise loc chunk s exc s' :
  stream_step w event_id is_mistral loc chunk s = (Raise exc, s') -> s' = s.
Proof.
  unfold stream_step, bind, lift.
  destruct (process_chunk chunk is_mistral) as [processed| |];
    [| intros H; now inversion H | discriminate].
  destruct (match p_tool_calls processed with
            | Some tool_calls => ingest_all loc tool_calls
            | None => Ok loc
            end) as [loc1| |]; [| intros H; now inversion H | discriminate].
  unfold due, bind, get_last_edit_time, now, ret.
  destruct (last_edit_time s) as [t0|]; simpl.
  - destruct (Qltb (time_at w (clock s) - t0) delay
              && negb (PyStr.truthy (p_finish_reason processed)));
      simpl; discriminate.
  - discriminate.
Qed.

(** A stream loop that raises has completed the iterations before the
    failing chunk, and sent nothing after them. *)
Lemma stream_loop_raise chunks : forall loc s exc s',
  stream_loop w event_id is_mistral loc chunks s = (Raise exc, s') ->
  exists before chunk after loc1 decisions,
    chunks = before ++ chunk :: after /\
    stream_loop w event_id is_mistral loc before s = (Ok (loc1, decisions), s').
Proof.
  induction chunks as [|chunk rest IH]; intros loc s exc s' H.
  - discriminate.
  - simpl in H. unfold bind in H.
    destruct (stream_step w event_id is_mistral loc chunk s)
      as [[[loc1 d]| |] s1] eqn:Hstep; try discriminate.
    + simpl in H.
      destruct (stream_loop w event_id is_mistral loc1 rest s1)
        as [[[loc2 ds]| |] s2] eqn:Hrest; try discriminate.
      inversion H; subst; clear H.
      destruct (IH _ _ _ _ Hrest)
        as (before & c & after & loc3 & ds & -> & Hbefore).
      exists (chunk :: before), c, after, loc3, (d :: ds).
      split; [reflexivity|].
      simpl. unfold bind. rewrite Hstep. simpl. rewrite Hbefore. reflexivity.
    + inversion H; subst; clear H.
      apply stream_step_raise in Hstep. subst.
      exists [], chunk, rest, loc, []. split; reflexivity.
Qed.

(** C1.  During one streamed response:
    - an iteration of the stream loop edits exactly when its chunk carries
      a finish reason, or the instance has never stamped an edit, or the
      reading of the clock it takes is at least one second after the stamp
      of the previous edit; the text it shows is the text collected so far,
      followed by the ellipsis when the finish reason is null or the
      tool-call marker; it stamps the edit with the reading of the clock it
      takes next, and an iteration that does not edit leaves the stamp as
      it is;
    - a loop that raises has sent the edits of the chunks before the
      failing one, and nothing else;
    - when the stream carries no tool-call fragment, the loop completes
      and is followed by exactly one more edit, whose text is the
      concatenation of the text deltas with nothing appended.
    A stream that ends in a tool call never gets that final edit: after
    the status edit and the call of the tool, the recursive call raises in
    its override scan, on the null content of the assistant message the
    tool phase has just appended. *)
Theorem throttled_stream_edits :
  (forall before chunk s loc1 ds1 s1 loc2 ds2 s2,
     stream_loop w event_id is_mistral no_locals before s
       = (Ok (loc1, ds1), s1) ->
     stream_loop w event_id is_mistral no_locals (before ++ [chunk]) s
       = (Ok (loc2, ds2), s2) ->
     (may_edit w s1 chunk /\
      log s2 = log s1 ++ [Edit event_id (shown_at before chunk)] /\
      exists n, clock s1 <= n /\ clock s2 = S n /\
                last_edit_time s2 = Some (time_at w n))
     \/
     (~ may_edit w s1 chunk /\
      log s2 = log s1 /\
      last_edit_time s2 = last_edit_time s1)) /\
  (forall chunks s exc s',
     stream_loop w event_id is_mistral no_locals chunks s = (Raise exc, s') ->
     exists before chunk after loc decisions,
       chunks = before ++ chunk :: after /\
       stream_loop w event_id is_mistral no_locals before s
         = (Ok (loc, decisions), s')) /\
  (forall chunks s,
     Forall (plain is_mistral) chunks ->
     exists loc decisions s',
       stream_loop w event_id is_mistral no_locals chunks s
         = (Ok (loc, decisions), s') /\
       forall again sender_name messages,
       exists s'',
         respond w again sender_name event_id is_mistral chunks messages s
           = (Ok tt, s'') /\
         log s'' = log s' ++ [Edit event_id (PyStr.join (deltas chunks))]) /\
  (fst (ask weather_stream "weather in Espoo?") = Raise Override.not_a_string /\
   log (snd (ask weather_stream "weather in Espoo?")) =
     [Send {| req_messages := [developer; user_message "alice" "weather in Espoo?"];
              req_model := "gpt-4o"; req_tools := true; req_mistral := false |};
      Edit reply_id ellipsis;
      Edit reply_id ellipsis;
      Edit reply_id "Calling functions: weather({'location': 'Espoo'}) ";
      Invoke "weather" [("location", Json.Str "Espoo");
                        ("user", Json.Str sender)]]).
Proof.
  split; [| split; [| split]].
  - intros before chunk s loc1 ds1 s1 loc2 ds2 s2 Hbefore Hall.
    rewrite stream_loop_app, Hbefore in Hall. simpl in Hall. unfold bind in Hall.
    destruct (stream_step w event_id is_mistral loc1 chunk s1)
      as [[[loc3 d]| |] s3] eqn:Hstep; try discriminate.
    simpl in Hall. inversion Hall; subst; clear Hall.
    pose proof (stream_loop_text _ _ _ _ _ _ Hbefore) as Htext1.
    simpl in Htext1.
    destruct (stream_step_spec _ _ _ _ _ _ Hstep)
      as (Htext & [(Hmay & Hlog & _ & Hstamp)|(Hnot & Hlog & _ & Hlast & _)]).
    + left. split; [exact Hmay|]. split; [| exact Hstamp].
      rewrite Hlog, Htext, Htext1. unfold shown_at, deltas.
      rewrite flat_map_app. simpl. now rewrite app_nil_r.
    + right. repeat split; auto.
  - intros chunks s exc s' Hrun. exact (stream_loop_raise _ _ _ _ _ Hrun).
  - intros chunks s Hplain.
    destruct (stream_loop_plain chunks no_locals s Hplain)
      as (loc & decisions & s' & Hrun & Hfns).
    exists loc, decisions, s'. split; [exact Hrun|].
    intros again sender_name messages.
    pose proof (stream_loop_text _ _ _ _ _ _ Hrun) as Hmsgs.
    unfold respond, bind. rewrite Hrun. simpl fst.
    unfold conclude. rewrite Hfns. simpl collected_functions.
    eexists. split; [reflexivity|].
    simpl. now rewrite Hmsgs.
  - vm_compute. split; reflexivity.
Qed.

End StreamFacts.

Section StreamExamples.
Import Bot StreamSpec Scenario.

(** The second chunk of the plain answer comes 0.4 s after the stamp of the
    first edit and is not shown; the stream is followed by the final
    edit. *)
Lemma throttled_stream_edits_witness :
  (~ may_edit (world answer_stream)
       (snd (stream_loop (world answer_stream) reply_id false no_locals
               [text_chunk "It is "] initial))
       (text_chunk "sunny") /\
   log (snd (stream_loop (world answer_stream) reply_id false no_locals
               [text_chunk "It is "; text_chunk "sunny"] initial))
   = [Edit reply_id "It is …"]) /\
  exists loc decisions s',
    stream_loop (world answer_stream) reply_id false no_locals answer_stream
      initial = (Ok (loc, decisions), s') /\
    forall again sender_name messages,
    exists s'',
      respond (world answer_stream) again sender_name reply_id false
        answer_stream messages initial = (Ok tt, s'') /\
      log s'' = log s' ++ [Edit reply_id (PyStr.join (deltas answer_stream))].
Proof.
  destruct (throttled_stream_edits (world answer_stream) reply_id false)
    as (Hrule & _ & Hfinal & _).
  split.
  - destruct (Hrule [text_chunk "It is "] (text_chunk "sunny") initial
                _ _ _ _ _ _ eq_refl eq_refl)
      as [(_ & Hlog & _)|(Hnot & Hlog & _)].
    + exfalso. vm_compute in Hlog. discriminate Hlog.
    + split; [exact Hnot | exact Hlog].
  - apply Hfinal. repeat constructor.
Defined.

End StreamExamples.

(** ** Characters *)

Section Utf8Facts.
Import Utf8.

Lemma length_append (a b : string) :
  String.length (a ++ b) = String.length a + String.length b.
Proof. induction a as [|c a IH]; simpl; [reflexivity | now rewrite IH]. Qed.

Lemma append_nil_r (s : string) : (s ++ "")%string = s.
Proof. induction s as [|c s IH]; simpl; [reflexivity | now rewrite IH]. Qed.

Lemma append_assoc (a b c : string) :
  ((a ++ b) ++ c)%string = (a ++ (b ++ c))%string.
Proof. induction a as [|x a IH]; simpl; [reflexivity | now rewrite IH]. Qed.

Lemma substring_0_0 (s : string) : substring 0 0 s = EmptyString.
Proof. destruct s; reflexivity. Qed.

(** The continuation bytes that [tail] reads are the first [n] bytes. *)
Lemma tail_split n : forall acc s cp r,
  tail n acc s = Some (cp, r) -> s = (substring 0 n s ++ r)%string.
Proof.
  induction n as [|n IH]; intros acc s cp r H.
  - simpl in H. inversion H; subst. now rewrite substring_0_0.
  - destruct s as [|c s']; [discriminate|]. simpl in H.
    destruct (is_cont c); [| discriminate].
    simpl. f_equal. exact (IH _ _ _ _ H).
Qed.

Lemma tail_app n : forall acc s cp r y,
  tail n acc s = Some (cp, r) ->
  tail n acc (s ++ y) = Some (cp, (r ++ y)%string) /\
  substring 0 n (s ++ y) = substring 0 n s.
Proof.
  induction n as [|n IH]; intros acc s cp r y H.
  - simpl in H. inversion H; subst. simpl. now rewrite !substring_0_0.
  - destruct s as [|c s']; [discriminate|]. simpl in H. simpl.
    destruct (is_cont c); [| discriminate].
    destruct (IH _ _ _ _ y H) as [Ht Hs]. now rewrite Ht, Hs.
Qed.

Lemma tail_none_app n : forall acc s c x,
  is_cont c = false -> tail n acc s = None ->
  tail n acc (s ++ String c x) = None.
Proof.
  induction n as [|n IH]; intros acc s c x Hc H; [discriminate|].
  destruct s as [|c1 s']; simpl.
  - now rewrite Hc.
  - simpl in H. destruct (is_cont c1); [now apply IH | reflexivity].
Qed.


Lemma sequence_split n lead low high c s' ch r :
  sequence n lead low high c s' = (ch, r) ->
  String c s' = (bytes ch ++ r)%string /\ bytes ch <> EmptyString.
Proof.
  unfold sequence.
  destruct (tail n lead s') as [[cp rest]|] eqn:Ht.
  - destruct ((low <=? cp)%N && (cp <=? high)%N);
      intros H; inversion H; subst; simpl; (split; [| discriminate]).
    + f_equal. exact (tail_split _ _ _ _ _ Ht).
    + reflexivity.
  - intros H; inversion H; subst; simpl. split; [reflexivity | discriminate].
Qed.


Lemma sequence_app_break n lead low high c s' c0 x ch r :
  is_cont c0 = false ->
  sequence n lead low high c s' = (ch, r) ->
  sequence n lead low high c (s' ++ String c0 x)
  = (ch, (r ++ String c0 x)%string).
Proof.
  intros Hc. unfold sequence.
  destruct (tail n lead s') as [[cp rest]|] eqn:Ht.
  - destruct (tail_app _ _ _ _ _ (String c0 x) Ht) as [Ht' Hs].
    rewrite Ht', Hs.
    destruct ((low <=? cp)%N && (cp <=? high)%N);
      intros H; inversion H; subst; reflexivity.
  - rewrite (tail_none_app _ _ _ _ x Hc Ht).
    intros H; inversion H; subst; reflexivity.
Qed.

(** The first character is a non-empty prefix. *)
Lemma next_split s ch r :
  next s = Some (ch, r) ->
  s = (bytes ch ++ r)%string /\ bytes ch <> EmptyString.
Proof.
  destruct s as [|c s']; [discriminate|]. unfold next.
  intros H. inversion H as [H1]; clear H.
  destruct (byte c <? 128)%N.
  { inversion H1; subst; simpl. split; [reflexivity | discriminate]. }
  destruct (byte c <? 192)%N.
  { inversion H1; subst; simpl. split; [reflexivity | discriminate]. }
  destruct (byte c <? 224)%N; [exact (sequence_split _ _ _ _ _ _ _ _ H1)|].
  destruct (byte c <? 240)%N; [exact (sequence_split _ _ _ _ _ _ _ _ H1)|].
  destruct (byte c <? 248)%N; [exact (sequence_split _ _ _ _ _ _ _ _ H1)|].
  inversion H1; subst; simpl. split; [reflexivity | discriminate].
Qed.

Lemma next_shorter s ch r :
  next s = Some (ch, r) -> String.length r < String.length s.
Proof.
  intros H. destruct (next_split _ _ _ H) as [Hs Hne].
  rewrite Hs, length_append. destruct (bytes ch); [congruence | simpl; lia].
Qed.

Lemma next_nonempty c s' : exists ch r, next (String c s') = Some (ch, r).
Proof. unfold next. eexists. eexists. apply f_equal. apply surjective_pairing. Qed.


(** Any first character stays the first one before a byte that continues
    no sequence. *)
Lemma next_app_break s c0 x ch r :
  is_cont c0 = false ->
  next s = Some (ch, r) ->
  next (s ++ String c0 x) = Some (ch, (r ++ String c0 x)%string).
Proof.
  intros Hc. destruct s as [|c s']; [discriminate|]. simpl append. unfold next.
  intros H. inversion H as [H1]; clear H. f_equal.
  destruct (byte c <? 128)%N; [inversion H1; subst; reflexivity|].
  destruct (byte c <? 192)%N; [inversion H1; subst; reflexivity|].
  destruct (byte c <? 224)%N;
    [exact (sequence_app_break _ _ _ _ _ _ _ x _ _ Hc H1)|].
  destruct (byte c <? 240)%N;
    [exact (sequence_app_break _ _ _ _ _ _ _ x _ _ Hc H1)|].
  destruct (byte c <? 248)%N;
    [exact (sequence_app_break _ _ _ _ _ _ _ x _ _ Hc H1)|].
  inversion H1; subst; reflexivity.
Qed.

(** The budget of [chars] is enough. *)
Lemma chars_upto_stable f1 : forall f2 s,
  String.length s <= f1 -> String.length s <= f2 ->
  chars_upto f1 s = chars_upto f2 s.
Proof.
  induction f1 as [|f1 IH]; intros f2 s H1 H2.
  - destruct s; [| simpl in H1; lia]. destruct f2; reflexivity.
  - destruct f2 as [|f2].
    + destruct s; [reflexivity | simpl in H2; lia].
    + simpl. destruct (next s) as [[ch r]|] eqn:Hn; [| reflexivity].
      apply next_shorter in Hn. f_equal. apply IH; lia.
Qed.

Lemma chars_next s ch r : next s = Some (ch, r) -> chars s = ch :: chars r.
Proof.
  intros H. unfold chars. pose proof (next_shorter _ _ _ H) as Hlt.
  destruct (String.length s) as [|n] eqn:Hlen; [lia|].
  simpl. rewrite H. f_equal. apply chars_upto_stable; lia.
Qed.

Lemma chars_empty : chars EmptyString = [].
Proof. reflexivity. Qed.

Lemma text_app (a b : list Char) : text (a ++ b) = (text a ++ text b)%string.
Proof.
  induction a as [|ch a IH]; simpl; [reflexivity|].
  now rewrite IH, append_assoc.
Qed.

(** Induction on a text, character by character. *)
Lemma chars_ind (P : string -> Prop) :
  P EmptyString ->
  (forall s ch r, next s = Some (ch, r) -> P r -> P s) ->
  forall s, P s.
Proof.
  intros Hnil Hstep s.
  remember (String.length s) as n eqn:Hn.
  revert s Hn. induction n as [n IH] using lt_wf_ind. intros s Hn.
  destruct s as [|c s']; [exact Hnil|].
  destruct (next_nonempty c s') as (ch & r & Hnext).
  apply (Hstep _ _ _ Hnext).
  apply (IH (String.length r)); [| reflexivity].
  subst n. exact (next_shorter _ _ _ Hnext).
Qed.

Lemma text_chars (s : string) : text (chars s) = s.
Proof.
  induction s as [|s ch r Hnext IH] using chars_ind; [reflexivity|].
  rewrite (chars_next _ _ _ Hnext). simpl. rewrite IH.
  symmetry. exact (proj1 (next_split _ _ _ Hnext)).
Qed.


Lemma take_while_app (p : N -> bool) (cs : list Char) :
  fst (take_while p cs) ++ snd (take_while p cs) = cs.
Proof.
  induction cs as [|ch cs IH]; simpl; [reflexivity|].
  destruct (p (code ch)); [| reflexivity].
  destruct (take_while p cs) as [a b]. simpl in *. now rewrite IH.
Qed.


Lemma span_app (p : N -> bool) (s : string) :
  (fst (span p s) ++ snd (span p s))%string = s.
Proof.
  unfold span. pose proof (take_while_app p (chars s)) as H.
  destruct (take_while p (chars s)) as [a b]. simpl in *.
  now rewrite <- text_app, H, text_chars.
Qed.

(** The run is empty exactly when the first character, if there is one,
    does not satisfy [p]. *)
Lemma span_none (p : N -> bool) (s : string) :
  fst (span p s) = EmptyString <->
  match next s with
  | Some (ch, _) => p (code ch) = false
  | None => True
  end.
Proof.
  unfold span. destruct (next s) as [[ch r]|] eqn:Hnext.
  - rewrite (chars_next _ _ _ Hnext). simpl.
    destruct (p (code ch)) eqn:Hp.
    + destruct (take_while p (chars r)) as [a b]. simpl.
      destruct (next_split _ _ _ Hnext) as [_ Hne].
      split; [| discriminate].
      destruct (bytes ch); [congruence | discriminate].
    + simpl. split; reflexivity.
  - destruct s; [| discriminate]. simpl. split; auto.
Qed.


End Utf8Facts.

(** ** The JSON scanner *)

Section JsonFacts.
Import Json.

Lemma skip_ws_length s : String.length (skip_ws s) <= String.length s.
Proof.
  induction s as [|c s IH]; simpl; [lia|]. destruct (is_ws c); simpl; lia.
Qed.

Lemma byte_span_length (p : ascii -> bool) s :
  String.length (snd (PyStr.span p s)) <= String.length s.
Proof.
  induction s as [|c s IH]; simpl; [lia|].
  destruct (p c); simpl; [| lia].
  destruct (PyStr.span p s); simpl in *; lia.
Qed.

Lemma drop_prefix_length p : forall s r,
  PyStr.drop_prefix p s = Some r ->
  String.length s = String.length p + String.length r.
Proof.
  induction p as [|a p IH]; intros s r H; simpl in H.
  - now inversion H.
  - destruct s as [|b s]; [discriminate|].
    destruct (Ascii.eqb a b); [| discriminate].
    simpl. now rewrite (IH _ _ H).
Qed.

Lemma prepend_found piece (x : scanned string) t rest :
  prepend piece x = Found t rest -> exists t', x = Found t' rest.
Proof. destruct x; simpl; intros H; inversion H; subst. now eexists. Qed.

Lemma prepend_exhausted piece (x : scanned string) :
  prepend piece x = Exhausted -> x = Exhausted.
Proof. destruct x; simpl; intros H; [discriminate | discriminate | reflexivity]. Qed.

(** A string literal is scanned without any budget, and what is left
    after it is shorter. *)
Lemma scan_string_progress opening : forall n s,
  String.length s <= n ->
  scan_string opening s <> Exhausted /\
  forall t r, scan_string opening s = Found t r ->
              String.length r < String.length s.
Proof.
  assert (Hpre : forall piece x m,
             (scan_string opening x <> Exhausted /\
              forall t r, scan_string opening x = Found t r ->
                          String.length r < String.length x) ->
             String.length x < m ->
             prepend piece (scan_string opening x) <> Exhausted /\
             forall t r, prepend piece (scan_string opening x) = Found t r ->
                         String.length r < m).
  { intros piece x m [Hne Hlt] Hm. split.
    - intros H. apply prepend_exhausted in H. contradiction.
    - intros t r H. apply prepend_found in H as [t' H].
      apply Hlt in H. lia. }
  induction n as [|n IH]; intros s Hlen.
  - destruct s; [| simpl in Hlen; lia]. simpl. split; [discriminate|].
    intros t r H. discriminate.
  - destruct s as [|c s']; [simpl; split; [discriminate | intros; discriminate]|].
    simpl in Hlen.
    change (String.length (String c s')) with (S (String.length s')).
    cbn [scan_string].
    repeat match goal with
           | |- context [if ?b then _ else _] => destruct b
           | |- context [match ?x with _ => _ end] => destruct x
           end;
      first
        [ split; [discriminate | intros ? ? H; discriminate H]
        | split; [discriminate
                 | intros ? ? H; inversion H; subst; simpl; lia]
        | apply Hpre; [apply IH; simpl in *; lia | simpl in *; lia] ].
Qed.

Lemma scan_number_length s v r :
  scan_number s = Some (v, r) -> String.length r < String.length s.
Proof.
  unfold scan_number.
  match goal with
  | |- (let (_, _) := ?p in _) = _ -> _ =>
      assert (H1 : String.length (snd p) <= String.length s);
        [| destruct p as [sign s1]]
  end.
  { destruct s as [|c s']; [simpl; lia|].
    destruct c as [[] [] [] [] [] [] [] []]; simpl; lia. }
  simpl in H1.
  match goal with
  | |- match ?p with _ => _ end = _ -> _ =>
      assert (H2 : forall i s2, p = Some (i, s2) ->
                                String.length s2 < String.length s1);
        [| destruct p as [[i s2]|]; [| discriminate]]
  end.
  { intros i s2. destruct s1 as [|c s']; [discriminate|].
    assert (Hd : (if is_digit c
                  then Some (PyStr.span is_digit (String c s')) else None)
                 = Some (i, s2) -> String.length s2 < String.length (String c s')).
    { destruct (is_digit c) eqn:Hc; [| discriminate].
      intros H. inversion H as [Hs]. simpl in Hs. rewrite Hc in Hs.
      pose proof (byte_span_length is_digit s') as Hl.
      destruct (PyStr.span is_digit s') as [a b]. inversion Hs; subst.
      simpl in *. lia. }
    destruct c as [[] [] [] [] [] [] [] []]; try exact Hd.
    intros H. inversion H; subst. simpl. lia. }
  specialize (H2 i s2 eq_refl).
  match goal with
  | |- (let (_, _) := ?p in _) = _ -> _ =>
      assert (H3 : String.length (snd p) <= String.length s2);
        [| destruct p as [frac s3]]
  end.
  { destruct s2 as [|c s']; [simpl; lia|].
    pose proof (byte_span_length is_digit s') as Hl.
    destruct c as [[] [] [] [] [] [] [] []]; try (simpl; lia).
    destruct (PyStr.span is_digit s') as [[|d ds] b]; simpl in *; lia. }
  simpl in H3.
  match goal with
  | |- (let (_, _) := ?p in _) = _ -> _ =>
      assert (H4 : String.length (snd p) <= String.length s3);
        [| destruct p as [expo s4]]
  end.
  { destruct s3 as [|e r0]; [simpl; lia|].
    destruct ((e =? "e")%char || (e =? "E")%char); [| simpl; lia].
    match goal with
    | |- context [let (_, _) := ?p in _] =>
        assert (H5 : String.length (snd p) <= String.length r0);
          [| destruct p as [sg r1]]
    end.
    { destruct r0 as [|c s']; [simpl; lia|].
      destruct c as [[] [] [] [] [] [] [] []]; simpl; lia. }
    simpl in H5.
    pose proof (byte_span_length is_digit r1) as Hl.
    destruct (PyStr.span is_digit r1) as [[|d ds] b]; simpl in *; lia. }
  simpl in H4.
  destruct frac, expo; intros H; inversion H; subst; lia.
Qed.

Lemma literal_progress word v s :
  word <> EmptyString ->
  literal word v s <> Exhausted /\
  forall v' r, literal word v s = Found v' r ->
               String.length r < String.length s.
Proof.
  intros Hw. unfold literal.
  destruct (PyStr.drop_prefix word s) as [r0|] eqn:Hd.
  - split; [discriminate|]. intros v' r H. inversion H; subst.
    apply drop_prefix_length in Hd. destruct word; [congruence|].
    simpl in Hd. lia.
  - split; [discriminate | intros; discriminate].
Qed.

(** A budget above twice the length of the text is never used up, and
    every value, item list or member list that is read takes at least one
    character. *)
Lemma scanner_progress : forall fuel,
  (forall s, 2 * String.length s + 1 <= fuel ->
     scan_value fuel s <> Exhausted /\
     forall v r, scan_value fuel s = Found v r ->
                 String.length r < String.length s) /\
  (forall s, 2 * String.length s + 2 <= fuel ->
     scan_items fuel s <> Exhausted /\
     forall vs r, scan_items fuel s = Found vs r ->
                  String.length r < String.length s) /\
  (forall s acc, 2 * String.length s + 2 <= fuel ->
     scan_members fuel s acc <> Exhausted /\
     forall ms r, scan_members fuel s acc = Found ms r ->
                  String.length r < String.length s).
Proof.
  induction fuel as [|fuel (IHv & IHi & IHm)].
  { repeat split; intros; simpl in *; lia. }
  split; [| split].
  - intros s Hf.
    destruct s as [|c s']; [split; [discriminate | intros; discriminate]|].
    cbn [scan_value]. simpl String.length in *.
    destruct (Ascii.eqb c PyStr.dquote_char).
    { destruct (scan_string_progress (String c s') _ s' (le_n _)) as [Hne Hlt].
      destruct (scan_string (String c s') s') as [t r| |]; [| | congruence].
      - split; [discriminate|]. intros v r0 H. inversion H; subst.
        specialize (Hlt _ _ eq_refl). lia.
      - split; [discriminate | intros; discriminate]. }
    destruct (Ascii.eqb c "{").
    { assert (Hm : forall x, String.length x <= String.length s' ->
                match scan_members fuel x [] with
                | Found ms r => Found (Object ms) r
                | Bad msg place => Bad msg place
                | Exhausted => Exhausted
                end <> Exhausted /\
                forall v r,
                  match scan_members fuel x [] with
                  | Found ms r => Found (Object ms) r
                  | Bad msg place => Bad msg place
                  | Exhausted => Exhausted
                  end = Found v r -> String.length r < S (String.length s')).
      { intros x Hx. destruct (IHm x [] ltac:(lia)) as [Hne Hlt].
        destruct (scan_members fuel x []) as [ms r| |]; [| | congruence].
        - split; [discriminate|]. intros v r0 H. inversion H; subst.
          specialize (Hlt _ _ eq_refl). lia.
        - split; [discriminate | intros; discriminate]. }
      pose proof (skip_ws_length s') as Hws.
      destruct (skip_ws s') as [|c1 s1]; [apply Hm; simpl; lia|].
      simpl in Hws.
      destruct c1 as [[] [] [] [] [] [] [] []];
        try (apply Hm; simpl; lia).
      split; [discriminate|]. intros v r H. inversion H; subst. lia. }
    destruct (Ascii.eqb c "[").
    { assert (Hi : forall x, String.length x <= String.length s' ->
                match scan_items fuel x with
                | Found vs r => Found (Array vs) r
                | Bad msg place => Bad msg place
                | Exhausted => Exhausted
                end <> Exhausted /\
                forall v r,
                  match scan_items fuel x with
                  | Found vs r => Found (Array vs) r
                  | Bad msg place => Bad msg place
                  | Exhausted => Exhausted
                  end = Found v r -> String.length r < S (String.length s')).
      { intros x Hx. destruct (IHi x ltac:(lia)) as [Hne Hlt].
        destruct (scan_items fuel x) as [vs r| |]; [| | congruence].
        - split; [discriminate|]. intros v r0 H. inversion H; subst.
          specialize (Hlt _ _ eq_refl). lia.
        - split; [discriminate | intros; discriminate]. }
      pose proof (skip_ws_length s') as Hws.
      destruct (skip_ws s') as [|c1 s1]; [apply Hi; simpl; lia|].
      simpl in Hws.
      destruct c1 as [[] [] [] [] [] [] [] []];
        try (apply Hi; simpl; lia).
      split; [discriminate|]. intros v r H. inversion H; subst. lia. }
    change (S (String.length s')) with (String.length (String c s')).
    repeat (match goal with
            | |- context [if ?b then _ else _] => destruct b
            end; [apply literal_progress; discriminate|]).
    destruct (PyStr.drop_prefix "-Infinity" (String c s')) as [r0|] eqn:Hd.
    { split; [discriminate|]. intros v r H. inversion H; subst.
      apply drop_prefix_length in Hd. simpl in *. lia. }
    destruct (scan_number (String c s')) as [[n r0]|] eqn:Hn.
    + split; [discriminate|]. intros v r H. inversion H; subst.
      exact (scan_number_length _ _ _ Hn).
    + split; [discriminate | intros; discriminate].
  - intros s Hf. cbn [scan_items].
    destruct (IHv s ltac:(lia)) as [Hne Hlt].
    destruct (scan_value fuel s) as [v r| |]; [| | congruence].
    + specialize (Hlt _ _ eq_refl).
      pose proof (skip_ws_length r) as Hws.
      assert (Hrec : forall r', String.length r' < String.length r ->
                match scan_items fuel (skip_ws r') with
                | Found vs r'' => Found (v :: vs) r''
                | Bad msg place => Bad msg place
                | Exhausted => Exhausted
                end <> Exhausted /\
                forall vs r0,
                  match scan_items fuel (skip_ws r') with
                  | Found vs r'' => Found (v :: vs) r''
                  | Bad msg place => Bad msg place
                  | Exhausted => Exhausted
                  end = Found vs r0 -> String.length r0 < String.length s).
      { intros r' Hr'. pose proof (skip_ws_length r') as Hws'.
        destruct (IHi (skip_ws r') ltac:(lia)) as [Hne' Hlt'].
        destruct (scan_items fuel (skip_ws r')) as [vs r''| |];
          [| | congruence].
        - split; [discriminate|]. intros vs0 r0 H. inversion H; subst.
          specialize (Hlt' _ _ eq_refl). lia.
        - split; [discriminate | intros; discriminate]. }
      destruct (skip_ws r) as [|c1 r1];
        [split; [discriminate | intros; discriminate]|].
      simpl in Hws.
      destruct c1 as [[] [] [] [] [] [] [] []];
        try (split; [discriminate | intros; discriminate]).
      * split; [discriminate|]. intros vs r0 H. inversion H; subst. lia.
      * apply Hrec. lia.
    + split; [discriminate | intros; discriminate].
  - intros s acc Hf. cbn [scan_members].
    destruct s as [|q s']; [split; [discriminate | intros; discriminate]|].
    simpl String.length in *.
    destruct (Ascii.eqb q PyStr.dquote_char);
      [| split; [discriminate | intros; discriminate]].
    destruct (scan_string_progress (String q s') _ s' (le_n _)) as [Hne Hlt].
    destruct (scan_string (String q s') s') as [key r| |]; [| | congruence];
      [| split; [discriminate | intros; discriminate]].
    specialize (Hlt _ _ eq_refl).
    pose proof (skip_ws_length r) as Hws.
    destruct (skip_ws r) as [|c1 r1];
      [split; [discriminate | intros; discriminate]|].
    simpl in Hws.
    destruct c1 as [[] [] [] [] [] [] [] []];
      try (split; [discriminate | intros; discriminate]).
    pose proof (skip_ws_length r1) as Hws1.
    destruct (IHv (skip_ws r1) ltac:(lia)) as [Hnev Hltv].
    destruct (scan_value fuel (skip_ws r1)) as [v r2| |]; [| | congruence];
      [| split; [discriminate | intros; discriminate]].
    specialize (Hltv _ _ eq_refl).
    pose proof (skip_ws_length r2) as Hws2.
    destruct (skip_ws r2) as [|c2 r3];
      [split; [discriminate | intros; discriminate]|].
    simpl in Hws2.
    destruct c2 as [[] [] [] [] [] [] [] []];
      try (split; [discriminate | intros; discriminate]).
    + split; [discriminate|]. intros ms r0 H. inversion H; subst. lia.
    + pose proof (skip_ws_length r3) as Hws3.
      destruct (IHm (skip_ws r3) (PyDict.set acc key v) ltac:(lia))
        as [Hnem Hltm].
      split; [exact Hnem|]. intros ms r0 H. specialize (Hltm _ _ H). lia.
Qed.

(** [json.loads] returns a value or raises: its budget is enough for every
    text. *)
Lemma loads_total (s : string) : loads s <> OutOfFuel.
Proof.
  unfold loads. destruct (has_bom s); [discriminate|].
  pose proof (skip_ws_length s) as Hws.
  destruct (scanner_progress (S (2 * String.length s))) as [Hv _].
  destruct (Hv (skip_ws s) ltac:(lia)) as [Hne _].
  destruct (scan_value (S (2 * String.length s)) (skip_ws s)) as [v r| |];
    [| discriminate | congruence].
  destruct (skip_ws r); discriminate.
Qed.

End JsonFacts.

(** ** The model-override scan *)

Section OverrideFacts.
Import Bot Scenario.

(** What [find] returns: the content splits around the match, the word is
    not empty, and no match starts before it. *)
Lemma find_spec (rt : Python.Runtime) (c : string) : forall before word after,
  Override.find rt c = Some (before, word, after) ->
  c = (before ++ String "!" (word ++ after))%string /\
  word <> EmptyString /\
  Override.find rt before = None.
Proof.
  induction c as [|a rest IH]; intros before word after H; [discriminate|].
  simpl in H.
  assert (Hlater :
            match Override.find rt rest with
            | Some (b, wd, af) => Some (String a b, wd, af)
            | None => None
            end = Some (before, word, after) ->
            (Ascii.eqb a "!" = true ->
             fst (Utf8.span (PyStr.is_word_or_hyphen rt) rest) = EmptyString) ->
            String a rest = (before ++ String "!" (word ++ after))%string /\
            word <> EmptyString /\ Override.find rt before = None).
  { intros Hl Hbang.
    destruct (Override.find rt rest) as [[[b wd] af]|] eqn:Hf; [|discriminate].
    inversion Hl; subst; clear Hl.
    destruct (IH _ _ _ eq_refl) as (Hrest & Hword & Hnone).
    split; [simpl; now rewrite <- Hrest|]. split; [exact Hword|].
    simpl. rewrite Hnone.
    destruct (Ascii.eqb a "!") eqn:Ea; [| reflexivity].
    specialize (Hbang eq_refl).
    assert (Hb : fst (Utf8.span (PyStr.is_word_or_hyphen rt) b) = EmptyString).
    { apply span_none. apply span_none in Hbang.
      destruct b as [|b0 b']; [exact I|].
      destruct (next_nonempty b0 b') as (ch & r & Hnext).
      rewrite Hnext. rewrite Hrest in Hbang.
      rewrite (next_app_break _ "!" (word ++ after)%string _ _ eq_refl Hnext) in Hbang.
      exact Hbang. }
    destruct (Utf8.span (PyStr.is_word_or_hyphen rt) b) as [x y].
    simpl in Hb. now subst x. }
  destruct (Ascii.eqb_spec a "!") as [->|Hne].
  - pose proof (span_app (PyStr.is_word_or_hyphen rt) rest) as Happ.
    destruct (Utf8.span (PyStr.is_word_or_hyphen rt) rest)
      as [[|w0 ws] aft] eqn:Hs.
    + apply Hlater; [exact H | reflexivity].
    + simpl in Happ. rewrite <- Happ.
      inversion H; subst before word after; clear H.
      split; [reflexivity|]. split; [discriminate | reflexivity].
  - apply Hlater; [exact H | discriminate].
Qed.

Lemma scan_no_match (rt : Python.Runtime) (messages : list Message) :
  Forall (fun x => exists cx, content x = Some cx /\ Override.find rt cx = None)
         messages ->
  Override.scan rt messages = Ok (None, messages).
Proof.
  induction 1 as [|x l (cx & Hc & Hf) _ IH]; simpl; [reflexivity|].
  now rewrite Hc, Hf, IH.
Qed.

(** C8, as the code has it.  The scan goes through the messages in order.
    At the first message whose content has a match of the pattern, the
    first match is removed from that content, which is then stripped of
    the whitespace around it as [str.strip] does, and the matched word
    (without the exclamation mark) is the model; the messages after it are
    not touched, whatever they contain.  Without any match the configured
    model is used and the messages stay as they are.  The pattern and the
    stripping are those of the interpreter on a [str]: a word may hold
    letters and digits of any script, and a no-break space is
    whitespace. *)
Theorem model_override_scan (w : World) (earlier : list Message) :
  Forall (fun x => exists cx,
            content x = Some cx /\ Override.find (runtime w) cx = None)
         earlier ->
  (forall message later c before word after,
     content message = Some c ->
     Override.find (runtime w) c = Some (before, word, after) ->
     Override.scan (runtime w) (earlier ++ message :: later) =
       Ok (Some word,
           earlier
           ++ Override.set_content message
                (PyStr.strip (before ++ after)%string) :: later) /\
     select_model w (Some word) = word /\
     c = (before ++ String "!" (word ++ after))%string /\
     word <> EmptyString /\
     Override.find (runtime w) before = None) /\
  (Override.scan (runtime w) earlier = Ok (None, earlier) /\
   select_model w None = config_model w).
Proof.
  intros Hearlier. split.
  - intros message later c before word after Hc Hf.
    split; [| split; [reflexivity | now apply find_spec]].
    induction Hearlier as [|x l (cx & Hx & Hn) _ IH]; simpl.
    + now rewrite Hc, Hf.
    + now rewrite Hx, Hn, IH.
  - split; [now apply scan_no_match | reflexivity].
Qed.

(** The scan belongs to every call, also a recursive one. *)
Lemma chat_gpt_request_scans (w : World) (fuel : nat) (query : string)
    (history : list Message) (sender_name : string) (event_id : EventID) :
  chat_gpt_request w (S fuel) query history sender_name event_id =
  bind (today w) (fun d =>
  bind (lift (Override.scan (runtime w) (conversation d history sender_name query)))
       (fun scanned =>
  bind (open_stream w event_id (snd scanned) (select_model w (fst scanned)))
       (fun opened =>
          match opened with
          | None => ret tt
          | Some (chat_completion, messages) =>
              respond w
                (fun q h => chat_gpt_request w fuel q h sender_name event_id)
                sender_name event_id
                (is_mistral_model w (select_model w (fst scanned)))
                chat_completion messages
          end))).
Proof. reflexivity. Qed.

Lemma model_override_scan_witness :
  Override.scan tables
    ([developer] ++ user_message "alice" "  hello !gpt-4o-mini there  "
                 :: [user_message "alice" "!gpt-4o later"]) =
  Ok (Some "gpt-4o-mini",
      [developer]
      ++ Override.set_content (user_message "alice" "  hello !gpt-4o-mini there  ")
           (PyStr.strip ("  hello " ++ " there  ")%string)
      :: [user_message "alice" "!gpt-4o later"]) /\
  Override.scan tables ([] ++ user_message "alice" "!modèle hi" :: [])
  = Ok (Some "modèle", [user_message "alice" "hi"]) /\
  Override.scan tables
    ([] ++ user_message "alice" ("!gpt-4o" ++ Utf8.encode 160 ++ "hi")%string
        :: [])
  = Ok (Some "gpt-4o", [user_message "alice" "hi"]).
Proof.
  split; [| split].
  - destruct (model_override_scan (world answer_stream) [developer]) as [H _].
    + repeat constructor. eexists. split; reflexivity.
    + exact (proj1 (H (user_message "alice" "  hello !gpt-4o-mini there  ")
                      [user_message "alice" "!gpt-4o later"]
                      "  hello !gpt-4o-mini there  "
                      "  hello " "gpt-4o-mini" " there  " eq_refl eq_refl)).
  - destruct (model_override_scan (world answer_stream) []) as [H _];
      [constructor|].
    exact (proj1 (H (user_message "alice" "!modèle hi") []
                    "!modèle hi" "" "modèle" " hi" eq_refl eq_refl)).
  - destruct (model_override_scan (world answer_stream) []) as [H _];
      [constructor|].
    exact (proj1 (H (user_message "alice"
                       ("!gpt-4o" ++ Utf8.encode 160 ++ "hi")%string) []
                    ("!gpt-4o" ++ Utf8.encode 160 ++ "hi")%string
                    "" "gpt-4o" (Utf8.encode 160 ++ "hi")%string
                    eq_refl eq_refl)).
Defined.

(** C8 as stated fails.  The token of a later message stays in its content;
    and the recursive call scans again: with two tokens in the query the
    second request goes to the model named by the second token. *)
Lemma override_not_once_per_invocation :
  Override.scan tables [user_message "alice" "!gpt-4o first";
                 user_message "alice" "!gpt-4o second"]
  = Ok (Some "gpt-4o",
        [user_message "alice" "first";
         user_message "alice" "!gpt-4o second"]) /\
  map req_model
      (requests (log (snd (ask weather_stream
                             "!gpt-4o !gpt-4o-mini weather in Espoo?"))))
  = ["gpt-4o"; "gpt-4o-mini"].
Proof. vm_compute. split; reflexivity. Qed.

End OverrideFacts.

(** ** More on the reply cache *)

Section ReplyCacheMore.
Import ReplyCache.

Lemma get_app_r {V} (d1 d2 : PyDict.dict V) (k : string) :
  ~ In k (PyDict.keys d1) -> PyDict.get (d1 ++ d2) k = PyDict.get d2 k.
Proof.
  induction d1 as [|[k' v'] d1 IH]; simpl; [reflexivity|].
  intros N. destruct (String.eqb_spec k' k) as [->|Hne]; [tauto|].
  apply IH. tauto.
Qed.

Lemma get_app_snoc_other {V} (d : PyDict.dict V) (k k' : string) (v : V) :
  k' <> k -> PyDict.get (d ++ [(k, v)]) k' = PyDict.get d k'.
Proof.
  intros Hne. induction d as [|[k0 v0] d IH]; simpl.
  - destruct (String.eqb_spec k k'); [congruence | reflexivity].
  - now rewrite IH.
Qed.

Lemma store_read_back (c : t) (event_id : EventID) (text : string) :
  reachable c ->
  PyDict.get (store c event_id text) event_id = Some text /\
  (forall k, k <> event_id ->
     In k (PyDict.keys (store c event_id text)) ->
     PyDict.get (store c event_id text) k = PyDict.get c k).
Proof.
  intros Hr. pose proof (reachable_length c Hr) as Hlen.
  pose proof (reachable_NoDup c Hr) as Hnd.
  destruct (in_dec string_dec event_id (PyDict.keys c)) as [Hin|Hnin].
  - rewrite store_present by assumption. split.
    + apply get_set_same.
    + intros k Hk _. now apply get_set_other.
  - rewrite store_absent by assumption.
    destruct (Nat.eq_dec (length c) max_messages) as [Hfull|Hfree].
    + replace (length c + 1 - max_messages) with 1 by lia.
      destruct c as [|[k0 v0] c']; [discriminate Hfull|].
      simpl skipn. simpl in Hnin, Hnd.
      assert (Hnin' : ~ In event_id (PyDict.keys c')) by tauto.
      split.
      * rewrite get_app_r by exact Hnin'. simpl. now rewrite String.eqb_refl.
      * intros k Hk Hin. rewrite get_app_snoc_other by exact Hk.
        simpl. destruct (String.eqb_spec k0 k) as [->|Hne]; [| reflexivity].
        exfalso. inversion Hnd as [|? ? Hk0 _]; subst. apply Hk0.
        unfold PyDict.keys in Hin. rewrite map_app in Hin.
        apply in_app_or in Hin as [Hin|[Hin|[]]]; [exact Hin|].
        simpl in Hin. congruence.
    + replace (length c + 1 - max_messages) with 0 by lia. simpl skipn.
      split.
      * rewrite get_app_r by exact Hnin. simpl. now rewrite String.eqb_refl.
      * intros k Hk _. now apply get_app_snoc_other.
Qed.

(** X1. What [_edit] writes can be read back, and a write never changes
    the text stored for another reply that is still in the cache. *)
Theorem reply_cache_read_back (c : t) (event_id : EventID) (text : string) :
  reachable c ->
  PyDict.get (store c event_id text) event_id = Some text /\
  (forall k, k <> event_id ->
     In k (PyDict.keys (store c event_id text)) ->
     PyDict.get (store c event_id text) k = PyDict.get c k).
Proof. exact (store_read_back c event_id text). Qed.

Lemma reply_cache_read_back_witness :
  PyDict.get (store (store_all empty (sample_edits 120)) (sample_id 7) "again")
    (sample_id 7) = Some "again".
Proof.
  apply (reply_cache_read_back (store_all empty (sample_edits 120))
           (sample_id 7) "again").
  apply reachable_store_all. exact reach_empty.
Defined.

End ReplyCacheMore.

(** ** Sender handles *)

Section HandleFacts.

Lemma span_all_prefix (p : ascii -> bool) (h r : string) :
  Chars.all p h = true ->
  match r with String c _ => p c = false | EmptyString => True end ->
  PyStr.span p (h ++ r) = (h, r).
Proof.
  intros Hh Hr. induction h as [|c h IH]; simpl in *.
  - destruct r as [|c r]; simpl; [reflexivity | now rewrite Hr].
  - apply andb_prop in Hh as [Hc Hh]. rewrite Hc, (IH Hh). reflexivity.
Qed.

Lemma span_fst_all (p : ascii -> bool) (s : string) :
  Chars.all p (fst (PyStr.span p s)) = true.
Proof.
  induction s as [|c s IH]; simpl; [reflexivity|].
  destruct (p c) eqn:Hc; [| reflexivity].
  destruct (PyStr.span p s) as [a b]. simpl in *. now rewrite Hc, IH.
Qed.

(** X2. The name given to the provider is the local part of the sender's
    identifier when that part is a non-empty run of ASCII letters and
    digits directly followed by the colon; a local part with any other
    character (a dot, an underscore, a hyphen) gives the empty name, as does
    an identifier without the leading sigil.  The name never holds anything
    but letters and digits. *)
Theorem handle_of_sender :
  (forall h domain,
     h <> EmptyString -> Chars.all PyStr.is_alnum h = true ->
     PyStr.handle_of (String "@" (h ++ String ":" domain)) = h) /\
  (forall h c rest,
     Chars.all PyStr.is_alnum h = true ->
     PyStr.is_alnum c = false -> c <> ":"%char ->
     PyStr.handle_of (String "@" (h ++ String c rest)) = EmptyString) /\
  (forall c rest, c <> "@"%char ->
     PyStr.handle_of (String c rest) = EmptyString) /\
  (forall sender, Chars.all PyStr.is_alnum (PyStr.handle_of sender) = true).
Proof.
  split; [| split; [| split]].
  - intros h domain Hne Hall.
    change (PyStr.handle_of (String "@" (h ++ String ":" domain)))
      with (match PyStr.span PyStr.is_alnum (h ++ String ":" domain) with
            | (String c h', String ":" _) => String c h'
            | _ => EmptyString
            end).
    rewrite span_all_prefix by (exact Hall || reflexivity).
    destruct h; [congruence | reflexivity].
  - intros h c rest Hall Hc Hcolon.
    change (PyStr.handle_of (String "@" (h ++ String c rest)))
      with (match PyStr.span PyStr.is_alnum (h ++ String c rest) with
            | (String c0 h', String ":" _) => String c0 h'
            | _ => EmptyString
            end).
    rewrite span_all_prefix by assumption.
    destruct h as [|c0 h']; [reflexivity|].
    destruct (Ascii.eqb_spec c ":"); [contradiction|].
    destruct c as [[] [] [] [] [] [] [] []]; try reflexivity.
    exfalso. apply n. reflexivity.
  - intros c rest Hc.
    destruct (Ascii.eqb_spec c "@"); [contradiction|].
    destruct c as [[] [] [] [] [] [] [] []]; try reflexivity.
    exfalso. apply n. reflexivity.
  - intros sender. destruct sender as [|c rest]; [reflexivity|].
    destruct (Ascii.eqb_spec c "@") as [->|Hne].
    + change (PyStr.handle_of (String "@" rest))
        with (match PyStr.span PyStr.is_alnum rest with
              | (String c0 h', String ":" _) => String c0 h'
              | _ => EmptyString
              end).
      pose proof (span_fst_all PyStr.is_alnum rest) as Hall.
      destruct (PyStr.span PyStr.is_alnum rest) as [[|c0 h'] [|c1 r]];
        try reflexivity.
      simpl fst in Hall.
      destruct c1 as [[] [] [] [] [] [] [] []]; try reflexivity; exact Hall.
    + destruct c as [[] [] [] [] [] [] [] []]; try reflexivity.
      exfalso. apply Hne. reflexivity.
Qed.

Lemma handle_of_sender_witness :
  PyStr.handle_of (String "@" ("alice42" ++ String ":" "example.org"))
  = "alice42".
Proof.
  apply (proj1 handle_of_sender); [discriminate | reflexivity].
Defined.

End HandleFacts.

(** ** More on the conversation resolver *)

Section ResolverMore.
Import Resolver.
Variable bot_name : string.
Variable assistant_replies : ReplyCache.t.
Variable get_event : Transport.

(** X3. Events of the thread that are not room messages contribute no
    message, but the walk goes on through their reply relation: on a chain
    of reply relations that ends at an event without relation, the history
    is made of the message events of the chain only, oldest first.  The
    walk can only read reply relations: when it comes, with whatever
    history it has collected, to an event whose relation has no
    [in_reply_to] (the edit of a message, a reaction), it raises
    [AttributeError] and no history is returned. *)
Theorem conversation_history_skips_other_events event_id evs fuel :
  (chain get_event event_id evs None ->
   length evs < fuel ->
   get_conversation_history bot_name assistant_replies get_event fuel event_id
   = Ok (map (fun p => message_of bot_name assistant_replies (fst p) (snd p))
             (rev (filter (fun p => is_room_message (ev_type (snd p))) evs)))) /\
  (forall event history,
     PyStr.nonempty event_id = true ->
     get_event event_id = inr event ->
     ev_relates_to event = OtherRelation ->
     walk bot_name assistant_replies get_event (S fuel) event_id history
     = Raise no_in_reply_to).
Proof.
  split.
  - intros Hc Hfuel. unfold get_conversation_history.
    rewrite (walk_along_chain bot_name assistant_replies get_event _ _ _ Hc)
      by exact Hfuel.
    rewrite app_nil_r. unfold messages_of. now rewrite map_rev.
  - intros event history Hid Hget Hrel. simpl.
    now rewrite Hid, Hget, Hrel.
Qed.

End ResolverMore.

(** ** More on the tool-call accumulator *)

Section AccumulatorFacts.
Import Bot Fragments.

Lemma set_set {V} (d : PyDict.dict V) (k : string) (v1 v2 : V) :
  PyDict.set (PyDict.set d k v1) k v2 = PyDict.set d k v2.
Proof.
  induction d as [|[k' v'] d IH]; simpl.
  - now rewrite String.eqb_refl.
  - destruct (String.eqb_spec k' k) as [->|Hne]; simpl.
    + now rewrite String.eqb_refl.
    + destruct (String.eqb_spec k' k); [congruence | now rewrite IH].
Qed.

Lemma set_get_same {V} (d : PyDict.dict V) (k : string) (v : V) :
  PyDict.get d k = Some v -> PyDict.set d k v = d.
Proof.
  induction d as [|[k' v'] d IH]; simpl; [discriminate|].
  destruct (String.eqb_spec k' k) as [->|Hne]; intros H.
  - now inversion H.
  - now rewrite IH.
Qed.

Lemma ingest_continuations (parts : list string) :
  forall loc id tool buffer,
    the_tool_call_id loc = Some id ->
    PyDict.get (collected_functions loc) id
      = Some {| fn_name := tool; fn_arguments := buffer |} ->
    ingest_all loc (map continuation parts) =
    Ok {| collected_messages := collected_messages loc;
          collected_functions :=
            PyDict.set (collected_functions loc) id
              {| fn_name := tool;
                 fn_arguments := (buffer ++ PyStr.join parts)%string |};
          the_tool_call_id := Some id |}.
Proof.
  induction parts as [|a parts IH]; intros loc id tool buffer Hid Hget.
  - simpl. rewrite append_nil_r, (set_get_same _ _ _ Hget).
    destruct loc as [msgs fns cur]. simpl in *. now subst cur.
  - simpl map. simpl ingest_all. unfold ingest at 1.
    simpl delta_id. simpl delta_name. simpl delta_arguments.
    rewrite Hid, Hget. cbv iota beta.
    rewrite (IH _ id tool (buffer ++ a)%string);
      [| reflexivity | simpl; apply get_set_same].
    simpl. now rewrite set_set, append_assoc.
Qed.

(** X4. A call that arrives as one opening fragment (identifier, name,
    first argument text) followed by any number of fragments that carry
    only more argument text ends up as one entry under that identifier,
    whose buffer is the concatenation of all the argument texts in arrival
    order; the entries of other calls and the collected text are not
    touched. *)
Theorem fragments_concatenate_in_order
    (loc : Locals) (id tool a : string) (parts : list string) :
  ingest_all loc (opening id tool a :: map continuation parts) =
  Ok {| collected_messages := collected_messages loc;
        collected_functions :=
          PyDict.set (collected_functions loc) id
            {| fn_name := tool;
               fn_arguments := (a ++ PyStr.join parts)%string |};
        the_tool_call_id := Some id |}.
Proof.
  simpl. unfold ingest at 1. simpl. rewrite get_set_same. simpl.
  rewrite set_set.
  rewrite (ingest_continuations parts _ id tool a);
    [| reflexivity | simpl; apply get_set_same].
  simpl. now rewrite set_set.
Qed.

(** X5. The accumulator's failures.  Argument text or a name that arrives
    before any fragment has carried an identifier hits the unassigned local
    [tool_call_id]; argument text for an identifier that has no entry yet
    (no fragment has named the call) is a [KeyError].  Both leave
    [chat_gpt_request] through the stream loop. *)
Theorem fragments_out_of_order_raise :
  (forall loc f,
     the_tool_call_id loc = None -> delta_id f = None ->
     delta_name f <> None \/ delta_arguments f <> None ->
     ingest loc f = Raise unbound) /\
  (forall loc f id a,
     delta_id f = Some id -> delta_name f = None ->
     delta_arguments f = Some a ->
     PyDict.get (collected_functions loc) id = None ->
     ingest loc f = Raise (KeyError id)) /\
  (forall w event_id loc exc c fr f rest s,
     ingest_all loc (f :: rest) = Raise exc ->
     stream_step w event_id false loc (OpenAIChunk c fr (Some (f :: rest))) s
     = (Raise exc, s)).
Proof.
  split; [| split].
  - intros loc f Hcur Hid Hsome. unfold ingest. rewrite Hid, Hcur.
    destruct (delta_name f); [reflexivity|].
    destruct (delta_arguments f); [reflexivity|].
    destruct Hsome; congruence.
  - intros loc f id a Hid Hname Hargs Hget. unfold ingest.
    now rewrite Hid, Hname, Hargs, Hget.
  - intros w event_id loc exc c fr f rest s H.
    unfold stream_step, bind, lift. simpl. unfold ingest_all in H.
    fold ingest_all in H. now rewrite H.
Qed.

Lemma fragments_out_of_order_raise_witness :
  ingest no_locals (continuation "{}") = Raise unbound.
Proof.
  apply (proj1 fragments_out_of_order_raise);
    [reflexivity | reflexivity | right; discriminate].
Defined.

(** X6. A fragment that names a call again starts its buffer afresh: the
    argument text collected so far under that identifier is dropped, and
    the entry keeps its place among the collected calls. *)
Theorem renaming_resets_buffer (loc : Locals) (id tool : string) :
  In id (PyDict.keys (collected_functions loc)) ->
  exists loc',
    ingest loc {| delta_id := Some id; delta_name := Some tool;
                  delta_arguments := None |} = Ok loc' /\
    PyDict.get (collected_functions loc') id
      = Some {| fn_name := tool; fn_arguments := "" |} /\
    PyDict.keys (collected_functions loc')
      = PyDict.keys (collected_functions loc).
Proof.
  intros Hin. eexists. split; [reflexivity|]. simpl.
  split; [apply get_set_same | now apply keys_set_present].
Qed.

Lemma renaming_resets_buffer_witness :
  exists loc',
    ingest {| collected_messages := [];
              collected_functions :=
                [("1", {| fn_name := "weather"; fn_arguments := "{" |})];
              the_tool_call_id := Some "1" |}
           {| delta_id := Some "1"; delta_name := Some "weather";
              delta_arguments := None |} = Ok loc' /\
    PyDict.get (collected_functions loc') "1"
      = Some {| fn_name := "weather"; fn_arguments := "" |} /\
    PyDict.keys (collected_functions loc') = ["1"].
Proof.
  apply (renaming_resets_buffer
           {| collected_messages := [];
              collected_functions :=
                [("1", {| fn_name := "weather"; fn_arguments := "{" |})];
              the_tool_call_id := Some "1" |} "1" "weather").
  left. reflexivity.
Defined.

End AccumulatorFacts.

Section ResolverMoreExamples.
Import Resolver Threads.

Lemma conversation_history_skips_other_events_witness :
  get_conversation_history "@bot:example.org" ReplyCache.empty sticker_thread
    4 "$3"
  = Ok (map (fun p => message_of "@bot:example.org" ReplyCache.empty
                        (fst p) (snd p))
            (rev (filter (fun p => is_room_message (ev_type (snd p)))
                    [("$3", answer_event); ("$2", sticker_event);
                     ("$1", root_event)]))) /\
  get_conversation_history "@bot:example.org" ReplyCache.empty edited_thread
    3 "$2"
  = Raise (AttributeError "'NoneType' object has no attribute 'get'").
Proof.
  split.
  - apply (proj1 (conversation_history_skips_other_events "@bot:example.org"
                    ReplyCache.empty sticker_thread "$3"
                    [("$3", answer_event); ("$2", sticker_event);
                     ("$1", root_event)] 4)).
    + apply chain_reply with (next := "$2"); try reflexivity.
      apply chain_reply with (next := "$1"); try reflexivity.
      apply chain_root; reflexivity.
    + simpl. lia.
  - exact (proj2 (conversation_history_skips_other_events "@bot:example.org"
                    ReplyCache.empty edited_thread "$1" [] 1)
             edit_event
             [message_of "@bot:example.org" ReplyCache.empty "$2" reply_event]
             eq_refl eq_refl eq_refl).
Defined.

End ResolverMoreExamples.

(** ** The mention pattern *)

Section MentionFacts.
Variable bot_name : string.

Lemma drop_prefix_app (p s : string) :
  PyStr.drop_prefix p (p ++ s) = Some s.
Proof.
  induction p as [|c p IH]; simpl; [reflexivity|].
  now rewrite Ascii.eqb_refl.
Qed.

Lemma drop_prefix_head (a c : ascii) (p s : string) :
  Ascii.eqb a c = false ->
  PyStr.drop_prefix (String a p) (String c s) = None.
Proof. intros H. simpl. now rewrite H. Qed.

Lemma substring_all (s : string) : substring 0 (String.length s) s = s.
Proof. induction s as [|c s IH]; simpl; [reflexivity | now rewrite IH]. Qed.

Lemma substring_suffix (a b : string) :
  substring (String.length a) (String.length (a ++ b) - String.length a)
    (a ++ b) = b.
Proof.
  rewrite length_append.
  replace (String.length a + String.length b - String.length a)
    with (String.length b) by lia.
  induction a as [|c a IH]; simpl; [apply substring_all | exact IH].
Qed.

(** A label without [<] and without a line break is closed by the first
    closing tag after it. *)
Lemma lazy_close_label (label rest : string) :
  Chars.all (fun c => negb (Ascii.eqb c "<") && negb (Ascii.eqb c PyStr.newline))
            label = true ->
  Mention.lazy_close (label ++ "</a>" ++ rest)
  = Some (String.length label + 4).
Proof.
  intros Hall. induction label as [|c label IH].
  - reflexivity.
  - simpl in Hall. apply andb_prop in Hall as [Hc Hall].
    apply andb_prop in Hc as [Hlt Hnl].
    apply negb_true_iff in Hlt. apply negb_true_iff in Hnl.
    change ((String c label ++ "</a>" ++ rest)%string)
      with (String c (label ++ "</a>" ++ rest)%string).
    change (Mention.lazy_close (String c (label ++ "</a>" ++ rest)))
      with (match PyStr.drop_prefix "</a>" (String c (label ++ "</a>" ++ rest)) with
            | Some _ => Some 4
            | None =>
                if Ascii.eqb c PyStr.newline then None
                else option_map S (Mention.lazy_close (label ++ "</a>" ++ rest))
            end).
    assert (Hd : PyStr.drop_prefix "</a>" (String c (label ++ "</a>" ++ rest))
                 = None).
    { apply drop_prefix_head. now rewrite Ascii.eqb_sym. }
    rewrite Hd, Hnl, (IH Hall). reflexivity.
Qed.

Lemma sub_from_skip (a b : string) :
  Mention.sub_from bot_name (String.length a) (a ++ b)
  = Mention.sub_from bot_name 0 b.
Proof.
  induction a as [|c a IH]; [reflexivity|].
  simpl. exact IH.
Qed.

Lemma match_len_no_lt (c : ascii) (s : string) :
  Ascii.eqb c "<" = false ->
  Mention.match_len bot_name (String c s) = None.
Proof.
  intros Hc. unfold Mention.match_len.
  change (Mention.opening bot_name)
    with (String "<" ("a href=" ++ PyStr.dquote ++ "https://matrix.to/#/"
                      ++ bot_name ++ PyStr.dquote ++ ">")%string).
  rewrite drop_prefix_head; [reflexivity | now rewrite Ascii.eqb_sym].
Qed.

(** X7. Stripping the bot's mention.  A mention anchor of the bot whose
    label has no [<] and no line break, followed by a colon and a space, is
    removed together with the colon and the space; and a text without any
    [<] is left exactly as it is. *)
Theorem mention_is_stripped :
  (forall label rest,
     Chars.all (fun c => negb (Ascii.eqb c "<")
                         && negb (Ascii.eqb c PyStr.newline)) label = true ->
     Mention.sub bot_name
       (Mention.opening bot_name ++ label ++ "</a>: " ++ rest)
     = Mention.sub bot_name rest) /\
  (forall text,
     Chars.all (fun c => negb (Ascii.eqb c "<")) text = true ->
     Mention.sub bot_name text = text).
Proof.
  split.
  - intros label rest Hall. unfold Mention.sub.
    set (r := (label ++ "</a>" ++ ": " ++ rest)%string).
    assert (Hm : Mention.match_len bot_name (Mention.opening bot_name ++ r)
                 = Some (String.length (Mention.opening bot_name)
                         + (String.length label + 4) + 2)).
    { unfold Mention.match_len. rewrite drop_prefix_app.
      unfold r. rewrite (lazy_close_label label (": " ++ rest) Hall).
      do 2 f_equal.
      replace (label ++ "</a>" ++ ": " ++ rest)%string
        with ((label ++ "</a>") ++ ": " ++ rest)%string
        by (rewrite append_assoc; reflexivity).
      replace (String.length label + 4)
        with (String.length (label ++ "</a>"))
        by (rewrite length_append; reflexivity).
      rewrite substring_suffix. reflexivity. }
    change (label ++ "</a>: " ++ rest)%string with r.
    remember (Mention.opening bot_name) as op eqn:Hop.
    assert (Hne : exists c op', op = String c op').
    { subst op. unfold Mention.opening. simpl. eauto. }
    destruct Hne as (c & op' & ->).
    change (String c op' ++ r)%string with (String c (op' ++ r)%string) in *.
    change (Mention.sub_from bot_name 0 (String c (op' ++ r)))
      with (match Mention.match_len bot_name (String c (op' ++ r)) with
            | Some n => Mention.sub_from bot_name (n - 1) (op' ++ r)
            | None => String c (Mention.sub_from bot_name 0 (op' ++ r))
            end).
    rewrite Hm.
    replace (op' ++ r)%string
      with ((op' ++ label ++ "</a>: ") ++ rest)%string.
    2:{ unfold r. rewrite !append_assoc. reflexivity. }
    replace (String.length (String c op') + (String.length label + 4) + 2 - 1)
      with (String.length (op' ++ label ++ "</a>: ")).
    2:{ rewrite !length_append. simpl. lia. }
    apply sub_from_skip.
  - intros text Hall. unfold Mention.sub.
    induction text as [|c text IH]; [reflexivity|].
    simpl in Hall. apply andb_prop in Hall as [Hc Hall].
    apply negb_true_iff in Hc.
    change (Mention.sub_from bot_name 0 (String c text))
      with (match Mention.match_len bot_name (String c text) with
            | Some n => Mention.sub_from bot_name (n - 1) text
            | None => String c (Mention.sub_from bot_name 0 text)
            end).
    rewrite (match_len_no_lt c text Hc), (IH Hall). reflexivity.
Qed.

End MentionFacts.

Lemma mention_is_stripped_witness :
  Mention.sub "@bot:example.org"
    (Mention.opening "@bot:example.org" ++ "Matrix bot" ++ "</a>: "
     ++ "how are you?")
  = Mention.sub "@bot:example.org" "how are you?".
Proof.
  apply (proj1 (mention_is_stripped "@bot:example.org")).
  reflexivity.
Defined.

(** ** More on the stream loop and on dispatch *)

Section DispatchFacts.
Import Bot StreamSpec.
Variable w : World.
Variable event_id : EventID.

(** X8. Flush on completion, and the first edit of an instance.  An
    iteration whose chunk has a non-empty finish reason always edits,
    however little time has passed; so does any iteration of an instance
    that has never edited.  The text shown is what has been collected, with
    the ellipsis only for the tool-call marker (or a missing reason). *)
Theorem finish_reason_flushes is_mistral loc chunk s loc' d s' :
  stream_step w event_id is_mistral loc chunk s = (Ok (loc', d), s') ->
  PyStr.truthy (chunk_finish_reason chunk) = true \/ last_edit_time s = None ->
  exists e,
    d = Some e /\
    shown e =
      (PyStr.join (collected_messages loc')
       ++ (if unfinished (chunk_finish_reason chunk) then ellipsis else ""))%string /\
    log s' = log s ++ [Edit event_id (shown e)] /\
    assistant_replies s'
      = ReplyCache.store (assistant_replies s) event_id (shown e).
Proof.
  intros Hstep Hwhy.
  pose proof (stream_step_spec w event_id is_mistral _ _ _ _ _ _ Hstep)
    as [_ Hd].
  revert Hstep. unfold stream_step, bind, lift.
  destruct (process_chunk chunk is_mistral) as [processed| |] eqn:Hp;
    try discriminate.
  destruct (process_chunk_fields is_mistral _ _ Hp) as [_ Hf].
  destruct (match p_tool_calls processed with
            | Some tool_calls => ingest_all loc tool_calls
            | None => Ok loc
            end) as [loc1| |]; try discriminate.
  unfold due, bind, get_last_edit_time, now, ret.
  destruct (last_edit_time s) as [t0|] eqn:Hlast; simpl.
  - destruct Hwhy as [Hfin|]; [| discriminate].
    rewrite Hf, Hfin, andb_false_r. simpl.
    intros H; inversion H; subst; clear H. simpl in *.
    eexists. split; [reflexivity|]. simpl.
    split; [apply partial_text_unfinished|]. split; reflexivity.
  - intros H; inversion H; subst; clear H. simpl in *.
    eexists. split; [reflexivity|]. simpl.
    split; [rewrite Hf; apply partial_text_unfinished|]. split; reflexivity.
Qed.

(** X9. A model that is in neither allow-list is refused before any
    request: the call sends the single edit that names the model and
    returns normally. *)
Theorem unknown_model_is_refused fuel query history sender_name s found messages :
  Override.scan (runtime w)
    (conversation (today_at w (calendar s)) history sender_name query)
  = Ok (found, messages) ->
  is_mistral_model w (select_model w found) = false ->
  existsb (String.eqb (select_model w found)) (allowed_models w) = false ->
  exists s',
    chat_gpt_request w (S fuel) query history sender_name event_id s
    = (Ok tt, s') /\
    log s' = log s
             ++ [Edit event_id
                   ("Invalid OpenAI model: " ++ select_model w found)%string].
Proof.
  intros Hscan Hmistral Hallowed.
  rewrite chat_gpt_request_scans. unfold bind at 1. unfold today.
  unfold bind at 1. unfold lift. rewrite Hscan. simpl fst. simpl snd.
  unfold bind at 1. unfold open_stream, try_catch, bind at 1.
  unfold create_chat_completion. rewrite Hmistral, Hallowed. simpl.
  eexists. split; reflexivity.
Qed.

(** X10. A provider that raises ends the call with one edit: the message
    of a [ValueError] as it is, any other message after the prefix
    [API Error: ].  The call returns normally and nothing is streamed. *)
Theorem provider_failure_is_reported
    fuel query history sender_name s found messages exc :
  Override.scan (runtime w)
    (conversation (today_at w (calendar s)) history sender_name query)
  = Ok (found, messages) ->
  is_mistral_model w (select_model w found) = false ->
  existsb (String.eqb (select_model w found)) (allowed_models w) = true ->
  backend w {| req_messages := messages; req_model := select_model w found;
               req_tools := true; req_mistral := false |} = inl exc ->
  exists s',
    chat_gpt_request w (S fuel) query history sender_name event_id s
    = (Ok tt, s') /\
    log s' = log s
             ++ [Send {| req_messages := messages;
                         req_model := select_model w found;
                         req_tools := true; req_mistral := false |};
                 Edit event_id
                   (if is_ValueError exc then exc_str (runtime w) exc
                    else ("API Error: " ++ exc_str (runtime w) exc)%string)].
Proof.
  intros Hscan Hmistral Hallowed Hback.
  rewrite chat_gpt_request_scans. unfold bind at 1. unfold today.
  unfold bind at 1. unfold lift. rewrite Hscan. simpl fst. simpl snd.
  unfold bind at 1. unfold open_stream, try_catch, bind at 1.
  unfold create_chat_completion. rewrite Hmistral, Hallowed. simpl.
  unfold call_backend, bind, emit. simpl. rewrite Hback. simpl.
  eexists. split; [reflexivity|]. simpl. now rewrite <- app_assoc.
Qed.

(** X11. What a Mistral model is sent: every message in order, each
    with its role, except that the role [developer] has become [system];
    without any name; with its content, tool calls and tool-call id as
    they were; and no tool definitions, whatever the caller passed.  The
    conversion is in place: when the provider answers, the messages the
    caller holds afterwards are the converted ones. *)
Theorem mistral_request_shape messages model tools s :
  is_mistral_model w model = true ->
  exists request,
    log (snd (create_chat_completion w messages model tools s))
      = log s ++ [Send request] /\
    req_mistral request = true /\
    req_tools request = false /\
    req_model request = model /\
    map role (req_messages request)
      = map (fun m => if String.eqb (role m) "developer"
                      then "system" else role m) messages /\
    map name (req_messages request) = map (fun _ => None) messages /\
    map content (req_messages request) = map content messages /\
    map tool_calls (req_messages request) = map tool_calls messages /\
    map tool_call_id (req_messages request) = map tool_call_id messages /\
    (forall chunks,
       backend w request = inr chunks ->
       fst (create_chat_completion w messages model tools s)
       = Ok (chunks, req_messages request)).
Proof.
  intros Hm. unfold create_chat_completion. rewrite Hm.
  assert (Hin : negb (existsb (String.eqb model) (mistral_allowed_models w))
                = false).
  { unfold is_mistral_model in Hm. now rewrite Hm. }
  rewrite Hin. unfold call_backend, bind, emit.
  eexists. split.
  - simpl. destruct (backend w _); reflexivity.
  - simpl. repeat split; try (rewrite map_map; reflexivity).
    intros chunks Hb. rewrite Hb. reflexivity.
Qed.

End DispatchFacts.

Section DispatchExamples.
Import Bot StreamSpec Scenario Cases.

Lemma finish_reason_flushes_witness :
  exists e,
    Some flush_edit = Some e /\
    shown e =
      (PyStr.join (collected_messages flush_locals)
       ++ (if unfinished (chunk_finish_reason flush_chunk)
           then ellipsis else ""))%string /\
    log (snd (stream_step (world answer_stream) reply_id false no_locals
                flush_chunk flush_start))
      = log flush_start ++ [Edit reply_id (shown e)] /\
    assistant_replies
      (snd (stream_step (world answer_stream) reply_id false no_locals
              flush_chunk flush_start))
      = ReplyCache.store (assistant_replies flush_start) reply_id (shown e).
Proof.
  apply (finish_reason_flushes (world answer_stream) reply_id false no_locals
           flush_chunk flush_start flush_locals (Some flush_edit)
           (snd (stream_step (world answer_stream) reply_id false no_locals
                   flush_chunk flush_start))).
  - reflexivity.
  - left. reflexivity.
Defined.

Lemma unknown_model_is_refused_witness :
  exists s',
    chat_gpt_request (world answer_stream) 1 "!llama hi" [] sender reply_id
      initial = (Ok tt, s') /\
    log s' = [] ++ [Edit reply_id "Invalid OpenAI model: llama"].
Proof.
  apply (unknown_model_is_refused (world answer_stream) reply_id 0
           "!llama hi" [] sender initial (Some "llama")
           [developer; user_message "alice" "hi"]); reflexivity.
Defined.

Lemma provider_failure_is_reported_witness :
  exists s',
    chat_gpt_request (failing_world rate_limited) 1 "hi" [] sender reply_id
      initial = (Ok tt, s') /\
    log s' = [] ++ [Send {| req_messages := [developer; user_message "alice" "hi"];
                            req_model := "gpt-4o";
                            req_tools := true; req_mistral := false |};
                    Edit reply_id "API Error: 429 Too Many Requests"].
Proof.
  apply (provider_failure_is_reported (failing_world rate_limited) reply_id 0
           "hi" [] sender initial None
           [developer; user_message "alice" "hi"] rate_limited); reflexivity.
Defined.

Lemma mistral_request_shape_witness :
  exists request,
    log (snd (create_chat_completion (world mistral_answer)
                [developer; user_message "alice" "salut"] "mistral-small"
                true initial))
      = [] ++ [Send request] /\
    req_mistral request = true /\
    req_tools request = false /\
    req_model request = "mistral-small" /\
    map role (req_messages request) = ["system"; "user"] /\
    map name (req_messages request) = [None; None] /\
    map content (req_messages request)
      = map content [developer; user_message "alice" "salut"] /\
    map tool_calls (req_messages request) = [None; None] /\
    map tool_call_id (req_messages request) = [None; None] /\
    (forall chunks,
       backend (world mistral_answer) request = inr chunks ->
       fst (create_chat_completion (world mistral_answer)
              [developer; user_message "alice" "salut"] "mistral-small"
              true initial)
       = Ok (chunks, req_messages request)).
Proof.
  apply (mistral_request_shape (world mistral_answer)
           [developer; user_message "alice" "salut"] "mistral-small" true
           initial).
  reflexivity.
Defined.

End DispatchExamples.

(** ** More on the tool phase *)

Section ToolFacts.
Import Bot.
Variable w : World.

(** X12. The requesting user is always the sender of the event: when the
    collected text decodes to an object, its [user] member is set to the
    sender, replacing whatever the model supplied under that key, and the
    other members are kept; any other text (not JSON, or JSON that is not
    an object) leaves the empty list instead of arguments. *)
Theorem user_is_always_the_sender (arguments sender_name : string) :
  (forall members,
     Json.loads arguments = Ok (Json.Object members) ->
     exists members',
       function_args_of arguments sender_name = Json.Object members' /\
       PyDict.get members' "user" = Some (Json.Str sender_name) /\
       (forall k, k <> "user" ->
          PyDict.get members' k = PyDict.get members k)) /\
  ((forall members, Json.loads arguments <> Ok (Json.Object members)) ->
   function_args_of arguments sender_name = Json.Array []).
Proof.
  split.
  - intros members H. unfold function_args_of. rewrite H.
    eexists. split; [reflexivity|].
    split; [apply get_set_same | intros k Hk; now apply get_set_other].
  - intros H. unfold function_args_of.
    destruct (Json.loads arguments) as [[]| |]; try reflexivity.
    exfalso. eapply H. reflexivity.
Qed.

(** The outcomes of a tool call: a text, or an exception; the log grows by
    at most the invocation. *)
Lemma call_outcome tool function_args s :
  exists r s',
    call w tool function_args s = (r, s') /\
    r <> OutOfFuel /\
    (s' = s \/ exists kwargs, s' = snd (emit (Invoke tool kwargs) s)).
Proof.
  unfold call.
  destruct function_args as [| | | | | |kwargs];
    try (do 2 eexists; split; [reflexivity|]; split; [discriminate | now left]).
  destruct (bad_keyword _ (PyDict.keys kwargs)) as [e|];
    [do 2 eexists; split; [reflexivity|]; split; [discriminate | now left]|].
  destruct (PyDict.get kwargs "user") as [user|],
           (PyDict.get kwargs (param (signature tool))) as [arg|];
    try (do 2 eexists; split; [reflexivity|]; split; [discriminate | now left]).
  unfold bind, emit. simpl.
  destruct (body w tool user arg) as [e|text];
    do 2 eexists; (split; [reflexivity|]); (split; [discriminate|]);
    right; eexists; reflexivity.
Qed.

(** X13. While the table of tools is intact, a call never raises out of
    the tool loop, and each failure has its text.  A name that is not in
    the table gives [Function error: ] followed by the printed name, and
    nothing is invoked.  For a name in the table, an exception of the call
    gives [Function error: ] followed by its message, and a text that the
    call returns is the response.  In particular the empty list that
    stands for undecodable arguments is refused by the interpreter, which
    names the function and the type [list], and nothing is invoked.  Every
    failure replaces the table by the printed list of its keys; a call
    that returns leaves the table as it is. *)
Theorem first_tool_failure_is_captured names tool function_args s :
  (existsb (String.eqb tool) names = false ->
   run_tool w (Table names) tool function_args s
   = (Ok (("Function error: " ++ PyStr.repr (runtime w) tool)%string,
          Text (Json.repr (runtime w) (Json.Array (map Json.Str names)))),
      s)) /\
  (existsb (String.eqb tool) names = true ->
   (forall e s',
      call w tool function_args s = (Raise e, s') ->
      run_tool w (Table names) tool function_args s
      = (Ok (("Function error: " ++ exc_str (runtime w) e)%string,
             Text (Json.repr (runtime w) (Json.Array (map Json.Str names)))),
         s')) /\
   (forall text s',
      call w tool function_args s = (Ok text, s') ->
      run_tool w (Table names) tool function_args s
      = (Ok (text, Table names), s')) /\
   (forall items,
      run_tool w (Table names) tool (Json.Array items) s
      = (Ok (("Function error: " ++ module_name (signature tool) ++ "."
              ++ qualname (signature tool)
              ++ "() argument after ** must be a mapping, not list")%string,
             Text (Json.repr (runtime w) (Json.Array (map Json.Str names)))),
         s))) /\
  (exists response available' s',
     run_tool w (Table names) tool function_args s
     = (Ok (response, available'), s') /\
     (s' = s \/ exists kwargs, s' = snd (emit (Invoke tool kwargs) s))).
Proof.
  split; [| split].
  - intros Hin. unfold run_tool, try_catch, bind. rewrite Hin. reflexivity.
  - intros Hin. split; [| split].
    + intros e s' Hcall. unfold run_tool, try_catch, bind.
      rewrite Hin, Hcall. reflexivity.
    + intros text s' Hcall. unfold run_tool, try_catch, bind.
      rewrite Hin, Hcall. reflexivity.
    + intros items. unfold run_tool, try_catch, bind. rewrite Hin.
      reflexivity.
  - unfold run_tool, try_catch, bind.
    destruct (existsb (String.eqb tool) names) eqn:Hin.
    + destruct (call_outcome tool function_args s)
        as (r & s' & Hcall & Hr & Hs).
      rewrite Hcall. destruct r as [response|e|]; [| | congruence];
        do 3 eexists; (split; [reflexivity | exact Hs]).
    + do 3 eexists. split; [reflexivity | now left].
Qed.

(** Once the table has been replaced, every further call of the loop
    raises. *)
Lemma later_tool_calls_raise sender_name text item rest messages s :
  tool_loop w sender_name (item :: rest) (Text text) messages s
  = (Raise (AttributeError "'str' object has no attribute 'keys'"), s).
Proof. destruct item as [tool_id collected_function]. reflexivity. Qed.

(** X14. A call to a tool that is not in the table, followed by any other
    call, ends the tool loop with [AttributeError]: no tool is invoked, not
    even a registered one, and the state is as before the loop. *)
Theorem unknown_tool_then_any_call_raises
    sender_name tool_id collected_function next rest messages s :
  fn_name collected_function <> "weather" ->
  fn_name collected_function <> "fetch_electricity_prices" ->
  tool_loop w sender_name ((tool_id, collected_function) :: next :: rest)
    available_functions messages s
  = (Raise (AttributeError "'str' object has no attribute 'keys'"), s).
Proof.
  intros H1 H2.
  change (tool_loop w sender_name ((tool_id, collected_function) :: next :: rest)
            available_functions messages s)
    with (bind (run_tool w available_functions (fn_name collected_function)
                  (function_args_of (fn_arguments collected_function) sender_name))
               (fun r =>
                  tool_loop w sender_name (next :: rest) (snd r)
                    (messages
                     ++ [assistant_message tool_id (fn_name collected_function)
                           (Json.dumps (runtime w)
                              (function_args_of (fn_arguments collected_function)
                                 sender_name));
                         tool_message tool_id (fn_name collected_function)
                           (fst r)])) s).
  unfold bind, run_tool, try_catch, bind, available_functions.
  assert (Hin : existsb (String.eqb (fn_name collected_function))
                  ["weather"; "fetch_electricity_prices"] = false).
  { simpl. destruct (String.eqb_spec (fn_name collected_function) "weather");
      [contradiction|].
    destruct (String.eqb_spec (fn_name collected_function)
                "fetch_electricity_prices"); [contradiction | reflexivity]. }
  rewrite Hin. simpl. apply later_tool_calls_raise.
Qed.

End ToolFacts.

(** ** The recursive call after a tool round *)

Section RecursionFacts.
Import Bot Recursion.
Variable w : World.

Lemma scan_stops_at_none earlier m later :
  Forall (quiet (runtime w)) earlier ->
  content m = None ->
  Override.scan (runtime w) (earlier ++ m :: later)
  = Raise (TypeError "expected string or bytes-like object, got 'NoneType'").
Proof.
  intros Hq Hm. induction Hq as [|x l (c & Hc & Hf) _ IH]; simpl.
  - now rewrite Hm.
  - now rewrite Hc, Hf, IH.
Qed.

(** A call whose scan fails ends there: nothing is sent or edited. *)
Lemma scan_failure_ends_call fuel query history sender_name event_id s exc :
  Override.scan (runtime w)
    (conversation (today_at w (calendar s)) history sender_name query)
  = Raise exc ->
  exists s',
    chat_gpt_request w (S fuel) query history sender_name event_id s
      = (Raise exc, s') /\
    log s' = log s /\ assistant_replies s' = assistant_replies s.
Proof.
  intros Hscan. rewrite chat_gpt_request_scans.
  unfold bind at 1. unfold today. unfold bind at 1. unfold lift.
  rewrite Hscan. eexists. split; [reflexivity|]. split; reflexivity.
Qed.

(** X15. A history that holds a message with null content (the assistant
    message of a tool round) stops the call in its override scan, unless a
    message before it still has a token: [TypeError] is raised before any
    request or edit. *)
Theorem null_content_stops_the_call
    fuel query history sender_name event_id s earlier m later :
  history = earlier ++ m :: later ->
  content m = None ->
  Forall (quiet (runtime w)) (developer_message (today_at w (calendar s)) :: earlier) ->
  exists s',
    chat_gpt_request w (S fuel) query history sender_name event_id s
      = (Raise (TypeError "expected string or bytes-like object, got 'NoneType'"),
         s') /\
    log s' = log s /\ assistant_replies s' = assistant_replies s.
Proof.
  intros -> Hm Hq. apply scan_failure_ends_call.
  unfold conversation.
  change ([developer_message (today_at w (calendar s))]
          ++ (earlier ++ m :: later)
          ++ [user_message (PyStr.handle_of sender_name) query])
    with (developer_message (today_at w (calendar s))
          :: ((earlier ++ m :: later)
              ++ [user_message (PyStr.handle_of sender_name) query])).
  rewrite <- app_assoc. simpl app.
  exact (scan_stops_at_none
           (developer_message (today_at w (calendar s)) :: earlier) m
           (later ++ [user_message (PyStr.handle_of sender_name) query]) Hq Hm).
Qed.

(** The messages a completed tool loop has appended start with the
    assistant message of the first call and hold at least its tool
    message. *)
Lemma tool_loop_appends sender_name items :
  forall available messages s messages' s',
    tool_loop w sender_name items available messages s = (Ok messages', s') ->
    exists extra,
      messages' = messages ++ extra /\
      length extra = 2 * length items /\
      match items with
      | [] => True
      | (tool_id, collected_function) :: _ =>
          exists tail,
            extra =
              assistant_message tool_id (fn_name collected_function)
                (Json.dumps (runtime w)
                   (function_args_of (fn_arguments collected_function)
                      sender_name)) :: tail /\
            tail <> []
      end.
Proof.
  induction items as [|[tool_id cf] rest IH];
    intros available messages s messages' s' H.
  - simpl in H. inversion H; subst. exists []. rewrite app_nil_r.
    repeat split.
  - simpl in H. unfold bind in H.
    destruct (run_tool w available (fn_name cf)
                (function_args_of (fn_arguments cf) sender_name) s)
      as [[r| |] s1] eqn:Hrun; try discriminate.
    destruct (IH _ _ _ _ _ H) as (extra & -> & Hlen & _).
    eexists. split; [rewrite <- app_assoc; reflexivity|].
    split; [simpl; rewrite Hlen; lia|].
    eexists. split; [reflexivity | discriminate].
Qed.

(** X16. A tool round ends in the recursive call's override scan.  When
    the tool phase has completed and neither the conversation nor the new
    developer message holds an override token, the call made with the tool
    results raises [TypeError] on the assistant message's null content: no
    second request is sent and no further edit is made. *)
Theorem tool_round_ends_in_type_error
    fuel sender_name event_id loc messages s messages' s1 :
  collected_functions loc <> [] ->
  tool_phase w sender_name event_id (collected_functions loc) messages s
    = (Ok messages', s1) ->
  Forall (quiet (runtime w)) (developer_message (today_at w (calendar s1)) :: messages) ->
  exists s',
    conclude w (fun q h => chat_gpt_request w (S fuel) q h sender_name event_id)
      sender_name event_id loc messages s
    = (Raise (TypeError "expected string or bytes-like object, got 'NoneType'"),
       s') /\
    log s' = log s1 /\ assistant_replies s' = assistant_replies s1.
Proof.
  intros Hne Hphase Hq. unfold conclude.
  destruct (collected_functions loc) as [|[tool_id cf] rest] eqn:Hfns;
    [congruence|].
  unfold bind. rewrite Hphase.
  revert Hphase. unfold tool_phase, bind, lift.
  destruct (status_text w "Calling functions: " ((tool_id, cf) :: rest))
    as [text| |]; try discriminate.
  destruct (_edit event_id text s) as [[[]| |] s0]; try discriminate.
  intros Hloop.
  destruct (tool_loop_appends _ _ _ _ _ _ _ Hloop)
    as (extra & -> & _ & tail & -> & Htail).
  apply scan_failure_ends_call. unfold conversation.
  assert (Hlast : removelast
                    (messages
                     ++ assistant_message tool_id (fn_name cf)
                          (Json.dumps (runtime w)
                             (function_args_of (fn_arguments cf)
                                sender_name)) :: tail)
                  = messages
                    ++ assistant_message tool_id (fn_name cf)
                         (Json.dumps (runtime w)
                            (function_args_of (fn_arguments cf)
                               sender_name)) :: removelast tail).
  { rewrite removelast_app by discriminate.
    f_equal. destruct tail; [congruence | reflexivity]. }
  rewrite Hlast.
  change ([developer_message (today_at w (calendar s1))]
          ++ (messages ++ ?a :: ?t) ++ ?u)
    with (developer_message (today_at w (calendar s1))
          :: ((messages ++ a :: t) ++ u)).
  rewrite <- app_assoc. simpl app.
  match goal with
  | |- Override.scan _ (?d :: messages ++ ?a :: ?rest) = _ =>
      exact (scan_stops_at_none (d :: messages) a rest Hq eq_refl)
  end.
Qed.

End RecursionFacts.

Section ToolExamples.
Import Bot Scenario Cases Recursion.

Lemma user_is_always_the_sender_witness :
  exists members',
    function_args_of
      ("{" ++ q ++ "user" ++ q ++ ":" ++ q ++ "@mallory:example.org" ++ q ++ "}")%string
      sender = Json.Object members' /\
    PyDict.get members' "user" = Some (Json.Str sender) /\
    (forall k, k <> "user" ->
       PyDict.get members' k
       = PyDict.get [("user", Json.Str "@mallory:example.org")] k).
Proof.
  apply (proj1 (user_is_always_the_sender
                  ("{" ++ q ++ "user" ++ q ++ ":" ++ q
                   ++ "@mallory:example.org" ++ q ++ "}")%string sender)).
  reflexivity.
Defined.

Lemma first_tool_failure_is_captured_witness :
  run_tool (world weather_stream) (Table ["weather"; "fetch_electricity_prices"])
    "horoscope" (Json.Object []) initial
  = (Ok ("Function error: 'horoscope'",
         Text "['weather', 'fetch_electricity_prices']"), initial) /\
  run_tool (world weather_stream) (Table ["weather"; "fetch_electricity_prices"])
    "weather" (Json.Array []) initial
  = (Ok (("Function error: chatgpt.services.weather_service.get_weather()"
          ++ " argument after ** must be a mapping, not list")%string,
         Text "['weather', 'fetch_electricity_prices']"), initial).
Proof.
  split.
  - exact (proj1 (first_tool_failure_is_captured (world weather_stream)
                    ["weather"; "fetch_electricity_prices"] "horoscope"
                    (Json.Object []) initial) eq_refl).
  - exact (proj2 (proj2 (proj1 (proj2
             (first_tool_failure_is_captured (world weather_stream)
                ["weather"; "fetch_electricity_prices"] "weather"
                (Json.Object []) initial)) eq_refl)) []).
Defined.

Lemma unknown_tool_then_any_call_raises_witness :
  tool_loop (world unknown_then_weather_stream) sender
    [("1", {| fn_name := "horoscope"; fn_arguments := "{}" |});
     ("2", {| fn_name := "weather"; fn_arguments := args_whole |})]
    available_functions weather_question initial
  = (Raise (AttributeError "'str' object has no attribute 'keys'"), initial).
Proof.
  apply (unknown_tool_then_any_call_raises (world unknown_then_weather_stream)
           sender "1" {| fn_name := "horoscope"; fn_arguments := "{}" |}
           ("2", {| fn_name := "weather"; fn_arguments := args_whole |}) []
           weather_question initial); discriminate.
Defined.

Lemma quiet_weather_question :
  Forall (quiet tables) (developer :: weather_question).
Proof.
  repeat (constructor; [eexists; split; reflexivity|]). constructor.
Qed.

Lemma null_content_stops_the_call_witness :
  exists s',
    chat_gpt_request (world weather_stream) 1 ""
      (weather_question ++ weather_call :: []) sender reply_id initial
    = (Raise (TypeError "expected string or bytes-like object, got 'NoneType'"),
       s') /\
    log s' = log initial /\ assistant_replies s' = assistant_replies initial.
Proof.
  apply (null_content_stops_the_call (world weather_stream) 0 ""
           (weather_question ++ weather_call :: []) sender reply_id initial
           weather_question weather_call []).
  - reflexivity.
  - reflexivity.
  - exact quiet_weather_question.
Defined.

Lemma tool_round_ends_in_type_error_witness :
  exists s',
    conclude (world weather_stream)
      (fun q h => chat_gpt_request (world weather_stream) 1 q h sender reply_id)
      sender reply_id weather_locals weather_question initial
    = (Raise (TypeError "expected string or bytes-like object, got 'NoneType'"),
       s') /\
    log s' = log (snd (tool_phase (world weather_stream) sender reply_id
                         (collected_functions weather_locals)
                         weather_question initial)) /\
    assistant_replies s'
    = assistant_replies
        (snd (tool_phase (world weather_stream) sender reply_id
                (collected_functions weather_locals)
                weather_question initial)).
Proof.
  apply (tool_round_ends_in_type_error (world weather_stream) 0 sender
           reply_id weather_locals weather_question initial
           (weather_question ++ [weather_call; weather_result])).
  - discriminate.
  - vm_compute. reflexivity.
  - exact quiet_weather_question.
Defined.

End ToolExamples.

(** ** The effects of a call *)

Section EffectFacts.
Import Bot Effects.
Variable w : World.
Variable event_id : EventID.

Lemma edits_app (l1 l2 : list Action) : edits (l1 ++ l2) = edits l1 ++ edits l2.
Proof. unfold edits. apply flat_map_app. Qed.

Lemma evolves_refl s : evolves event_id s s.
Proof.
  exists []. rewrite app_nil_r. repeat split; auto; try constructor.
Qed.

Lemma evolves_trans s1 s2 s3 :
  evolves event_id s1 s2 -> evolves event_id s2 s3 -> evolves event_id s1 s3.
Proof.
  intros (a1 & Hl1 & Ht1 & Hc1 & Hk1 & Hd1) (a2 & Hl2 & Ht2 & Hc2 & Hk2 & Hd2).
  exists (a1 ++ a2). split; [rewrite Hl2, Hl1; now rewrite app_assoc|].
  split; [apply Forall_app; now split|].
  split; [| split; lia].
  rewrite Hc2, Hc1. unfold writes, ReplyCache.store_all.
  now rewrite edits_app, map_app, fold_left_app.
Qed.

(** A step that only moves the clocks or the time stamp. *)
Lemma evolves_quiet s s' :
  log s' = log s -> assistant_replies s' = assistant_replies s ->
  clock s <= clock s' -> calendar s <= calendar s' ->
  evolves event_id s s'.
Proof.
  intros Hl Hc Hk Hd. exists []. rewrite app_nil_r.
  repeat split; auto; try constructor.
Qed.

Lemma steady_ret {A} (a : A) : steady event_id (ret a).
Proof. intros s r s' H. inversion H; subst. apply evolves_refl. Qed.

Lemma steady_raise {A} (e : PyExc) : steady event_id (@raise A e).
Proof. intros s r s' H. inversion H; subst. apply evolves_refl. Qed.

Lemma steady_out_of_fuel {A} : steady event_id (@out_of_fuel A).
Proof. intros s r s' H. inversion H; subst. apply evolves_refl. Qed.

Lemma steady_lift {A} (x : result A) : steady event_id (lift x).
Proof. intros s r s' H. inversion H; subst. apply evolves_refl. Qed.

Lemma steady_bind {A B} (m : M A) (f : A -> M B) :
  steady event_id m -> (forall a, steady event_id (f a)) ->
  steady event_id (bind m f).
Proof.
  intros Hm Hf s r s' H. unfold bind in H.
  destruct (m s) as [[a|e|] s1] eqn:Hms.
  - eapply evolves_trans; [exact (Hm _ _ _ Hms) | exact (Hf _ _ _ _ H)].
  - inversion H; subst. exact (Hm _ _ _ Hms).
  - inversion H; subst. exact (Hm _ _ _ Hms).
Qed.

Lemma steady_try_catch {A} (m : M A) (h : PyExc -> M A) :
  steady event_id m -> (forall e, steady event_id (h e)) ->
  steady event_id (try_catch m h).
Proof.
  intros Hm Hh s r s' H. unfold try_catch in H.
  destruct (m s) as [[a|e|] s1] eqn:Hms.
  - inversion H; subst. exact (Hm _ _ _ Hms).
  - eapply evolves_trans; [exact (Hm _ _ _ Hms) | exact (Hh _ _ _ _ H)].
  - inversion H; subst. exact (Hm _ _ _ Hms).
Qed.

Lemma steady_now : steady event_id (now w).
Proof.
  intros s r s' H. inversion H; subst. apply evolves_quiet; simpl; auto.
Qed.

Lemma steady_today : steady event_id (today w).
Proof.
  intros s r s' H. inversion H; subst. apply evolves_quiet; simpl; auto.
Qed.

Lemma steady_get_last_edit_time : steady event_id get_last_edit_time.
Proof. intros s r s' H. inversion H; subst. apply evolves_refl. Qed.

Lemma steady_set_last_edit_time t : steady event_id (set_last_edit_time t).
Proof.
  intros s r s' H. inversion H; subst. apply evolves_quiet; simpl; auto.
Qed.

Lemma steady_edit text : steady event_id (_edit event_id text).
Proof.
  intros s r s' H. unfold _edit, bind, emit, remember in H.
  inversion H; subst; clear H.
  exists [Edit event_id text]. simpl.
  repeat split; auto; repeat constructor.
Qed.

Lemma steady_send request : steady event_id (emit (Send request)).
Proof.
  intros s r s' H. inversion H; subst; clear H.
  exists [Send request]. simpl. repeat split; auto; repeat constructor.
Qed.

Lemma steady_invoke tool kwargs : steady event_id (emit (Invoke tool kwargs)).
Proof.
  intros s r s' H. inversion H; subst; clear H.
  exists [Invoke tool kwargs]. simpl. repeat split; auto; repeat constructor.
Qed.

Lemma steady_due finish_reason : steady event_id (due w finish_reason).
Proof.
  unfold due.
  apply steady_bind; [apply steady_get_last_edit_time | intros last].
  destruct last; [| apply steady_ret].
  apply steady_bind; [apply steady_now | intros t].
  destruct (_ && _); apply steady_ret.
Qed.

Lemma steady_stream_step is_mistral loc chunk :
  steady event_id (stream_step w event_id is_mistral loc chunk).
Proof.
  unfold stream_step.
  apply steady_bind; [apply steady_lift | intros processed].
  apply steady_bind; [apply steady_lift | intros loc1].
  apply steady_bind; [apply steady_due | intros d].
  destruct (fst d); [| apply steady_ret].
  apply steady_bind; [apply steady_now | intros t].
  apply steady_bind; [apply steady_set_last_edit_time | intros _].
  apply steady_bind; [apply steady_edit | intros _].
  apply steady_ret.
Qed.

Lemma steady_stream_loop is_mistral chunks : forall loc,
  steady event_id (stream_loop w event_id is_mistral loc chunks).
Proof.
  induction chunks as [|chunk rest IH]; intros loc; simpl.
  - apply steady_ret.
  - apply steady_bind; [apply steady_stream_step | intros r].
    apply steady_bind; [apply IH | intros r']. apply steady_ret.
Qed.

Lemma steady_call_backend request : steady event_id (call_backend w request).
Proof.
  unfold call_backend.
  apply steady_bind; [apply steady_send | intros _].
  destruct (backend w request); [apply steady_raise | apply steady_ret].
Qed.

Lemma steady_create_chat_completion messages model tools :
  steady event_id (create_chat_completion w messages model tools).
Proof.
  unfold create_chat_completion.
  destruct (is_mistral_model w model);
    [destruct (negb (existsb (String.eqb model) (mistral_allowed_models w)))
    |destruct (negb (existsb (String.eqb model) (allowed_models w)))];
    try apply steady_raise;
    (apply steady_bind; [apply steady_call_backend | intros; apply steady_ret]).
Qed.

Lemma steady_open_stream messages model :
  steady event_id (open_stream w event_id messages model).
Proof.
  unfold open_stream. apply steady_try_catch.
  - apply steady_bind; [apply steady_create_chat_completion | intros].
    apply steady_ret.
  - intros e. apply steady_bind; [apply steady_edit | intros; apply steady_ret].
Qed.

Lemma steady_call tool function_args :
  steady event_id (call w tool function_args).
Proof.
  unfold call.
  destruct function_args as [| | | | | |kwargs]; try apply steady_raise.
  destruct (bad_keyword _ _); [apply steady_raise|].
  destruct (PyDict.get kwargs "user") as [user|],
           (PyDict.get kwargs (param (signature tool))) as [arg|];
    try apply steady_raise.
  apply steady_bind; [apply steady_invoke | intros].
  destruct (body w tool user arg); [apply steady_raise | apply steady_ret].
Qed.

Lemma steady_run_tool available tool function_args :
  steady event_id (run_tool w available tool function_args).
Proof.
  unfold run_tool. apply steady_try_catch.
  - apply steady_bind; [| intros; apply steady_ret].
    destruct available; [| apply steady_raise].
    destruct (existsb _ _); [apply steady_call | apply steady_raise].
  - intros e. destruct available; [apply steady_ret | apply steady_raise].
Qed.

Lemma steady_tool_loop sender_name items : forall available messages,
  steady event_id (tool_loop w sender_name items available messages).
Proof.
  induction items as [|[tool_id cf] rest IH]; intros available messages; simpl.
  - apply steady_ret.
  - apply steady_bind; [apply steady_run_tool | intros r]. apply IH.
Qed.

Lemma steady_tool_phase sender_name fns messages :
  steady event_id (tool_phase w sender_name event_id fns messages).
Proof.
  unfold tool_phase.
  apply steady_bind; [apply steady_lift | intros text].
  apply steady_bind; [apply steady_edit | intros _].
  apply steady_tool_loop.
Qed.

Lemma steady_conclude again sender_name loc messages :
  (forall q h, steady event_id (again q h)) ->
  steady event_id (conclude w again sender_name event_id loc messages).
Proof.
  intros Hagain. unfold conclude.
  destruct (collected_functions loc).
  - apply steady_edit.
  - apply steady_bind; [apply steady_tool_phase | intros; apply Hagain].
Qed.

Lemma steady_respond again sender_name is_mistral chunks messages :
  (forall q h, steady event_id (again q h)) ->
  steady event_id
    (respond w again sender_name event_id is_mistral chunks messages).
Proof.
  intros Hagain. unfold respond.
  apply steady_bind; [apply steady_stream_loop | intros r].
  now apply steady_conclude.
Qed.

(** Every call of [chat_gpt_request], at any depth and with any outcome,
    evolves the state. *)
Lemma steady_chat_gpt_request fuel : forall query history sender_name,
  steady event_id (chat_gpt_request w fuel query history sender_name event_id).
Proof.
  induction fuel as [|fuel IH]; intros query history sender_name.
  - apply steady_out_of_fuel.
  - rewrite chat_gpt_request_scans.
    apply steady_bind; [apply steady_today | intros d].
    apply steady_bind; [apply steady_lift | intros scanned].
    apply steady_bind; [apply steady_open_stream | intros opened].
    destruct opened as [[chat_completion messages]|]; [| apply steady_ret].
    apply steady_respond. intros q h. apply IH.
Qed.

End EffectFacts.

Section EffectConsequences.
Import Bot Effects StreamSpec.
Variable w : World.
Variable event_id : EventID.

Lemma targets_edit actions :
  Forall (targets event_id) actions ->
  forall id text, In (Edit id text) actions -> id = event_id.
Proof.
  intros H id text Hin. rewrite Forall_forall in H. exact (H _ Hin).
Qed.

Lemma store_all_writes_reachable c actions :
  ReplyCache.reachable c ->
  ReplyCache.reachable (ReplyCache.store_all c (writes event_id actions)).
Proof. apply reachable_store_all. Qed.

Lemma store_all_snoc c l k text :
  ReplyCache.store_all c (l ++ [(k, text)])
  = ReplyCache.store (ReplyCache.store_all c l) k text.
Proof. unfold ReplyCache.store_all. now rewrite fold_left_app. Qed.

(** After writes under one identifier, the cache holds the last text. *)
Lemma last_write_is_cached c texts text :
  ReplyCache.reachable c ->
  PyDict.get
    (ReplyCache.store_all c
       (map (fun t => (event_id, t)) (texts ++ [text]))) event_id
  = Some text.
Proof.
  intros Hr. rewrite map_app. simpl map. rewrite store_all_snoc.
  apply store_read_back. now apply reachable_store_all.
Qed.

(** X17. A call of [chat_gpt_request] edits its own reply only.  Whatever
    its outcome (a normal return, an exception, at any depth of the
    recursion), every edit it has sent is an edit of the event it was
    given, and the reply cache has received exactly the texts of these
    edits, in order, under that identifier: no other entry is written. *)
Theorem call_edits_only_its_reply fuel query history sender_name s r s' :
  chat_gpt_request w fuel query history sender_name event_id s = (r, s') ->
  exists actions,
    log s' = log s ++ actions /\
    (forall id text, In (Edit id text) actions -> id = event_id) /\
    assistant_replies s'
      = ReplyCache.store_all (assistant_replies s)
          (map (fun text => (event_id, text)) (edits actions)).
Proof.
  intros H.
  destruct (steady_chat_gpt_request w event_id fuel _ _ _ _ _ _ H)
    as (actions & Hlog & Ht & Hc & _).
  exists actions. split; [exact Hlog|]. split; [| exact Hc].
  now apply targets_edit.
Qed.

(** X18. The reply cache across a whole call.  From a cache a running bot
    can be in, any call of [chat_gpt_request] leaves such a cache again
    (so at most 100 entries), and if the call has sent at least one edit,
    the cache holds the text of its last edit under the reply's
    identifier. *)
Theorem call_leaves_last_edit_cached fuel query history sender_name s r s' :
  ReplyCache.reachable (assistant_replies s) ->
  chat_gpt_request w fuel query history sender_name event_id s = (r, s') ->
  ReplyCache.reachable (assistant_replies s') /\
  length (assistant_replies s') <= 100 /\
  (forall before text,
     edits (log s') = edits (log s) ++ before ++ [text] ->
     PyDict.get (assistant_replies s') event_id = Some text).
Proof.
  intros Hr H.
  destruct (steady_chat_gpt_request w event_id fuel _ _ _ _ _ _ H)
    as (actions & Hlog & _ & Hc & _).
  assert (Hr' : ReplyCache.reachable (assistant_replies s')).
  { rewrite Hc. now apply store_all_writes_reachable. }
  split; [exact Hr'|]. split; [exact (reachable_length _ Hr')|].
  intros before text Hedits.
  rewrite Hlog, edits_app in Hedits. apply app_inv_head in Hedits.
  rewrite Hc. unfold writes. rewrite Hedits.
  now apply last_write_is_cached.
Qed.

(** X19. The answer is what the resolver will see.  After a stream without
    tool-call fragments has been answered, the reply cache holds the full
    answer under the reply's identifier, and the message the resolver
    builds for that event, when it comes from the bot, has this answer as
    its content, whatever body the event itself carries. *)
Theorem answer_is_cached_for_the_resolver
    again sender_name is_mistral chunks messages s :
  ReplyCache.reachable (assistant_replies s) ->
  Forall (plain is_mistral) chunks ->
  exists s'',
    respond w again sender_name event_id is_mistral chunks messages s
      = (Ok tt, s'') /\
    PyDict.get (assistant_replies s'') event_id
      = Some (PyStr.join (deltas chunks)) /\
    (forall bot_name event,
       Resolver.ev_sender event = bot_name ->
       Resolver.message_of bot_name (assistant_replies s'') event_id event
       = plain_message "assistant" (Some (PyStr.handle_of bot_name))
           (PyStr.join (deltas chunks))).
Proof.
  intros Hr Hplain.
  destruct (stream_loop_plain w event_id is_mistral chunks no_locals s Hplain)
    as (loc & decisions & s' & Hrun & Hfns).
  pose proof (stream_loop_text w event_id is_mistral chunks no_locals s loc
                decisions s' Hrun) as Hmsgs.
  destruct (steady_stream_loop w event_id is_mistral chunks no_locals _ _ _ Hrun)
    as (actions & _ & _ & Hc & _).
  unfold respond, bind. rewrite Hrun. simpl fst.
  unfold conclude. rewrite Hfns. simpl collected_functions.
  eexists. split; [reflexivity|].
  assert (Hget : PyDict.get
                   (ReplyCache.store (assistant_replies s') event_id
                      (PyStr.join (collected_messages loc))) event_id
                 = Some (PyStr.join (deltas chunks))).
  { rewrite Hmsgs. simpl app. apply store_read_back.
    rewrite Hc. now apply store_all_writes_reachable. }
  split; [exact Hget|].
  intros bot_name event Hsender. unfold Resolver.message_of.
  rewrite Hsender, String.eqb_refl. simpl assistant_replies.
  now rewrite Hget.
Qed.

End EffectConsequences.

Section EffectExamples.
Import Bot Effects StreamSpec Scenario Cases.

Lemma call_edits_only_its_reply_witness :
  exists actions,
    log (snd (ask weather_stream "weather in Espoo?")) = log initial ++ actions /\
    (forall id text, In (Edit id text) actions -> id = reply_id) /\
    assistant_replies (snd (ask weather_stream "weather in Espoo?"))
      = ReplyCache.store_all (assistant_replies initial)
          (map (fun text => (reply_id, text)) (edits actions)).
Proof.
  apply (call_edits_only_its_reply (world weather_stream) reply_id 4
           "weather in Espoo?" [] sender initial
           (fst (ask weather_stream "weather in Espoo?"))
           (snd (ask weather_stream "weather in Espoo?"))).
  unfold ask. now destruct (chat_gpt_request _ _ _ _ _ _ _).
Defined.

Lemma call_leaves_last_edit_cached_witness :
  ReplyCache.reachable
    (assistant_replies (snd (ask answer_stream "hi"))) /\
  length (assistant_replies (snd (ask answer_stream "hi"))) <= 100 /\
  (forall before text,
     edits (log (snd (ask answer_stream "hi")))
       = edits (log initial) ++ before ++ [text] ->
     PyDict.get (assistant_replies (snd (ask answer_stream "hi"))) reply_id
       = Some text).
Proof.
  apply (call_leaves_last_edit_cached (world answer_stream) reply_id 4
           "hi" [] sender initial (fst (ask answer_stream "hi"))
           (snd (ask answer_stream "hi"))).
  - exact ReplyCache.reach_empty.
  - unfold ask. now destruct (chat_gpt_request _ _ _ _ _ _ _).
Defined.

Lemma answer_is_cached_for_the_resolver_witness :
  exists s'',
    respond (world answer_stream) (fun _ _ => ret tt) sender reply_id false
      answer_stream weather_question initial = (Ok tt, s'') /\
    PyDict.get (assistant_replies s'') reply_id
      = Some (PyStr.join (deltas answer_stream)) /\
    (forall bot_name event,
       Resolver.ev_sender event = bot_name ->
       Resolver.message_of bot_name (assistant_replies s'') reply_id event
       = plain_message "assistant" (Some (PyStr.handle_of bot_name))
           (PyStr.join (deltas answer_stream))).
Proof.
  apply (answer_is_cached_for_the_resolver (world answer_stream) reply_id
           (fun _ _ => ret tt) sender false answer_stream weather_question
           initial).
  - exact ReplyCache.reach_empty.
  - repeat constructor.
Defined.

End EffectExamples.

(** ** The entry points *)

Section HandlerFacts.
Import Bot Handlers Effects.
Variable w : World.
Variable room : Room.

Lemma mentions_needs_lt (text : string) :
  Chars.all (fun c => negb (Ascii.eqb c "<")) text = true ->
  mentions (bot_name room) text = false.
Proof.
  induction text as [|c text IH]; intros Hall.
  - reflexivity.
  - simpl in Hall. apply andb_prop in Hall as [Hc Hall].
    apply negb_true_iff in Hc.
    change (mentions (bot_name room) (String c text))
      with (match Mention.match_len (bot_name room) (String c text) with
            | Some _ => true
            | None => mentions (bot_name room) text
            end).
    rewrite (match_len_no_lt (bot_name room) c text Hc). exact (IH Hall).
Qed.

(** X20. A command whose query is empty or only whitespace is answered
    with the notice alone: no event is fetched, no request is sent, no edit
    is made and the instance is unchanged. *)
Theorem blank_query_gets_the_notice fuel evt query ses :
  PyStr.strip query = EmptyString ->
  chat_gpt_handler w room fuel evt query ses
  = (Ok tt, {| bot := bot ses; sent := sent ses ++ [blank_query_notice] |}).
Proof.
  intros H. unfold chat_gpt_handler. rewrite H. reflexivity.
Qed.

(** X21. What the passive handler leaves alone: an event that is not a
    text message, and a text message without any [<] (so without a mention
    anchor) whose relation can be read and does not name an event of the
    reply cache.  Nothing is sent and the instance is unchanged.  A text
    message whose content has a relation without [in_reply_to] (the edit
    of a message, a reaction) is not left alone: reading the relation
    raises [AttributeError] out of the handler, before anything is sent. *)
Theorem unaddressed_messages_are_ignored fuel evt ses :
  (in_msgtype evt <> Some TEXT
   \/ (in_formatted_body evt = None /\
       Chars.all (fun c => negb (Ascii.eqb c "<")) (in_body evt) = true /\
       exists target,
         reply_target evt = Ok target /\
         forall id, target = Some id ->
                    ~ In id (PyDict.keys (assistant_replies (bot ses)))) ->
   on_message w room fuel evt ses = (Ok tt, ses)) /\
  (in_msgtype evt = Some TEXT ->
   in_relates_to evt = Resolver.OtherRelation ->
   on_message w room fuel evt ses = (Raise Resolver.no_in_reply_to, ses)).
Proof.
  split.
  - intros [Htype|(Hfb & Hbody & target & Htarget & Hreply)]; unfold on_message.
    + destruct (in_msgtype evt) as [msgtype|]; [| reflexivity].
      destruct (String.eqb_spec msgtype TEXT) as [->|];
        [congruence | reflexivity].
    + destruct (in_msgtype evt) as [msgtype|]; [| reflexivity].
      destruct (String.eqb msgtype TEXT); [| reflexivity].
      rewrite Htarget, Hfb, (mentions_needs_lt _ Hbody). simpl orb.
      destruct target as [id|]; [| reflexivity].
      destruct (PyDict.mem (assistant_replies (bot ses)) id) eqn:Hmem;
        [| reflexivity].
      apply mem_true_iff in Hmem. exfalso. exact (Hreply id eq_refl Hmem).
  - intros Htype Hrel. unfold on_message, reply_target.
    rewrite Htype, Hrel. reflexivity.
Qed.

(** X22. A thread that cannot be fetched stops a command before anything
    is sent: the transport's exception leaves the handler, no placeholder
    reply is posted and the instance is unchanged. *)
Theorem unreachable_thread_stops_the_command
    fuel evt query ses target evs exc :
  PyStr.strip query <> EmptyString ->
  reply_target evt = Ok (Some target) ->
  Resolver.chain (get_event room) target evs (Some exc) ->
  length evs < fuel ->
  chat_gpt_handler w room fuel evt query ses = (Raise exc, ses).
Proof.
  intros Hq Ht Hchain Hfuel. unfold chat_gpt_handler.
  destruct (PyStr.strip query) eqn:Hs; [congruence|]. simpl negb. cbv iota.
  rewrite Ht. unfold thread_history, Resolver.get_conversation_history.
  now rewrite (walk_along_chain _ _ _ _ _ _ Hchain) by exact Hfuel.
Qed.

(** X23. Every edit a command causes is an edit of the placeholder reply
    the handler has just posted: when the handler goes on to answer, it
    posts the ellipsis once, and all edits of the run carry the identifier
    the transport gave to that reply. *)
Theorem command_edits_its_placeholder fuel evt query ses r ses' :
  chat_gpt_handler w room fuel evt query ses = (r, ses') ->
  exists actions,
    log (bot ses') = log (bot ses) ++ actions /\
    (forall id text,
       In (Edit id text) actions ->
       id = reply_id_at room (length (sent ses)) /\
       sent ses' = sent ses ++ [ellipsis]).
Proof.
  unfold chat_gpt_handler.
  destruct (negb (PyStr.nonempty (PyStr.strip query))).
  - intros H. inversion H; subst. exists []. simpl. rewrite app_nil_r.
    split; [reflexivity | intros id text []].
  - destruct (reply_target evt) as [target|e|];
      try (intros H; inversion H; subst; exists []; rewrite app_nil_r;
           split; [reflexivity | intros id text []]).
    destruct (thread_history room fuel target ses) as [history|e|];
      try (intros H; inversion H; subst; exists []; rewrite app_nil_r;
           split; [reflexivity | intros id text []]).
    unfold answer, reply. cbn [bot sent].
    destruct (chat_gpt_request w fuel (PyStr.strip query) history
                (in_sender evt) (reply_id_at room (length (sent ses)))
                (bot ses)) as [r0 s'] eqn:Hrun.
    intros H. inversion H; subst; clear H. simpl.
    destruct (steady_chat_gpt_request w _ fuel _ _ _ _ _ _ Hrun)
      as (actions & Hlog & Ht & _).
    exists actions. split; [exact Hlog|].
    intros id text Hin. split; [| reflexivity].
    rewrite Forall_forall in Ht. exact (Ht _ Hin).
Qed.

End HandlerFacts.

Section HandlerExamples.
Import Bot Handlers Scenario.

Lemma blank_query_gets_the_notice_witness :
  chat_gpt_handler (world answer_stream) broken_room 3 command_in_thread
    "   " fresh
  = (Ok tt, {| bot := bot fresh; sent := sent fresh ++ [blank_query_notice] |}).
Proof.
  apply (blank_query_gets_the_notice (world answer_stream) broken_room 3
           command_in_thread "   " fresh).
  reflexivity.
Defined.

Lemma unaddressed_messages_are_ignored_witness :
  on_message (world answer_stream) broken_room 3 small_talk fresh
  = (Ok tt, fresh) /\
  on_message (world answer_stream) broken_room 3 edited_message fresh
  = (Raise (AttributeError "'NoneType' object has no attribute 'get'"), fresh).
Proof.
  split.
  - apply (proj1 (unaddressed_messages_are_ignored (world answer_stream)
                    broken_room 3 small_talk fresh)).
    right. split; [reflexivity|]. split; [reflexivity|].
    exists None. split; [reflexivity|]. intros id H. discriminate H.
  - apply (proj2 (unaddressed_messages_are_ignored (world answer_stream)
                    broken_room 3 edited_message fresh)); reflexivity.
Defined.

Lemma unreachable_thread_stops_the_command_witness :
  chat_gpt_handler (world answer_stream) broken_room 3 command_in_thread
    "and the day after?" fresh
  = (Raise Resolver.not_found, fresh).
Proof.
  apply (unreachable_thread_stops_the_command (world answer_stream)
           broken_room 3 command_in_thread "and the day after?" fresh
           "$2" [("$2", Resolver.reply_event)] Resolver.not_found).
  - discriminate.
  - reflexivity.
  - apply Resolver.chain_reply with (next := "$1"); try reflexivity.
    apply Resolver.chain_broken; reflexivity.
  - simpl. lia.
Defined.

Lemma command_edits_its_placeholder_witness :
  exists actions,
    log (bot (snd (chat_gpt_handler (world answer_stream) broken_room 3
                     small_talk "hello" fresh)))
      = log (bot fresh) ++ actions /\
    (forall id text,
       In (Edit id text) actions ->
       id = reply_id_at broken_room (length (sent fresh)) /\
       sent (snd (chat_gpt_handler (world answer_stream) broken_room 3
                    small_talk "hello" fresh))
         = sent fresh ++ [ellipsis]).
Proof.
  apply (command_edits_its_placeholder (world answer_stream) broken_room 3
           small_talk "hello" fresh
           (fst (chat_gpt_handler (world answer_stream) broken_room 3
                   small_talk "hello" fresh))).
  now destruct (chat_gpt_handler _ _ _ _ _ _).
Defined.

End HandlerExamples.

(** ** The first request of a call *)

Section FirstRequest.
Import Bot Effects Recursion.
Variable w : World.
Variable event_id : EventID.

(** X24. Without an override token anywhere and with an allowed default
    model that is not a Mistral one, the first thing a call does to the
    outside is to send the conversation it was given, unchanged: one
    developer message with the current date, the history, and the user
    message with the sender's handle and the query; the model is the
    configured one and the tool definitions are passed. *)
Theorem first_request_is_the_conversation
    fuel query history sender_name s r s' :
  Forall (quiet (runtime w))
    (conversation (today_at w (calendar s)) history sender_name query) ->
  is_mistral_model w (config_model w) = false ->
  existsb (String.eqb (config_model w)) (allowed_models w) = true ->
  chat_gpt_request w (S fuel) query history sender_name event_id s = (r, s') ->
  exists rest,
    log s' =
    log s
    ++ Send {| req_messages :=
                 developer_message (today_at w (calendar s))
                 :: history
                    ++ [user_message (PyStr.handle_of sender_name) query];
               req_model := config_model w;
               req_tools := true;
               req_mistral := false |} :: rest.
Proof.
  intros Hq Hmistral Hallowed.
  rewrite chat_gpt_request_scans. unfold bind at 1. unfold today.
  unfold bind at 1. unfold lift.
  rewrite (scan_no_match _ _ Hq). simpl fst. simpl snd.
  unfold select_model. unfold bind at 1.
  unfold open_stream, try_catch, bind at 1.
  unfold create_chat_completion. rewrite Hmistral, Hallowed. simpl negb.
  cbv iota. unfold call_backend, bind at 1. unfold emit at 1.
  destruct (backend w _) as [e|chunks] eqn:Hback.
  - unfold raise, _edit, bind, emit, remember, ret. simpl.
    intros H. inversion H; subst; clear H. simpl.
    eexists. rewrite <- app_assoc. reflexivity.
  - unfold ret at 1. unfold ret at 1. cbv beta iota.
    intros H.
    assert (Hst : steady event_id
                    (respond w
                       (fun q h => chat_gpt_request w fuel q h sender_name event_id)
                       sender_name event_id false chunks
                       (conversation (today_at w (calendar s)) history
                          sender_name query))).
    { apply steady_respond. intros q h. apply steady_chat_gpt_request. }
    destruct (Hst _ _ _ H) as (actions & Hlog & _).
    exists actions. rewrite Hlog. simpl log. now rewrite <- app_assoc.
Qed.

End FirstRequest.

Section FirstRequestExample.
Import Bot Scenario Cases Recursion.

Lemma first_request_is_the_conversation_witness :
  exists rest,
    log (snd (chat_gpt_request (world answer_stream) 1 "hi" [] sender
                reply_id initial))
    = log initial
      ++ Send {| req_messages :=
                   developer_message
                     (today_at (world answer_stream) (calendar initial))
                   :: [] ++ [user_message (PyStr.handle_of sender) "hi"];
                 req_model := config_model (world answer_stream);
                 req_tools := true;
                 req_mistral := false |} :: rest.
Proof.
  apply (first_request_is_the_conversation (world answer_stream) reply_id 0
           "hi" [] sender initial
           (fst (chat_gpt_request (world answer_stream) 1 "hi" [] sender
                   reply_id initial))).
  - repeat (constructor; [eexists; split; reflexivity|]). constructor.
  - reflexivity.
  - reflexivity.
  - now destruct (chat_gpt_request _ _ _ _ _ _ _).
Defined.

End FirstRequestExample.

(** ** The electricity price service *)

Section ElectricityFacts.
Import Electricity.

(** X25. A successful fetch is remembered under the date it was made for.
    When the date is not cached and the server answers 200 with a payload
    that renders, the call returns the rendered text after one request,
    and every later call that resolves to the same date (the date itself,
    or [today] on that day) returns that text without any request and
    leaves the cache as it is. *)
Theorem fetched_prices_are_cached net cache user date response text :
  PyDict.get cache (resolve net date) = None ->
  http_get net (url_of (resolve net date)) = inr response ->
  status_code response = 200 ->
  render net (payload response) = inr text ->
  let o := fetch_prices net cache user date in
  returned o = Ok text /\
  requested o = [url_of (resolve net date)] /\
  (forall net' user' date',
     resolve net' date' = resolve net date ->
     fetch_prices net' (cache_after o) user' date'
     = {| returned := Ok text; cache_after := cache_after o;
          requested := [] |}).
Proof.
  intros Hmiss Hget Hstatus Hrender o.
  assert (Ho : o = {| returned := Ok text;
                      cache_after := PyDict.set cache (resolve net date) text;
                      requested := [url_of (resolve net date)] |}).
  { unfold o, fetch_prices. rewrite Hmiss, Hget, Hstatus, Hrender. reflexivity. }
  rewrite Ho. simpl. split; [reflexivity|]. split; [reflexivity|].
  intros net' user' date' Hsame. unfold fetch_prices.
  now rewrite Hsame, get_set_same.
Qed.

(** X26. A refusal is reported and not remembered.  When the server
    answers with a status other than 200, the call returns the text that
    names the date and the status, and the cache is left as it was: the
    next call for that date asks the server again. *)
Theorem refused_prices_are_not_cached net cache user date response :
  PyDict.get cache (resolve net date) = None ->
  http_get net (url_of (resolve net date)) = inr response ->
  status_code response <> 200 ->
  let o := fetch_prices net cache user date in
  returned o = Ok (unavailable (resolve net date) (status_code response)) /\
  cache_after o = cache /\
  requested (fetch_prices net (cache_after o) user date)
    = [url_of (resolve net date)].
Proof.
  intros Hmiss Hget Hstatus o.
  assert (Hne : negb (status_code response =? 200) = true).
  { apply negb_true_iff. now apply Nat.eqb_neq. }
  assert (Ho : o = {| returned := Ok (unavailable (resolve net date)
                                         (status_code response));
                      cache_after := cache;
                      requested := [url_of (resolve net date)] |}).
  { unfold o, fetch_prices. now rewrite Hmiss, Hget, Hne. }
  rewrite Ho. simpl. split; [reflexivity|]. split; [reflexivity|].
  unfold fetch_prices. now rewrite Hmiss, Hget, Hne.
Qed.

(** X27. Cached prices are never replaced: whatever a call is asked and
    whatever the network answers, every date that was in the cache before
    the call is still there with the same text after it. *)
Theorem cached_prices_never_change net cache user date d text :
  PyDict.get cache d = Some text ->
  PyDict.get (cache_after (fetch_prices net cache user date)) d = Some text.
Proof.
  intros Hd. unfold fetch_prices.
  destruct (PyDict.get cache (resolve net date)) as [data|] eqn:Hget;
    [exact Hd|].
  destruct (http_get net _) as [e|response]; [exact Hd|].
  destruct (negb (status_code response =? 200)); [exact Hd|].
  destruct (render net (payload response)) as [e|formatted]; [exact Hd|].
  simpl. rewrite get_set_other; [exact Hd|].
  intros ->. congruence.
Qed.

Lemma fetched_prices_are_cached_witness :
  returned (fetch_prices morning [] "@alice:example.org" "today")
    = Ok "Prices of the day" /\
  requested (fetch_prices morning [] "@alice:example.org" "today")
    = [url_of (resolve morning "today")] /\
  (forall net' user' date',
     resolve net' date' = resolve morning "today" ->
     fetch_prices net'
       (cache_after (fetch_prices morning [] "@alice:example.org" "today"))
       user' date'
     = {| returned := Ok "Prices of the day";
          cache_after :=
            cache_after (fetch_prices morning [] "@alice:example.org" "today");
          requested := [] |}).
Proof.
  apply (fetched_prices_are_cached morning [] "@alice:example.org" "today"
           {| status_code := 200; payload := "[prices]" |} "Prices of the day");
    reflexivity.
Defined.

Lemma refused_prices_are_not_cached_witness :
  returned (fetch_prices morning [] "@alice:example.org" "tomorrow")
    = Ok (unavailable (resolve morning "tomorrow") 404) /\
  cache_after (fetch_prices morning [] "@alice:example.org" "tomorrow") = [] /\
  requested
    (fetch_prices morning
       (cache_after (fetch_prices morning [] "@alice:example.org" "tomorrow"))
       "@alice:example.org" "tomorrow")
    = [url_of (resolve morning "tomorrow")].
Proof.
  apply (refused_prices_are_not_cached morning [] "@alice:example.org"
           "tomorrow" {| status_code := 404; payload := "" |});
    [reflexivity | reflexivity | discriminate].
Defined.

Lemma cached_prices_never_change_witness :
  PyDict.get
    (cache_after (fetch_prices morning [("2026-11-02", "Prices of yesterday")]
                    "@alice:example.org" "today"))
    "2026-11-02" = Some "Prices of yesterday".
Proof.
  apply (cached_prices_never_change morning
           [("2026-11-02", "Prices of yesterday")] "@alice:example.org"
           "today" "2026-11-02" "Prices of yesterday").
  reflexivity.
Defined.

End ElectricityFacts.

(** ** The weather service *)

Section WeatherFacts.
Import Weather.

(** X28. The weather tool turns the client's errors into text: it raises
    only when a call of the client raises something that is neither a
    client error nor a server error, or when both calls succeed and the
    feels-like value is missing (the format of that value rejects it); and
    when the current weather cannot be fetched, the forecast is not asked
    for. *)
Theorem weather_errors_become_text fmi user location :
  (forall e,
     fst (get_weather fmi user location) = Raise e ->
     weather_by_place_name fmi location = Failure e \/
     forecast_by_place_name fmi location = Failure e \/
     (exists c fs,
        weather_by_place_name fmi location = Data c /\
        forecast_by_place_name fmi location = Data fs /\
        feels_like_2f c = None /\ e = missing_value)) /\
  fst (get_weather fmi user location) <> OutOfFuel /\
  ((forall c, weather_by_place_name fmi location <> Data c) ->
   snd (get_weather fmi user location) = [AskedCurrent location]) /\
  (forall status message,
     weather_by_place_name fmi location = ClientError status message ->
     fst (get_weather fmi user location)
     = Ok ("Error fetching current weather: " ++ message)%string).
Proof.
  unfold get_weather.
  destruct (weather_by_place_name fmi location) as [c|st m|st b|e0] eqn:Hc.
  - destruct (forecast_by_place_name fmi location) as [fs|st m|st b|e0];
      simpl.
    + unfold current_weather_str.
      destruct (feels_like_2f c) as [felt|] eqn:Hfelt; simpl.
      * split; [discriminate|]. split; [discriminate|].
        split; [intros H; exfalso; exact (H c eq_refl) | discriminate].
      * split.
        { intros e H. inversion H; subst. right. right.
          exists c, fs. repeat split; auto. }
        split; [discriminate|].
        split; [intros H; exfalso; exact (H c eq_refl) | discriminate].
    + split; [discriminate|]. split; [discriminate|].
      split; [intros H; exfalso; exact (H c eq_refl) | discriminate].
    + split; [discriminate|]. split; [discriminate|].
      split; [intros H; exfalso; exact (H c eq_refl) | discriminate].
    + split; [intros e H; inversion H; subst; auto|].
      split; [discriminate|].
      split; [intros H; exfalso; exact (H c eq_refl) | discriminate].
  - simpl. split; [discriminate|]. split; [discriminate|].
    split; [reflexivity|]. intros status message H. now inversion H.
  - simpl. split; [discriminate|]. split; [discriminate|].
    split; [reflexivity | discriminate].
  - simpl. split; [intros e H; inversion H; subst; auto|].
    split; [discriminate|]. split; [reflexivity | discriminate].
Qed.

(** X29. Weather symbols from 100 on are described as the symbol 100
    lower, so a night symbol gets the text of its day symbol; a symbol
    that the table does not have, or that is missing, is described as
    [Tuntematon]. *)
Theorem night_symbols_share_the_day_text fmi :
  (forall s, (0 <= s < 100)%Z ->
     describe fmi (Some (s + 100)%Z) = describe fmi (Some s)) /\
  (forall s, (s < 100)%Z -> WEATHER_MAP fmi s = None ->
     describe fmi (Some s) = "Tuntematon") /\
  describe fmi None = "Tuntematon".
Proof.
  split; [| split].
  - intros s Hs. unfold describe.
    destruct (Z.ltb_spec (s + 100) 100); [lia|].
    destruct (Z.ltb_spec s 100); [| lia].
    now replace (s + 100 - 100)%Z with s by lia.
  - intros s Hs Hnone. unfold describe.
    destruct (Z.ltb_spec s 100); [| lia]. now rewrite Hnone.
  - reflexivity.
Qed.

Lemma weather_errors_become_text_witness :
  fst (get_weather nowhere "@alice:example.org" "Atlantis")
  = Ok ("Error fetching current weather: " ++ "No locations found")%string.
Proof.
  exact (proj2 (proj2 (proj2
           (weather_errors_become_text nowhere "@alice:example.org" "Atlantis")))
           400 "No locations found" eq_refl).
Defined.

Lemma night_symbols_share_the_day_text_witness :
  describe nowhere (Some (1 + 100)%Z) = describe nowhere (Some 1%Z).
Proof.
  apply (proj1 (night_symbols_share_the_day_text nowhere)). lia.
Defined.

End WeatherFacts.

(** ** The extent of the override word *)

Section OverrideExtent.





End OverrideExtent.
